(** * XOrcaCloudEvent: a shallow embedding of [src/XOrcaCloudEvent/index.ts]

    The class [XOrcaCloudEvent<TData>] normalises a raw candidate record
    into a frozen object of fourteen fields and offers a handful of derived
    views.  The development follows the class member by member:

    - JavaScript strings are sequences of UTF-16 code units ([list N]);
    - [encodeURI] is the ECMAScript built-in (ECMA-262, 19.2.6), which may
      throw [URIError];
    - the constructor is a function into an error monad, generic in the
      payload type [TData] as the class is;
    - [toJSON], [xorcaExtensions], [extensionFields], [cloudevent] and
      [openTelemetryAttributes] are ordered records (association lists in
      property-creation order);
    - Numbers are doubles, written by Number::toString and read by
      rounding the decimal to the nearest double;
    - [JSON.stringify] / [JSON.parse] work on the text of the document;
    - [Object.freeze] and assignment are modelled on an explicit heap. *)

From Stdlib Require Import ZArith NArith QArith Znumtheory Ascii String.
From stdpp Require Import base tactics option list.

Local Open Scope N_scope.

(** ** JavaScript strings *)

(** A string value is a finite sequence of 16-bit code units. *)
Abbreviation jsstring := (list N).

(** String literals of the source, read as ASCII code units. *)
Definition js (s : string) : jsstring :=
  List.map N_of_ascii (list_ascii_of_string s).

Fixpoint str_eqb (a b : jsstring) : bool :=
  match a, b with
  | [], [] => true
  | x :: a', y :: b' => (x =? y) && str_eqb a' b'
  | _, _ => false
  end.

(** [Array.prototype.includes] on an array of strings. *)
Definition includes (l : list jsstring) (k : jsstring) : bool :=
  existsb (str_eqb k) l.

(** Well-formed strings hold 16-bit code units only. *)
Definition code_unit (c : N) : Prop := c < 65536.
Definition wf_string (s : jsstring) : Prop := Forall code_unit s.

(** ** Errors *)

(** The errors thrown.  [NotModelled] is not an error of JavaScript: it
    marks a computation that leaves what is represented here, the call of
    a getter or setter function (see [Objects.Get]). *)
Inductive JsError :=
| URIError
| RangeError
| TypeError
| SyntaxError
| NotModelled.

Inductive Exc (A : Type) :=
| Ok (a : A)
| Throw (e : JsError).
Arguments Ok {A} a.
Arguments Throw {A} e.

Definition bind {A B} (m : Exc A) (k : A -> Exc B) : Exc B :=
  match m with
  | Ok a => k a
  | Throw e => Throw e
  end.

Notation "'let*' x ':=' m 'in' k" := (bind m (fun x => k))
  (at level 10, x name, m at level 100, k at level 200).

(** ** The built-in [encodeURI] (ECMA-262, 19.2.6.5 Encode) *)

Module URI.

Definition between (lo hi c : N) : bool := (lo <=? c) && (c <=? hi).

Definition uriAlpha (c : N) : bool := between 97 122 c || between 65 90 c.
Definition DecimalDigit (c : N) : bool := between 48 57 c.
Definition uriMark : jsstring := js "-_.!~*'()".
Definition uriReserved : jsstring := js ";/?:@&=+$,".

Definition mem (c : N) (s : jsstring) : bool := existsb (N.eqb c) s.

Definition uriUnescaped (c : N) : bool :=
  uriAlpha c || DecimalDigit c || mem c uriMark.

(** [encodeURI] leaves uriReserved, uriUnescaped and "#" as they are. *)
Definition unescapedSet (c : N) : bool :=
  mem c uriReserved || uriUnescaped c || (c =? 35).

Definition is_leading_surrogate (c : N) : bool := between 55296 56319 c.
Definition is_trailing_surrogate (c : N) : bool := between 56320 57343 c.

Definition UTF16SurrogatePairToCodePoint (lead trail : N) : N :=
  (lead - 55296) * 1024 + (trail - 56320) + 65536.

(** UTF-8 transformation of a code point. *)
Definition utf8 (cp : N) : list N :=
  if cp <? 128 then [cp]
  else if cp <? 2048 then
    [N.lor 192 (N.shiftr cp 6); N.lor 128 (N.land cp 63)]
  else if cp <? 65536 then
    [N.lor 224 (N.shiftr cp 12);
     N.lor 128 (N.land (N.shiftr cp 6) 63);
     N.lor 128 (N.land cp 63)]
  else
    [N.lor 240 (N.shiftr cp 18);
     N.lor 128 (N.land (N.shiftr cp 12) 63);
     N.lor 128 (N.land (N.shiftr cp 6) 63);
     N.lor 128 (N.land cp 63)].

(** Upper-case hexadecimal digit. *)
Definition hex_upper (d : N) : N := if d <? 10 then 48 + d else 55 + d.

(** "%" followed by the two-digit upper-case hexadecimal octet. *)
Definition escape_octet (o : N) : jsstring :=
  [37; hex_upper (o / 16); hex_upper (o mod 16)].

Definition escape (cp : N) : jsstring := concat (List.map escape_octet (utf8 cp)).

(** The loop of Encode: a code unit of the unescaped set is copied; any
    other is read as a code point (two units for a surrogate pair) and
    its UTF-8 octets are escaped; an unpaired surrogate throws. *)
Fixpoint Encode (s : jsstring) : Exc jsstring :=
  match s with
  | [] => Ok []
  | c :: rest =>
      if unescapedSet c then
        let* r := Encode rest in Ok (c :: r)
      else if is_trailing_surrogate c then Throw URIError
      else if is_leading_surrogate c then
        match rest with
        | [] => Throw URIError
        | d :: rest' =>
            if is_trailing_surrogate d then
              let* r := Encode rest' in
              Ok (escape (UTF16SurrogatePairToCodePoint c d) ++ r)
            else Throw URIError
        end
      else
        let* r := Encode rest in Ok (escape c ++ r)
  end.

End URI.

Definition encodeURI (uri : jsstring) : Exc jsstring := URI.Encode uri.

(** ** The candidate record and the event *)

(** Modelled from the spec: the type of the optional [time] property in
    [XOrcaCloudEventSchema] ([./schema] is not part of the sources): a
    string, a numeric epoch or a date object (its time value). *)
Inductive TimeLike :=
| TimeString (s : jsstring)
| TimeEpoch (ms : Z)
| TimeDate (ms : Z).

(** A property typed [string | null | undefined]. *)
Inductive Nullable :=
| Absent
| IsNull
| Given (s : jsstring).

(** [zod.infer<typeof XOrcaCloudEventSchema>]: the constructor's argument.
    [id], [time], [datacontenttype] and [specversion] are optional strings;
    the routing and tracing properties are optional or null.  The class
    declares its own [specversion] and [datacontenttype] with literal
    types; what the constructor stores in them is what the right-hand
    sides of lines 49 and 52 evaluate to. *)
Module Input.
Record t (TData : Type) := mk {
  id : option jsstring;
  time : option TimeLike;
  type : jsstring;
  source : jsstring;
  datacontenttype : option jsstring;
  subject : jsstring;
  data : TData;
  specversion : option jsstring;
  to : Nullable;
  redirectto : Nullable;
  traceparent : Nullable;
  tracestate : Nullable;
  elapsedtime : Nullable;
  executionunits : Nullable;
}.
Arguments mk {TData}.
Arguments id {TData}.
Arguments time {TData}.
Arguments type {TData}.
Arguments source {TData}.
Arguments datacontenttype {TData}.
Arguments subject {TData}.
Arguments data {TData}.
Arguments specversion {TData}.
Arguments to {TData}.
Arguments redirectto {TData}.
Arguments traceparent {TData}.
Arguments tracestate {TData}.
Arguments elapsedtime {TData}.
Arguments executionunits {TData}.
End Input.

(** The fields of the class; [None] is JavaScript's [null]. *)
Record XOrcaCloudEvent (TData : Type) := {
  id : jsstring;
  type : jsstring;
  source : jsstring;
  specversion : jsstring;
  datacontenttype : jsstring;
  subject : jsstring;
  time : jsstring;
  data : TData;
  redirectto : option jsstring;
  to : option jsstring;
  traceparent : option jsstring;
  tracestate : option jsstring;
  elapsedtime : option jsstring;
  executionunits : option jsstring;
}.
Arguments id {TData}.
Arguments type {TData}.
Arguments source {TData}.
Arguments specversion {TData}.
Arguments datacontenttype {TData}.
Arguments subject {TData}.
Arguments time {TData}.
Arguments data {TData}.
Arguments redirectto {TData}.
Arguments to {TData}.
Arguments traceparent {TData}.
Arguments tracestate {TData}.
Arguments elapsedtime {TData}.
Arguments executionunits {TData}.

(** What the constructor obtains from outside the class: the string the
    next call [uuidv4()] returns, and the helper [convertToISOString] of
    [./utils] (not part of the sources), which may throw. *)
Record Env := {
  uuidv4 : jsstring;
  convertToISOString : option TimeLike -> Exc jsstring;
}.

(** *** Truthiness and the operator [||] *)

(** The string a truthy operand holds; [undefined], [null] and the empty
    string are falsy. *)
Definition truthy_string (s : jsstring) : option jsstring :=
  match s with
  | [] => None
  | _ :: _ => Some s
  end.

Definition truthy_opt (x : option jsstring) : option jsstring :=
  match x with
  | Some s => truthy_string s
  | None => None
  end.

Definition truthy (x : Nullable) : option jsstring :=
  match x with
  | Given s => truthy_string s
  | Absent | IsNull => None
  end.

(** [x || d] with a string default. *)
Definition or_default (x : option jsstring) (d : jsstring) : jsstring :=
  match truthy_opt x with
  | Some s => s
  | None => d
  end.

(** [x || null]. *)
Definition or_null (x : Nullable) : option jsstring := truthy x.

(** [x ? encodeURI(x) : null]. *)
Definition encode_or_null (x : Nullable) : Exc (option jsstring) :=
  match truthy x with
  | Some s => let* r := encodeURI s in Ok (Some r)
  | None => Ok None
  end.

Definition default_datacontenttype : jsstring :=
  js "application/cloudevents+json; charset=UTF-8; profile=xorca".

(** *** The constructor (source lines 43-60)

    The statements run in source order, so the first failing conversion
    decides the error thrown.  The final [Object.freeze(this)] acts on the
    object, not on the values: it is part of [Heap.new_XOrcaCloudEvent]
    below. *)
Definition constructor {TData} (env : Env) (event : Input.t TData)
  : Exc (XOrcaCloudEvent TData) :=
  let this_id := or_default (Input.id event) (uuidv4 env) in
  let* this_time := convertToISOString env (Input.time event) in
  let this_type := Input.type event in
  let* this_source := encodeURI (Input.source event) in
  let this_datacontenttype :=
    or_default (Input.datacontenttype event) default_datacontenttype in
  let this_subject := Input.subject event in
  let this_data := Input.data event in
  let this_specversion := or_default (Input.specversion event) (js "1.0") in
  let* this_to := encode_or_null (Input.to event) in
  let* this_redirectto := encode_or_null (Input.redirectto event) in
  let this_traceparent := or_null (Input.traceparent event) in
  let this_tracestate := or_null (Input.tracestate event) in
  let this_elapsedtime := or_null (Input.elapsedtime event) in
  let this_executionunits := or_null (Input.executionunits event) in
  Ok {| id := this_id; time := this_time; type := this_type;
        source := this_source; datacontenttype := this_datacontenttype;
        subject := this_subject; data := this_data;
        specversion := this_specversion; to := this_to;
        redirectto := this_redirectto; traceparent := this_traceparent;
        tracestate := this_tracestate; elapsedtime := this_elapsedtime;
        executionunits := this_executionunits |}.


(** ** Plain objects and the derived views *)

(** The value of a property of the event: a string, [null], or the
    payload. *)
Inductive Field (TData : Type) :=
| FString (s : jsstring)
| FNull
| FData (d : TData).
Arguments FString {TData} s.
Arguments FNull {TData}.
Arguments FData {TData} d.

Definition nullable {TData} (x : option jsstring) : Field TData :=
  match x with
  | Some s => FString s
  | None => FNull
  end.

(** A plain object: its own enumerable string-keyed properties in creation
    order, each key once.  (JavaScript enumerates keys that are array
    indices before the others; they are not set apart here, and nothing
    below depends on the order of the keys of a payload.) *)
Abbreviation object V := (list (jsstring * V)).

Definition Object_keys {V} (o : object V) : list jsstring := List.map fst o.
Definition Object_entries {V} (o : object V) : list (jsstring * V) := o.

(** [o[k] = v] on an ordinary extensible object: an existing property keeps
    its place, a new one is added last. *)
Fixpoint set_property {V} (o : object V) (k : jsstring) (v : V) : object V :=
  match o with
  | [] => [(k, v)]
  | (k', v') :: o' =>
      if str_eqb k' k then (k', v) :: o'
      else (k', v') :: set_property o' k v
  end.

Fixpoint get_property {V} (o : object V) (k : jsstring) : option V :=
  match o with
  | [] => None
  | (k', v') :: o' => if str_eqb k' k then Some v' else get_property o' k
  end.

(** [Object.assign(target, ...sources)]. *)
Definition Object_assign {V} (target : object V) (sources : list (object V))
  : object V :=
  fold_left
    (fun tgt src => fold_left (fun t kv => set_property t (fst kv) (snd kv)) src tgt)
    sources target.

(** The own properties of an instance, in the order in which the
    constructor assigns them (lines 44-58).  A compiler set to define class
    fields first would create them in the order of their declaration
    (lines 23-36) instead; the theorems on the claims are stated up to the
    order of these keys. *)
Definition own_properties {TData} (this : XOrcaCloudEvent TData)
  : object (Field TData) :=
  [ (js "id", FString (id this));
    (js "time", FString (time this));
    (js "type", FString (type this));
    (js "source", FString (source this));
    (js "datacontenttype", FString (datacontenttype this));
    (js "subject", FString (subject this));
    (js "data", FData (data this));
    (js "specversion", FString (specversion this));
    (js "to", nullable (to this));
    (js "redirectto", nullable (redirectto this));
    (js "traceparent", nullable (traceparent this));
    (js "tracestate", nullable (tracestate this));
    (js "elapsedtime", nullable (elapsedtime this));
    (js "executionunits", nullable (executionunits this)) ].

(** [toJSON() { return { ...this } }]. *)
Definition toJSON {TData} (this : XOrcaCloudEvent TData) : object (Field TData) :=
  own_properties this.

(** [get xorcaExtensions()]. *)
Definition xorcaExtensions {TData} (this : XOrcaCloudEvent TData)
  : object (Field TData) :=
  [ (js "to", nullable (to this));
    (js "redirectto", nullable (redirectto this));
    (js "traceparent", nullable (traceparent this));
    (js "tracestate", nullable (tracestate this));
    (js "executionunits", nullable (executionunits this));
    (js "elapsedtime", nullable (elapsedtime this)) ].

(** [get extensionFields()]. *)
Definition extensionFields {TData} (this : XOrcaCloudEvent TData) : list jsstring :=
  Object_keys (xorcaExtensions this).

(** [get cloudevent()]. *)
Definition cloudevent {TData} (this : XOrcaCloudEvent TData) : object (Field TData) :=
  Object_assign []
    (List.map (fun kv => [(fst kv, snd kv)])
       (List.filter (fun kv => negb (includes (extensionFields this) (fst kv)))
          (Object_entries (toJSON this)))).

(** [x || ''] on a nullable string. *)
Definition or_empty (x : option jsstring) : jsstring := or_default x [].

(** [openTelemetryAttributes()]. *)
Definition openTelemetryAttributes {TData} (this : XOrcaCloudEvent TData)
  : object jsstring :=
  [ (js "cloudevents.event_id", or_empty (Some (id this)));
    (js "cloudevents.event_source", or_empty (Some (source this)));
    (js "cloudevents.event_spec_version", or_empty (Some (specversion this)));
    (js "cloudevents.event_subject", or_empty (Some (subject this)));
    (js "cloudevents.event_type", or_empty (Some (type this)));
    (js "cloudevents.xorca.event_redirectto", or_empty (redirectto this));
    (js "cloudevents.xorca.event_to", or_empty (to this));
    (js "cloudevents.xorca.event_executionunits", or_empty (executionunits this));
    (js "cloudevents.xorca.event_elapsedtime", or_empty (elapsedtime this)) ].

(** The fourteen fields the class declares (lines 23-36). *)
Definition declared_fields : list jsstring :=
  List.map js
    [ "id"; "type"; "source"; "specversion"; "datacontenttype"; "subject";
      "time"; "data"; "redirectto"; "to"; "traceparent"; "tracestate";
      "elapsedtime"; "executionunits" ]%string.

(** ** Values of the payload *)

(** Numbers are IEEE 754 doubles.  [Int z] is the integral Number [z]
    (positive zero when [z] is 0) and [Frac negative m e] the Number
    m / 2^e, negated when [negative], with [m] odd: a Number with a
    fractional part.  [Number.is_double] below tells which of these terms
    stand for a double. *)
Inductive JsNumber :=
| NaN
| Infinity (negative : bool)
| NegZero
| Int (z : Z)
| Frac (negative : bool) (m e : positive).

(** Values that can sit in a payload typed [Record<string, any>]: the
    primitives, arrays and plain objects (own enumerable properties in
    order). *)
#[local] Unset Elimination Schemes.
Inductive JsValue :=
| JsUndefined
| JsNull
| JsBool (b : bool)
| JsNum (n : JsNumber)
| JsStr (s : jsstring)
| JsArray (elements : list JsValue)
| JsObject (properties : list (jsstring * JsValue)).
#[local] Set Elimination Schemes.

(** A payload given as a value: a record. *)
Abbreviation Payload := (object JsValue).

Definition value_of_field (f : Field Payload) : JsValue :=
  match f with
  | FString s => JsStr s
  | FNull => JsNull
  | FData d => JsObject d
  end.

(** ** Version-4 UUIDs *)

Definition is_hex (c : N) : bool :=
  URI.DecimalDigit c || URI.between 97 102 c || URI.between 65 70 c.

Definition is_variant (c : N) : bool := URI.mem c (js "89abAB").

(** Modelled from the spec: what it is for a string to be valid as a
    version-4 UUID (the [uuid] package is not part of the sources):
    8-4-4-4-12 hexadecimal digits, version digit 4, variant digit one of
    8, 9, a, b. *)
Definition is_uuid_v4 (s : jsstring) : bool :=
  match s with
  | [a1; a2; a3; a4; a5; a6; a7; a8; d1; b1; b2; b3; b4; d2; v; c1; c2; c3;
     d3; r; e1; e2; e3; d4; f1; f2; f3; f4; f5; f6; f7; f8; f9; f10; f11; f12] =>
      forallb is_hex
        [a1; a2; a3; a4; a5; a6; a7; a8; b1; b2; b3; b4; c1; c2; c3; e1; e2; e3;
         f1; f2; f3; f4; f5; f6; f7; f8; f9; f10; f11; f12]
      && forallb (N.eqb 45) [d1; d2; d3; d4]
      && (v =? 52) && is_variant r
  | _ => false
  end.

(** ** Sample inputs *)

(** An environment to run examples in: a fixed identifier, and a converter
    that returns a given string as it is and a fixed instant otherwise. *)
Definition sample_env : Env :=
  {| uuidv4 := js "9b1deb4d-3b7d-4bad-9bdf-2b0d7b3dcb6d";
     convertToISOString := fun t =>
       match t with
       | Some (TimeString s) => Ok s
       | _ => Ok (js "2024-05-01T12:00:00.000Z")
       end |}.

(** [{type, source, subject, data}] with every optional property absent. *)
Definition minimal_input {TData} (ty src subj : jsstring) (d : TData)
  : Input.t TData :=
  {| Input.id := None; Input.time := None; Input.type := ty;
     Input.source := src; Input.datacontenttype := None;
     Input.subject := subj; Input.data := d; Input.specversion := None;
     Input.to := Absent; Input.redirectto := Absent;
     Input.traceparent := Absent; Input.tracestate := Absent;
     Input.elapsedtime := Absent; Input.executionunits := Absent |}.

(** [{type:"order.created", source:"svc/orders", subject:"order-42",
    data:{amount:10}}]. *)
Definition order_created : Input.t Payload :=
  minimal_input (js "order.created") (js "svc/orders") (js "order-42")
    [(js "amount", JsNum (Int 10))].

(** The same order with the empty string for [id] and [traceparent]. *)
Definition order_blank : Input.t Payload :=
  {| Input.id := Some []; Input.time := None;
     Input.type := js "order.created";
     Input.source := js "svc/orders"; Input.datacontenttype := None;
     Input.subject := js "order-42";
     Input.data := [(js "amount", JsNum (Int 10))];
     Input.specversion := None;
     Input.to := Absent; Input.redirectto := Absent;
     Input.traceparent := Given []; Input.tracestate := Absent;
     Input.elapsedtime := Absent; Input.executionunits := Absent |}.

(** A fully populated input. *)
Definition order_full : Input.t Payload :=
  {| Input.id := Some (js "evt-1");
     Input.time := Some (TimeString (js "2024-02-03T04:05:06.000Z"));
     Input.type := js "order.created";
     Input.source := js "svc name/topic";
     Input.datacontenttype := Some default_datacontenttype;
     Input.subject := js "order-42";
     Input.data := [(js "amount", JsNum (Int 10))];
     Input.specversion := Some (js "1.0");
     Input.to := Given (js "svc/billing"); Input.redirectto := IsNull;
     Input.traceparent :=
       Given (js "00-0af7651916cd43dd8448eb211c80319c-b7ad6b7169203331-01");
     Input.tracestate := Given (js "vendor=1");
     Input.elapsedtime := Given (js "12"); Input.executionunits := Given (js "3") |}.

(** Orders whose payload holds a value JSON has no text for:
    [{amount: NaN}] and [{amount: 10, note: undefined}]. *)
Definition order_nan : Input.t Payload :=
  minimal_input (js "order.created") (js "svc/orders") (js "order-42")
    [(js "amount", JsNum NaN)].

Definition order_undefined : Input.t Payload :=
  minimal_input (js "order.created") (js "svc/orders") (js "order-42")
    [(js "amount", JsNum (Int 10)); (js "note", JsUndefined)].

(** An order whose payload holds Numbers of every notation:
    [{amount: 10.5, rate: 0.1, total: 1e21, step: 1.5e-7, debit: -2.5,
      parts: [1, 2.25, 123456789012345680000]}]. *)
Definition order_decimal : Input.t Payload :=
  minimal_input (js "order.created") (js "svc/orders") (js "order-42")
    [(js "amount", JsNum (Frac false 21 1));
     (js "rate", JsNum (Frac false 3602879701896397 55));
     (js "total", JsNum (Int 1000000000000000000000));
     (js "step", JsNum (Frac false 2833419889721787 74));
     (js "debit", JsNum (Frac true 5 1));
     (js "parts",
      JsArray [JsNum (Int 1); JsNum (Frac false 9 2);
               JsNum (Int 123456789012345683968)])].

(** Empty strings replaced by absent properties, for the properties the
    constructor defaults. *)
Definition blank_option (x : option jsstring) : option jsstring :=
  match x with
  | Some [] => None
  | _ => x
  end.

Definition blank_nullable (x : Nullable) : Nullable :=
  match x with
  | Given [] => Absent
  | _ => x
  end.

Definition blank_to_absent {TData} (event : Input.t TData) : Input.t TData :=
  {| Input.id := blank_option (Input.id event);
     Input.time := Input.time event;
     Input.type := Input.type event;
     Input.source := Input.source event;
     Input.datacontenttype := blank_option (Input.datacontenttype event);
     Input.subject := Input.subject event;
     Input.data := Input.data event;
     Input.specversion := blank_option (Input.specversion event);
     Input.to := blank_nullable (Input.to event);
     Input.redirectto := blank_nullable (Input.redirectto event);
     Input.traceparent := blank_nullable (Input.traceparent event);
     Input.tracestate := blank_nullable (Input.tracestate event);
     Input.elapsedtime := blank_nullable (Input.elapsedtime event);
     Input.executionunits := blank_nullable (Input.executionunits event) |}.

(** ** Numbers and their decimal text *)

Module Number.

(** The terms that stand for a double: a 53-bit significand times a power
    of two between 2^-1074 and 2^971. *)
Definition is_double (x : JsNumber) : bool :=
  match x with
  | Int z =>
      let p := Z.abs z in
      (p mod 2 ^ Z.max 0 (Z.log2 p - 52) =? 0)%Z && (p <? 2 ^ 1024)%Z
  | Frac _ m e =>
      Z.odd (Zpos m) && (Zpos m <? 2 ^ 53)%Z && (Zpos e <=? 1074)%Z
  | _ => true
  end.

(** The finite Numbers other than the zeros, and among them the doubles:
    the Numbers whose decimal text denotes no other Number. *)
Definition is_zero (x : JsNumber) : bool :=
  match x with
  | Int 0 | NegZero => true
  | _ => false
  end.

Definition regular (x : JsNumber) : bool :=
  match x with
  | Int _ | Frac _ _ _ => is_double x
  | _ => false
  end.

Definition sign (x : JsNumber) : bool :=
  match x with
  | Int z => (z <? 0)%Z
  | Frac negative _ _ => negative
  | Infinity negative => negative
  | NegZero => true
  | NaN => false
  end.

(** The absolute value of a finite Number, as a fraction. *)
Definition magnitude (x : JsNumber) : Q :=
  match x with
  | Int z => Z.abs z # 1
  | Frac _ m e => Zpos m # 2 ^ e
  | _ => 0%Q
  end.

Definition same (x y : JsNumber) : bool :=
  match x, y with
  | NaN, NaN => true
  | Infinity a, Infinity b => Bool.eqb a b
  | NegZero, NegZero => true
  | Int a, Int b => (a =? b)%Z
  | Frac a m e, Frac b m' e' =>
      Bool.eqb a b && (m =? m')%positive && (e =? e')%positive
  | _, _ => false
  end.

(** *** The Number value of a decimal (ECMA-262, 6.1.6.1)

    The decimal s * 10^q denotes the double nearest to it, the one with
    an even significand when two are equally near; a decimal of
    magnitude 2^1024 or more after rounding denotes an infinity. *)

Definition decimal (s : N) (q : Z) : Q :=
  if (0 <=? q)%Z then (Z.of_N s * 10 ^ q) # 1
  else Z.of_N s # 10 ^ Z.to_pos (- q).

Definition zero (negative : bool) : JsNumber :=
  if negative then NegZero else Int 0.

Definition signed (negative : bool) (z : Z) : Z :=
  if negative then (- z)%Z else z.

(** The Number m * 2^u, for m positive. *)
Definition scaled (negative : bool) (m u : Z) : JsNumber :=
  if (0 <=? u)%Z then Int (signed negative (m * 2 ^ u))
  else
    let q := Qred (m # 2 ^ Z.to_pos (- u)) in
    match Qden q with
    | 1%positive => Int (signed negative (Qnum q))
    | d => Frac negative (Z.to_pos (Qnum q)) (Z.to_pos (Z.log2 (Zpos d)))
    end.

(** Rounding of a fraction p/d that is not negative: [e] is the exponent
    of its leading bit, 2^u the distance between the doubles around it
    (2^-1074 at least), [m] the nearest multiple of that distance. *)
Definition round (negative : bool) (x : Q) : JsNumber :=
  let x := Qred x in
  let p := Qnum x in
  let d := Zpos (Qden x) in
  if (p <=? 0)%Z then zero negative
  else
    let a := (Z.log2 p - Z.log2 d)%Z in
    let e :=
      if (d * 2 ^ Z.max 0 a <=? p * 2 ^ Z.max 0 (- a))%Z then a
      else (a - 1)%Z in
    let u := Z.max (e - 52) (-1074) in
    let num := (p * 2 ^ Z.max 0 (- u))%Z in
    let den := (d * 2 ^ Z.max 0 u)%Z in
    let m0 := (num / den)%Z in
    let r := (num mod den)%Z in
    let m :=
      if (den <? 2 * r)%Z || ((den =? 2 * r)%Z && Z.odd m0) then (m0 + 1)%Z
      else m0 in
    if (2 ^ 2098 <=? m * 2 ^ (u + 1074))%Z then Infinity negative
    else if (m =? 0)%Z then zero negative
    else scaled negative m u.

(** *** Number::toString (ECMA-262, 6.1.6.1.20), radix 10 *)

(** Decimal digits of a natural number, most significant first. *)
Fixpoint decimal_digits (fuel : nat) (n : N) : jsstring :=
  match fuel with
  | O => [48 + n mod 10]
  | S fuel' =>
      if n <? 10 then [48 + n]
      else decimal_digits fuel' (n / 10) ++ [48 + n mod 10]
  end.

Definition digits (n : N) : jsstring :=
  decimal_digits (N.to_nat (N.size n)) n.

(** Trailing zeros of the digits go to the exponent. *)
Fixpoint strip_zeros (fuel : nat) (s : N) (q : Z) : N * Z :=
  match fuel with
  | O => (s, q)
  | S fuel' =>
      if (s =? 0) || negb (s mod 10 =? 0) then (s, q)
      else strip_zeros fuel' (s / 10) (q + 1)
  end.

Definition normal (s : N) (q : Z) : N * Z :=
  strip_zeros (N.to_nat (N.size s)) s q.

(** The least k, from [k] on, with d <= p * 10^k. *)
Fixpoint first_scale (fuel : nat) (p d k : Z) : Z :=
  match fuel with
  | O => k
  | S fuel' =>
      if (d <=? p * 10 ^ k)%Z then k else first_scale fuel' p d (k + 1)%Z
  end.

(** The n with 10^(n-1) <= p/d < 10^n. *)
Definition exponent10 (p d : Z) : Z :=
  if (d <=? p)%Z then Z.of_nat (length (digits (Z.to_N (p / d))))
  else (1 - first_scale (Z.to_nat (Z.log2 d)) p d 1)%Z.

(** The decimals of [k] digits next to [x], below and above: the one
    nearer to [x] among those whose Number value is [x], the even one
    when both are equally near; [None] when neither denotes [x]. *)
Definition candidate (x : JsNumber) (n0 k : Z) : option (N * Z) :=
  let p := Qnum (magnitude x) in
  let d := Zpos (Qden (magnitude x)) in
  let t := (k - n0)%Z in
  let num := (p * 10 ^ Z.max 0 t)%Z in
  let den := (d * 10 ^ Z.max 0 (- t))%Z in
  let lo := Z.to_N (num / den) in
  let r := (num mod den)%Z in
  let hi := lo + 1 in
  let valid c := same (round (sign x) (decimal c (- t))) x in
  if valid lo &&
     (negb (valid hi) || (2 * r <? den)%Z || ((2 * r =? den)%Z && N.even lo))
  then Some (lo, (- t)%Z)
  else if valid hi then Some (hi, (- t)%Z)
  else None.

(** The first number of digits, from [k] on, for which there is such a
    decimal. *)
Fixpoint search (fuel : nat) (x : JsNumber) (n0 k : Z) : option (N * Z) :=
  match fuel with
  | O => None
  | S fuel' =>
      match candidate x n0 k with
      | Some c => Some c
      | None => search fuel' x n0 (k + 1)%Z
      end
  end.

(** The decimal expansion of a finite Number, which is finite too. *)
Definition exact (x : JsNumber) : N * Z :=
  match x with
  | Frac _ m e => (Npos m * 5 ^ Npos e, (- Zpos e)%Z)
  | Int z => (Z.abs_N z, 0%Z)
  | _ => (0, 0%Z)
  end.

(** The digits [s] and the exponent [q] of the shortest decimal s * 10^q
    whose Number value is [x] (step 5 of Number::toString).  Seventeen
    digits tell any two doubles apart, so the search ends by then; the
    exact expansion stands behind it. *)
Definition shortest (x : JsNumber) : N * Z :=
  let p := Qnum (magnitude x) in
  let d := Zpos (Qden (magnitude x)) in
  let c :=
    match search 17 x (exponent10 p d) 1 with
    | Some c => c
    | None => exact x
    end in
  normal (fst c) (snd c).

(** Steps 6 to 11: with [k] digits and n = k + q, plain notation when
    0 < n <= 21 or -6 < n <= 0, exponent notation otherwise. *)
Definition format (s : N) (q : Z) : jsstring :=
  let ds := digits s in
  let k := Z.of_nat (length ds) in
  let n := (k + q)%Z in
  if (0 <? n)%Z && (n <=? 21)%Z then
    if (k <=? n)%Z then ds ++ repeat 48 (Z.to_nat (n - k))
    else take (Z.to_nat n) ds ++ 46 :: drop (Z.to_nat n) ds
  else if (-6 <? n)%Z && (n <=? 0)%Z then
    48 :: 46 :: repeat 48 (Z.to_nat (- n)) ++ ds
  else
    let e := (n - 1)%Z in
    let exponent :=
      101 :: (if (e <? 0)%Z then 45 else 43) :: digits (Z.abs_N e) in
    match ds with
    | [] => []
    | [d] => d :: exponent
    | d :: rest => d :: 46 :: rest ++ exponent
    end.

Definition toString (x : JsNumber) : jsstring :=
  match x with
  | NaN => js "NaN"
  | Infinity negative => if negative then js "-Infinity" else js "Infinity"
  | NegZero | Int 0 => js "0"
  | _ =>
      let c := shortest x in
      (if sign x then [45] else []) ++ format (fst c) (snd c)
  end.

End Number.

(** ** JSON text *)

Module JSON.

(** *** [JSON.stringify] (ECMA-262, 25.5.2) *)

(** Lower-case hexadecimal digit. *)
Definition hex_lower (d : N) : N := if d <? 10 then 48 + d else 87 + d.

(** UnicodeEscape: a backslash, "u" and four lower-case hexadecimal digits. *)
Definition UnicodeEscape (c : N) : jsstring :=
  [92; 117; hex_lower (c / 4096); hex_lower ((c / 256) mod 16);
   hex_lower ((c / 16) mod 16); hex_lower (c mod 16)].

(** The table of single-character escapes: the letter that follows the
    backslash for backspace, tab, line feed, form feed, carriage return,
    the double quote and the backslash. *)
Definition single_escape (c : N) : option N :=
  if c =? 8 then Some 98
  else if c =? 9 then Some 116
  else if c =? 10 then Some 110
  else if c =? 12 then Some 102
  else if c =? 13 then Some 114
  else if c =? 34 then Some 34
  else if c =? 92 then Some 92
  else None.

(** The body of QuoteJSONString, on code units: a surrogate pair is one
    code point and is copied; a lone surrogate is escaped. *)
Fixpoint quote_units (s : jsstring) : jsstring :=
  match s with
  | [] => []
  | c :: rest =>
      match single_escape c with
      | Some e => 92 :: e :: quote_units rest
      | None =>
          if c <? 32 then UnicodeEscape c ++ quote_units rest
          else if URI.is_leading_surrogate c then
            match rest with
            | d :: rest' =>
                if URI.is_trailing_surrogate d then c :: d :: quote_units rest'
                else UnicodeEscape c ++ quote_units rest
            | [] => UnicodeEscape c
            end
          else if URI.is_trailing_surrogate c then
            UnicodeEscape c ++ quote_units rest
          else c :: quote_units rest
      end
  end.

Definition QuoteJSONString (s : jsstring) : jsstring :=
  34 :: quote_units s ++ [34].

(** The texts of a list, separated by commas. *)
Fixpoint join (l : list jsstring) : jsstring :=
  match l with
  | [] => []
  | [x] => x
  | x :: l' => x ++ 44 :: join l'
  end.

(** SerializeJSONProperty without replacer and gap; [None] is [undefined].
    A property whose value serialises to [undefined] is left out of its
    object; such an element of an array is written as null; a finite
    Number is written by Number::toString, another one as null. *)
Fixpoint SerializeJSONProperty (v : JsValue) : option jsstring :=
  match v with
  | JsUndefined => None
  | JsNull => Some (js "null")
  | JsBool b => Some (if b then js "true" else js "false")
  | JsNum n =>
      Some match n with
           | NaN | Infinity _ => js "null"
           | _ => Number.toString n
           end
  | JsStr s => Some (QuoteJSONString s)
  | JsArray elements =>
      Some (91 :: join (List.map (fun x =>
                          match SerializeJSONProperty x with
                          | Some t => t
                          | None => js "null"
                          end) elements) ++ [93])
  | JsObject properties =>
      Some (123 :: join ((fix members (l : list (jsstring * JsValue)) :=
                            match l with
                            | [] => []
                            | (k, x) :: l' =>
                                match SerializeJSONProperty x with
                                | Some t =>
                                    (QuoteJSONString k ++ 58 :: t) :: members l'
                                | None => members l'
                                end
                            end) properties) ++ [125])
  end.

(** [JSON.stringify(value)] with one argument. *)
Definition stringify (v : JsValue) : option jsstring := SerializeJSONProperty v.

(** *** [JSON.parse] (ECMA-262, 25.5.1), without reviver *)

(** JSONWhiteSpace: tab, line feed, carriage return, space. *)
Definition is_ws (c : N) : bool :=
  (c =? 9) || (c =? 10) || (c =? 13) || (c =? 32).

Fixpoint skip_ws (s : jsstring) : jsstring :=
  match s with
  | c :: r => if is_ws c then skip_ws r else s
  | [] => []
  end.

(** The value of a hexadecimal digit of either case. *)
Definition hex_value (c : N) : option N :=
  if URI.DecimalDigit c then Some (c - 48)
  else if URI.between 97 102 c then Some (c - 87)
  else if URI.between 65 70 c then Some (c - 55)
  else None.

Definition hex4 (a b c d : N) : option N :=
  match hex_value a, hex_value b, hex_value c, hex_value d with
  | Some x, Some y, Some z, Some w => Some (x * 4096 + y * 256 + z * 16 + w)
  | _, _, _, _ => None
  end.

(** The character an escape letter stands for. *)
Definition unescape (e : N) : option N :=
  if e =? 34 then Some 34
  else if e =? 92 then Some 92
  else if e =? 47 then Some 47
  else if e =? 98 then Some 8
  else if e =? 102 then Some 12
  else if e =? 110 then Some 10
  else if e =? 114 then Some 13
  else if e =? 116 then Some 9
  else None.

(** JSONString after its opening quote: the string value and the text
    after the closing quote. *)
Fixpoint parse_chars (s : jsstring) : Exc (jsstring * jsstring) :=
  match s with
  | [] => Throw SyntaxError
  | c :: r =>
      if c =? 34 then Ok ([], r)
      else if c =? 92 then
        match r with
        | [] => Throw SyntaxError
        | e :: r' =>
            if e =? 117 then
              match r' with
              | h1 :: h2 :: h3 :: h4 :: r'' =>
                  match hex4 h1 h2 h3 h4 with
                  | Some u =>
                      let* p := parse_chars r'' in Ok (u :: fst p, snd p)
                  | None => Throw SyntaxError
                  end
              | _ => Throw SyntaxError
              end
            else
              match unescape e with
              | Some u => let* p := parse_chars r' in Ok (u :: fst p, snd p)
              | None => Throw SyntaxError
              end
        end
      else if c <? 32 then Throw SyntaxError
      else let* p := parse_chars r in Ok (c :: fst p, snd p)
  end.

(** The longest prefix of decimal digits, and what follows it. *)
Fixpoint scan_digits (s : jsstring) : jsstring * jsstring :=
  match s with
  | c :: r =>
      if URI.DecimalDigit c then
        let p := scan_digits r in (c :: fst p, snd p)
      else ([], s)
  | [] => ([], [])
  end.

Definition digits_value (ds : jsstring) : N :=
  fold_left (fun acc d => acc * 10 + (d - 48)) ds 0.

(** JSONFraction, if any: "." and at least one digit.  [None] when it is
    malformed; otherwise its digits (none when there is no fraction) and
    the text after it. *)
Definition scan_fraction (s : jsstring) : option (jsstring * jsstring) :=
  match s with
  | c :: r =>
      if c =? 46 then
        let p := scan_digits r in
        match fst p with
        | [] => None
        | _ :: _ => Some p
        end
      else Some ([], s)
  | [] => Some ([], [])
  end.

(** ExponentPart, if any: "e" or "E", an optional sign and at least one
    digit.  [None] when it is malformed; otherwise the exponent (0 when
    there is none) and the text after it. *)
Definition scan_exponent (s : jsstring) : option (Z * jsstring) :=
  match s with
  | c :: r =>
      if (c =? 101) || (c =? 69) then
        let negative :=
          match r with sign :: _ => sign =? 45 | [] => false end in
        let signed :=
          match r with
          | sign :: _ => (sign =? 45) || (sign =? 43)
          | [] => false
          end in
        let p := scan_digits (if signed then tail r else r) in
        match fst p with
        | [] => None
        | _ :: _ =>
            Some (Number.signed negative (Z.of_N (digits_value (fst p))),
                  snd p)
        end
      else Some (0%Z, s)
  | [] => Some (0%Z, [])
  end.

(** JSONNumber.  The integer part may not have a leading zero.  The value
    is the Number value of the decimal written: the digits of the integer
    part and of the fraction, with the exponent less the number of digits
    of the fraction. *)
Definition parse_number (s : jsstring) : Exc (JsValue * jsstring) :=
  let negative := match s with c :: _ => c =? 45 | [] => false end in
  let p := scan_digits (if negative then tail s else s) in
  match fst p with
  | [] => Throw SyntaxError
  | d :: ds =>
      if (d =? 48) && negb (match ds with [] => true | _ => false end)
      then Throw SyntaxError
      else
        match scan_fraction (snd p) with
        | None => Throw SyntaxError
        | Some (fraction, r1) =>
            match scan_exponent r1 with
            | None => Throw SyntaxError
            | Some (exponent, r2) =>
                Ok (JsNum
                      (Number.round negative
                         (Number.decimal
                            (digits_value (fst p ++ fraction))
                            (exponent - Z.of_nat (length fraction)))), r2)
            end
        end
  end.

(** A literal name. *)
Fixpoint expect (name s : jsstring) : option jsstring :=
  match name, s with
  | [], _ => Some s
  | x :: name', c :: r => if x =? c then expect name' r else None
  | _ :: _, [] => None
  end.

(** JSONValue, the elements of an array after "[" and the members of an
    object after "{".  A member already present is overwritten in place
    (CreateDataProperty).  The recursion is bounded by [fuel]; running out
    of it is the engine's [RangeError] for too deep a recursion. *)
Fixpoint parse_value (fuel : nat) (s : jsstring) : Exc (JsValue * jsstring) :=
  match fuel with
  | O => Throw RangeError
  | S fuel' =>
      match skip_ws s with
      | [] => Throw SyntaxError
      | c :: r =>
          if c =? 34 then
            let* p := parse_chars r in Ok (JsStr (fst p), snd p)
          else if c =? 91 then
            match skip_ws r with
            | [] => Throw SyntaxError
            | d :: r' =>
                if d =? 93 then Ok (JsArray [], r')
                else let* p := parse_elements fuel' r in
                     Ok (JsArray (fst p), snd p)
            end
          else if c =? 123 then
            match skip_ws r with
            | [] => Throw SyntaxError
            | d :: r' =>
                if d =? 125 then Ok (JsObject [], r')
                else let* p := parse_members fuel' r [] in
                     Ok (JsObject (fst p), snd p)
            end
          else if c =? 110 then
            match expect (js "ull") r with
            | Some r' => Ok (JsNull, r')
            | None => Throw SyntaxError
            end
          else if c =? 116 then
            match expect (js "rue") r with
            | Some r' => Ok (JsBool true, r')
            | None => Throw SyntaxError
            end
          else if c =? 102 then
            match expect (js "alse") r with
            | Some r' => Ok (JsBool false, r')
            | None => Throw SyntaxError
            end
          else parse_number (c :: r)
      end
  end
with parse_elements (fuel : nat) (s : jsstring)
  : Exc (list JsValue * jsstring) :=
  match fuel with
  | O => Throw RangeError
  | S fuel' =>
      let* p := parse_value fuel' s in
      match skip_ws (snd p) with
      | [] => Throw SyntaxError
      | c :: r =>
          if c =? 44 then
            let* q := parse_elements fuel' r in Ok (fst p :: fst q, snd q)
          else if c =? 93 then Ok ([fst p], r)
          else Throw SyntaxError
      end
  end
with parse_members (fuel : nat) (s : jsstring) (acc : object JsValue)
  : Exc (object JsValue * jsstring) :=
  match fuel with
  | O => Throw RangeError
  | S fuel' =>
      match skip_ws s with
      | [] => Throw SyntaxError
      | c :: r =>
          if c =? 34 then
            let* k := parse_chars r in
            match skip_ws (snd k) with
            | [] => Throw SyntaxError
            | d :: r1 =>
                if d =? 58 then
                  let* v := parse_value fuel' r1 in
                  let acc' := set_property acc (fst k) (fst v) in
                  match skip_ws (snd v) with
                  | [] => Throw SyntaxError
                  | e :: r2 =>
                      if e =? 44 then parse_members fuel' r2 acc'
                      else if e =? 125 then Ok (acc', r2)
                      else Throw SyntaxError
                  end
                else Throw SyntaxError
            end
          else Throw SyntaxError
      end
  end.

(** [JSON.parse(text)]: one value, then only white space.  The fuel given
    is never used up ([parse_value_fuel] below). *)
Definition parse (text : jsstring) : Exc JsValue :=
  let* p := parse_value (2 * length text + 1) text in
  match skip_ws (snd p) with
  | [] => Ok (fst p)
  | _ :: _ => Throw SyntaxError
  end.

(** *** Deep equality and the values JSON represents *)

(** Structural equality of two values: the same primitive, arrays of the
    same length with deep-equal elements, objects with the same keys (in
    any order) and deep-equal values.  [NaN] equals itself. *)
Fixpoint deep_equal (a b : JsValue) : bool :=
  match a, b with
  | JsUndefined, JsUndefined => true
  | JsNull, JsNull => true
  | JsBool x, JsBool y => Bool.eqb x y
  | JsNum x, JsNum y => Number.same x y
  | JsStr x, JsStr y => str_eqb x y
  | JsArray xs, JsArray ys =>
      (fix all2 (xs ys : list JsValue) : bool :=
         match xs, ys with
         | [], [] => true
         | x :: xs', y :: ys' => deep_equal x y && all2 xs' ys'
         | _, _ => false
         end) xs ys
  | JsObject xs, JsObject ys =>
      (length xs =? length ys)%nat &&
      (fix all (xs : list (jsstring * JsValue)) : bool :=
         match xs with
         | [] => true
         | (k, x) :: xs' =>
             match get_property ys k with
             | Some y => deep_equal x y
             | None => false
             end && all xs'
         end) xs
  | _, _ => false
  end.

(** No key twice. *)
Fixpoint distinct (l : list jsstring) : bool :=
  match l with
  | [] => true
  | k :: l' => negb (includes l' k) && distinct l'
  end.

(** The values that JSON text represents exactly: null, booleans, strings,
    finite Numbers other than negative zero, and arrays and records (each
    key once) of such values. *)
Fixpoint representable (v : JsValue) : bool :=
  match v with
  | JsUndefined => false
  | JsNull | JsBool _ | JsStr _ => true
  | JsNum n => Number.regular n
  | JsArray elements => forallb representable elements
  | JsObject properties =>
      distinct (List.map fst properties) &&
      forallb (fun kv => representable (snd kv)) properties
  end.

(** The recursion depth [parse_value] needs to read a value back. *)
Fixpoint weight (v : JsValue) : nat :=
  match v with
  | JsArray elements =>
      S (fold_right (fun x n => S (weight x + n)) O elements)
  | JsObject properties =>
      S (fold_right (fun kv n => S (weight (snd kv) + n)) O properties)
  | _ => 1
  end.

(** What follows a value inside a document. *)
Definition delimited (rest : jsstring) : Prop :=
  match rest with
  | [] => True
  | c :: _ => c = 44 \/ c = 93 \/ c = 125
  end.

(** The texts of the elements of an array and of the members of an
    object, as [SerializeJSONProperty] joins them. *)
Definition element_text (x : JsValue) : jsstring :=
  match SerializeJSONProperty x with
  | Some t => t
  | None => js "null"
  end.

Fixpoint member_texts (l : list (jsstring * JsValue)) : list jsstring :=
  match l with
  | [] => []
  | (k, x) :: l' =>
      match SerializeJSONProperty x with
      | Some t => (QuoteJSONString k ++ 58 :: t) :: member_texts l'
      | None => member_texts l'
      end
  end.

(** *** Devices of the round-trip proof *)

(** A text that does not go on with a digit. *)
Definition no_digit (r : jsstring) : Prop :=
  match r with
  | c :: _ => URI.DecimalDigit c = false
  | [] => True
  end.

(** The first character of a value's text opens the value. *)
Definition opens_value (c : N) : Prop :=
  c = 34 \/ c = 91 \/ c = 123 \/ c = 110 \/ c = 116 \/ c = 102 \/ c = 45 \/
  48 <= c <= 57.

(** A representable value is written to a text that begins a value, is at
    least as long as the depth it needs, and is read back before any
    delimiter. *)
Definition reads_back (v : JsValue) : Prop :=
  representable v = true ->
  exists t, SerializeJSONProperty v = Some t /\
    (weight v <= length t)%nat /\
    (exists c t', t = c :: t' /\ opens_value c) /\
    forall fuel rest, (weight v <= fuel)%nat -> delimited rest ->
      parse_value fuel (t ++ rest) = Ok (v, rest).

Definition elements_weight (l : list JsValue) : nat :=
  fold_right (fun x n => S (weight x + n)) O l.

Definition members_weight (l : list (jsstring * JsValue)) : nat :=
  fold_right (fun kv n => S (weight (snd kv) + n)) O l.

End JSON.

(** [toJSON()] as a value, the payload being a record of values. *)
Definition toJSON_value (this : XOrcaCloudEvent Payload) : JsValue :=
  JsObject (List.map (fun kv => (fst kv, value_of_field (snd kv))) (toJSON this)).

(** [toString() { return JSON.stringify(this.toJSON()) }]; [None] is
    [undefined]. *)
Definition toString (this : XOrcaCloudEvent Payload) : option jsstring :=
  JSON.stringify (toJSON_value this).

(** ** The event object in the heap: assignment and [Object.freeze]

    This first heap is for the object the constructor creates: its
    fourteen properties are own data properties, writable until the
    object is frozen.  What a caller may pass as payload is richer; it is
    the matter of [Objects] below. *)

Module Heap.

(** A reference to an object is its index in the heap. *)
Abbreviation loc := nat.

Inductive Value :=
| VUndefined
| VNull
| VBool (b : bool)
| VNum (n : JsNumber)
| VStr (s : jsstring)
| VRef (l : loc).

(** An object with own data properties only.  [Object.freeze] is the only
    operation of the constructor that restricts the object it creates, so
    one flag stands for "not extensible, every property neither writable
    nor configurable". *)
Record Obj := {
  props : object Value;
  frozen : bool;
}.

Abbreviation heap := (list Obj).

(** [o.k] *)
Definition Get (h : heap) (l : loc) (k : jsstring) : Value :=
  match h !! l with
  | Some o => default VUndefined (get_property (props o) k)
  | None => VUndefined
  end.

(** OrdinarySet: the new heap and whether the property was set.  A frozen
    object refuses both the update of a property and a new property. *)
Definition OrdinarySet (h : heap) (l : loc) (k : jsstring) (v : Value)
  : heap * bool :=
  match h !! l with
  | Some o =>
      if frozen o then (h, false)
      else (<[l := {| props := set_property (props o) k v; frozen := false |}]> h,
            true)
  | None => (h, false)
  end.

(** The statement [o.k = v].  A refused assignment throws [TypeError] in
    strict code and is ignored in sloppy code; the heap it leaves is
    returned in both cases. *)
Definition assign (strict : bool) (l : loc) (k : jsstring) (v : Value)
  (h : heap) : heap * Exc unit :=
  let (h', succeeded) := OrdinarySet h l k v in
  (h', if succeeded || negb strict then Ok () else Throw TypeError).

(** [Object.freeze(o)] *)
Definition Object_freeze (l : loc) (h : heap) : heap :=
  match h !! l with
  | Some o => <[l := {| props := props o; frozen := true |}]> h
  | None => h
  end.

Definition value_of (f : Field loc) : Value :=
  match f with
  | FString s => VStr s
  | FNull => VNull
  | FData l => VRef l
  end.

(** [new XOrcaCloudEvent(event)] with the payload given by reference: a
    fresh object receives the fourteen properties by assignment, in the
    order of the statements (class bodies are strict code), and is frozen
    (line 59).  When a conversion throws, no object is returned. *)
Definition new_XOrcaCloudEvent (env : Env) (event : Input.t loc) (h : heap)
  : Exc (loc * heap) :=
  let* fields := constructor env event in
  let this := length h in
  let h0 := h ++ [{| props := []; frozen := false |}] in
  let h1 :=
    fold_left
      (fun h kv => fst (assign true this (fst kv) (value_of (snd kv)) h))
      (own_properties fields) h0 in
  Ok (this, Object_freeze this h1).

(** The object a successful construction leaves in the heap. *)
Definition event_object (fields : XOrcaCloudEvent loc) : Obj :=
  {| props :=
       List.map (fun kv => (fst kv, value_of (snd kv))) (own_properties fields);
     frozen := true |}.

(** A heap holding one object, [{amount: 10}], for the event to refer
    to. *)
Definition payload_heap (is_frozen : bool) : heap :=
  [ {| props := [(js "amount", VNum (Int 10))]; frozen := is_frozen |} ].

(** The order of the end-to-end example, with the payload at reference 0. *)
Definition order_by_reference : Input.t loc :=
  minimal_input (js "order.created") (js "svc/orders") (js "order-42") 0%nat.

End Heap.

(** ** Ordinary objects: attributes, accessors and prototypes

    The payload is whatever object the caller passes: its properties may
    be read-only or accessors, it may be sealed or frozen, and it inherits
    from its prototype.  Ordinary objects are modelled here with what
    assignment depends on (ECMA-262, 6.1.7.1 and 10.1): the [[Writable]]
    attribute of a data property, the presence of the getter and of the
    setter of an accessor property, [[Extensible]] and [[Prototype]].
    [[Enumerable]] and [[Configurable]] are left out: no operation below
    reads them.  Exotic objects (proxies, arrays with their [length]) are
    not represented. *)

Module Objects.

Abbreviation loc := nat.
Abbreviation Value := Heap.Value.

Inductive Property :=
| Data (value : Value) (writable : bool)
| Accessor (getter setter : bool).

Record Obj := {
  props : object Property;
  extensible : bool;
  prototype : option loc;
}.

Abbreviation heap := (list Obj).

(** The property [k] of the object or, failing that, of the nearest
    object of its prototype chain that has one.  A prototype chain has no
    cycle, so it is no longer than the heap, which bounds the walk. *)
Fixpoint find_property (fuel : nat) (h : heap) (l : loc) (k : jsstring)
  : option Property :=
  match fuel with
  | O => None
  | S fuel' =>
      match h !! l with
      | Some o =>
          match get_property (props o) k with
          | Some p => Some p
          | None =>
              match prototype o with
              | Some parent => find_property fuel' h parent k
              | None => None
              end
          end
      | None => None
      end
  end.

Definition lookup (h : heap) (l : loc) (k : jsstring) : option Property :=
  find_property (length h) h l k.

(** [o.k] (OrdinaryGet).  A getter is a function of the program that
    defined it: calling it is [NotModelled]. *)
Definition Get (h : heap) (l : loc) (k : jsstring) : Exc Value :=
  match lookup h l k with
  | Some (Data v _) => Ok v
  | Some (Accessor true _) => Throw NotModelled
  | Some (Accessor false _) | None => Ok Heap.VUndefined
  end.

(** The object with [v] stored in its own data property [k]: an existing
    property keeps its place and its attributes, a new one is added last,
    writable. *)
Definition write (o : Obj) (k : jsstring) (v : Value) : Obj :=
  {| props := set_property (props o) k (Data v true);
     extensible := extensible o;
     prototype := prototype o |}.

(** OrdinarySet with the object itself as receiver: the new heap and
    whether the value was set.  The nearest property [k] of the chain
    decides: an accessor hands the value to its setter ([NotModelled]) or,
    having none, refuses; a read-only data property refuses; otherwise the
    value is stored in the object's own property, which is created when
    the object has none and is extensible. *)
Definition OrdinarySet (h : heap) (l : loc) (k : jsstring) (v : Value)
  : Exc (heap * bool) :=
  match h !! l with
  | Some o =>
      match lookup h l k with
      | Some (Accessor _ true) => Throw NotModelled
      | Some (Accessor _ false) | Some (Data _ false) => Ok (h, false)
      | Some (Data _ true) | None =>
          match get_property (props o) k with
          | Some (Data _ true) => Ok (<[l := write o k v]> h, true)
          | Some _ => Ok (h, false)
          | None =>
              if extensible o then Ok (<[l := write o k v]> h, true)
              else Ok (h, false)
          end
      end
  | None => Ok (h, false)
  end.

(** The statement [o.k = v].  A refused assignment throws [TypeError] in
    strict code and is ignored in sloppy code; the heap it leaves is
    returned in both cases. *)
Definition assign (strict : bool) (l : loc) (k : jsstring) (v : Value)
  (h : heap) : heap * Exc unit :=
  match OrdinarySet h l k v with
  | Ok (h', succeeded) =>
      (h', if succeeded || negb strict then Ok () else Throw TypeError)
  | Throw e => (h, Throw e)
  end.

(** [Object.freeze(o)]: the object is no longer extensible and its data
    properties are read-only. *)
Definition freeze_property (p : Property) : Property :=
  match p with
  | Data v _ => Data v false
  | Accessor g s => Accessor g s
  end.

Definition Object_freeze (l : loc) (h : heap) : heap :=
  match h !! l with
  | Some o =>
      <[l := {| props :=
                  List.map (fun kv => (fst kv, freeze_property (snd kv)))
                    (props o);
                extensible := false;
                prototype := prototype o |}]> h
  | None => h
  end.

(** [this.k = v] in the constructor, which is strict code: a refused
    assignment throws. *)
Definition put (this : loc) (k : jsstring) (v : Value) (h : heap) : Exc heap :=
  match assign true this k v h with
  | (h', Ok _) => Ok h'
  | (_, Throw e) => Throw e
  end.

Definition null_or_string (x : option jsstring) : Value :=
  Heap.value_of (nullable x).

(** [new XOrcaCloudEvent(event)], statement by statement (lines 43-60):
    a new extensible object whose prototype is [XOrcaCloudEvent.prototype]
    receives the fourteen properties in source order and is frozen.  The
    payload is stored as the reference the caller passed (line 51). *)
Definition new_XOrcaCloudEvent (env : Env) (class_prototype : loc)
  (event : Input.t loc) (h : heap) : Exc (loc * heap) :=
  let this := length h in
  let h :=
    h ++ [{| props := []; extensible := true;
             prototype := Some class_prototype |}] in
  let* h := put this (js "id")
              (Heap.VStr (or_default (Input.id event) (uuidv4 env))) h in
  let* this_time := convertToISOString env (Input.time event) in
  let* h := put this (js "time") (Heap.VStr this_time) h in
  let* h := put this (js "type") (Heap.VStr (Input.type event)) h in
  let* this_source := encodeURI (Input.source event) in
  let* h := put this (js "source") (Heap.VStr this_source) h in
  let* h := put this (js "datacontenttype")
              (Heap.VStr (or_default (Input.datacontenttype event)
                            default_datacontenttype)) h in
  let* h := put this (js "subject") (Heap.VStr (Input.subject event)) h in
  let* h := put this (js "data") (Heap.VRef (Input.data event)) h in
  let* h := put this (js "specversion")
              (Heap.VStr (or_default (Input.specversion event) (js "1.0"))) h in
  let* this_to := encode_or_null (Input.to event) in
  let* h := put this (js "to") (null_or_string this_to) h in
  let* this_redirectto := encode_or_null (Input.redirectto event) in
  let* h := put this (js "redirectto") (null_or_string this_redirectto) h in
  let* h := put this (js "traceparent")
              (null_or_string (or_null (Input.traceparent event))) h in
  let* h := put this (js "tracestate")
              (null_or_string (or_null (Input.tracestate event))) h in
  let* h := put this (js "elapsedtime")
              (null_or_string (or_null (Input.elapsedtime event))) h in
  let* h := put this (js "executionunits")
              (null_or_string (or_null (Input.executionunits event))) h in
  Ok (this, Object_freeze this h).

(** The object a successful construction leaves in the heap. *)
Definition event_object (class_prototype : loc) (fields : XOrcaCloudEvent loc)
  : Obj :=
  {| props :=
       List.map (fun kv => (fst kv, Data (Heap.value_of (snd kv)) false))
         (own_properties fields);
     extensible := false;
     prototype := Some class_prototype |}.

(** The assignment [o.k = v] is a plain write: [k] is an own writable
    data property of [o], or [o] is extensible, has no property [k] of
    its own, and its prototype chain holds no property [k] other than a
    writable data property (no accessor, nothing read-only). *)
Definition plain_write (h : heap) (l : loc) (k : jsstring) : bool :=
  match h !! l with
  | Some o =>
      match get_property (props o) k with
      | Some (Data _ w) => w
      | Some (Accessor _ _) => false
      | None =>
          extensible o &&
          match lookup h l k with
          | None | Some (Data _ true) => true
          | _ => false
          end
      end
  | None => false
  end.

(** A heap to run examples in: at 0 [Object.prototype], of which only the
    accessor [__proto__] is written out, at 1 [XOrcaCloudEvent.prototype]
    with its three getters, at 2 a payload with the one property
    [amount]. *)
Definition builtin_prototypes : heap :=
  [ {| props := [(js "__proto__", Accessor true true)];
       extensible := true; prototype := None |};
    {| props := [(js "xorcaExtensions", Accessor true false);
                 (js "extensionFields", Accessor true false);
                 (js "cloudevent", Accessor true false)];
       extensible := true; prototype := Some 0%nat |} ].

Definition payload_object (amount : Property) (is_extensible : bool) : Obj :=
  {| props := [(js "amount", amount)]; extensible := is_extensible;
     prototype := Some 0%nat |}.

Definition payload_heap (amount : Property) (is_extensible : bool) : heap :=
  builtin_prototypes ++ [payload_object amount is_extensible].

(** The order of the end-to-end example, with the payload at [l]. *)
Definition order_at (l : loc) : Input.t loc :=
  minimal_input (js "order.created") (js "svc/orders") (js "order-42") l.

(** A second environment, whose generator returns another identifier. *)
Definition second_env : Env :=
  {| uuidv4 := js "1b9d6bcd-bbfd-4b2d-9b5d-ab8dfbbd4bed";
     convertToISOString := convertToISOString sample_env |}.

End Objects.

(** ** Further operations and predicates *)

(** [String.prototype.isWellFormed]: no lone surrogate. *)
Fixpoint isWellFormed (s : jsstring) : bool :=
  match s with
  | [] => true
  | c :: rest =>
      if URI.is_trailing_surrogate c then false
      else if URI.is_leading_surrogate c then
        match rest with
        | d :: rest' => URI.is_trailing_surrogate d && isWellFormed rest'
        | [] => false
        end
      else isWellFormed rest
  end.

(** The characters [encodeURI] writes: those it leaves alone, and "%". *)
Definition uri_char (c : N) : bool := URI.unescapedSet c || (c =? 37).

(** The operand of a truthiness test, when it is truthy. *)
Definition well_formed_if_truthy (x : Nullable) : bool :=
  match truthy x with
  | Some s => isWellFormed s
  | None => true
  end.

(** The strings of an input that [encodeURI] reads hold 16-bit code units. *)
Definition wf_nullable (x : Nullable) : Prop :=
  match x with
  | Given s => wf_string s
  | Absent | IsNull => True
  end.

Definition wf_input {TData} (event : Input.t TData) : Prop :=
  wf_string (Input.source event) /\ wf_nullable (Input.to event) /\
  wf_nullable (Input.redirectto event).

(** A nullable field as a property of a candidate record. *)
Definition of_nullable (x : option jsstring) : Nullable :=
  match x with
  | Some s => Given s
  | None => IsNull
  end.

(** [toJSON()] read at its declared return type,
    [zod.infer<typeof XOrcaCloudEventSchema>] (line 68): the snapshot of an
    event as an argument of the constructor. *)
Definition snapshot_input {TData} (this : XOrcaCloudEvent TData)
  : Input.t TData :=
  {| Input.id := Some (id this);
     Input.time := Some (TimeString (time this));
     Input.type := type this;
     Input.source := source this;
     Input.datacontenttype := Some (datacontenttype this);
     Input.subject := subject this;
     Input.data := data this;
     Input.specversion := Some (specversion this);
     Input.to := of_nullable (to this);
     Input.redirectto := of_nullable (redirectto this);
     Input.traceparent := of_nullable (traceparent this);
     Input.tracestate := of_nullable (tracestate this);
     Input.elapsedtime := of_nullable (elapsedtime this);
     Input.executionunits := of_nullable (executionunits this) |}.

(** An environment whose time helper refuses every input. *)
Definition failing_env : Env :=
  {| uuidv4 := js "9b1deb4d-3b7d-4bad-9bdf-2b0d7b3dcb6d";
     convertToISOString := fun _ => Throw RangeError |}.

(** An order whose source ends in a lone surrogate. *)
Definition order_lone_surrogate : Input.t Payload :=
  minimal_input (js "order.created") [115; 118; 99; 55357] (js "order-42")
    [(js "amount", JsNum (Int 10))].

(** What JSON text keeps of a value: a Number that is not finite becomes
    null, negative zero becomes zero, an undefined element of an array
    becomes null, and a property whose value is undefined is left out. *)
Fixpoint json_image (v : JsValue) : JsValue :=
  match v with
  | JsNum NaN | JsNum (Infinity _) => JsNull
  | JsNum NegZero => JsNum (Int 0)
  | JsArray elements =>
      JsArray (List.map (fun x =>
                           match x with
                           | JsUndefined => JsNull
                           | _ => json_image x
                           end) elements)
  | JsObject properties =>
      JsObject ((fix members (l : list (jsstring * JsValue)) :=
                   match l with
                   | [] => []
                   | (k, x) :: l' =>
                       match x with
                       | JsUndefined => members l'
                       | _ => (k, json_image x) :: members l'
                       end
                   end) properties)
  | _ => v
  end.

Definition image_element (x : JsValue) : JsValue :=
  match x with
  | JsUndefined => JsNull
  | _ => json_image x
  end.

Fixpoint image_members (l : list (jsstring * JsValue))
  : list (jsstring * JsValue) :=
  match l with
  | [] => []
  | (k, x) :: l' =>
      match x with
      | JsUndefined => image_members l'
      | _ => (k, json_image x) :: image_members l'
      end
  end.

(** Well-formed values: the Numbers in them are doubles and the records
    have each key once.  Undefined, NaN, the infinities and negative zero
    are allowed. *)
Fixpoint serialisable (v : JsValue) : bool :=
  match v with
  | JsNum n => Number.is_double n
  | JsArray elements => forallb serialisable elements
  | JsObject properties =>
      JSON.distinct (List.map fst properties) &&
      forallb (fun kv => serialisable (snd kv)) properties
  | _ => true
  end.

(** An order with a payload that JSON text changes:
    [{amount: NaN, note: undefined, tags: [undefined, -0]}]. *)
Definition order_lossy : Input.t Payload :=
  minimal_input (js "order.created") (js "svc/orders") (js "order-42")
    [(js "amount", JsNum NaN); (js "note", JsUndefined);
     (js "tags", JsArray [JsUndefined; JsNum NegZero])].

(** ** Tactics *)

(** Linear arithmetic with division and remainder by constants. *)
Ltac div_lia := zify; Z.to_euclidean_division_equations; lia.

(** * Properties *)

(** ** [encodeURI] on examples *)

Example encodeURI_space : encodeURI (js "svc name/topic") = Ok (js "svc%20name/topic").
Proof. reflexivity. Qed.

Example encodeURI_slash : encodeURI (js "svc/orders") = Ok (js "svc/orders").
Proof. reflexivity. Qed.

(** U+00E9 and the pair D83D DE00 (U+1F600). *)
Example encodeURI_utf8 :
  encodeURI [233; 55357; 56832] = Ok (js "%C3%A9%F0%9F%98%80").
Proof. reflexivity. Qed.

Example encodeURI_lone_surrogate : encodeURI [97; 55357] = Throw URIError.
Proof. reflexivity. Qed.

(** ** Truthiness *)

Lemma or_default_some (s d : jsstring) : s <> [] -> or_default (Some s) d = s.
Proof. destruct s; [congruence | reflexivity]. Qed.

Lemma or_default_empty (d : jsstring) : or_default (Some []) d = d.
Proof. reflexivity. Qed.

Lemma or_default_none (d : jsstring) : or_default None d = d.
Proof. reflexivity. Qed.

Lemma or_empty_string (s : jsstring) : or_empty (Some s) = s.
Proof. destruct s; reflexivity. Qed.

Lemma truthy_nonempty (x : Nullable) (s : jsstring) : truthy x = Some s -> s <> [].
Proof.
  destruct x as [| |t]; simpl; try discriminate.
  destruct t; simpl; [discriminate|]. intros [= <-]. discriminate.
Qed.

Lemma truthy_given (s : jsstring) : s <> [] -> truthy (Given s) = Some s.
Proof. destruct s; [congruence | reflexivity]. Qed.

(** ** Inverting a successful construction *)

Lemma bind_ok {A B} (m : Exc A) (k : A -> Exc B) (b : B) :
  bind m k = Ok b -> exists a, m = Ok a /\ k a = Ok b.
Proof. destruct m; simpl; [eauto | discriminate]. Qed.

(** A constructed event holds, field by field, what the statements of the
    constructor compute. *)
Lemma constructor_ok {TData} (env : Env) (event : Input.t TData)
  (this : XOrcaCloudEvent TData) :
  constructor env event = Ok this ->
  id this = or_default (Input.id event) (uuidv4 env) /\
  convertToISOString env (Input.time event) = Ok (time this) /\
  type this = Input.type event /\
  encodeURI (Input.source event) = Ok (source this) /\
  datacontenttype this =
    or_default (Input.datacontenttype event) default_datacontenttype /\
  subject this = Input.subject event /\
  data this = Input.data event /\
  specversion this = or_default (Input.specversion event) (js "1.0") /\
  encode_or_null (Input.to event) = Ok (to this) /\
  encode_or_null (Input.redirectto event) = Ok (redirectto this) /\
  traceparent this = or_null (Input.traceparent event) /\
  tracestate this = or_null (Input.tracestate event) /\
  elapsedtime this = or_null (Input.elapsedtime event) /\
  executionunits this = or_null (Input.executionunits event).
Proof.
  unfold constructor. intros H.
  apply bind_ok in H as (t & Ht & H).
  apply bind_ok in H as (src & Hsrc & H).
  apply bind_ok in H as (x & Hto & H).
  apply bind_ok in H as (y & Hre & H).
  injection H as <-. simpl. repeat split; assumption.
Qed.

(** Construction fails only where a conversion throws. *)
Lemma constructor_total {TData} (env : Env) (event : Input.t TData)
  (t src : jsstring) (x y : option jsstring) :
  convertToISOString env (Input.time event) = Ok t ->
  encodeURI (Input.source event) = Ok src ->
  encode_or_null (Input.to event) = Ok x ->
  encode_or_null (Input.redirectto event) = Ok y ->
  exists this, constructor env event = Ok this.
Proof.
  intros Ht Hs Hx Hy. unfold constructor.
  rewrite Ht, Hs, Hx, Hy. simpl. eauto.
Qed.

(** ** [encodeURI] *)

(** Code units of the unescaped set pass through [encodeURI] unchanged;
    the reserved characters are among them. *)
Lemma encodeURI_unescaped (s : jsstring) :
  Forall (fun c => URI.unescapedSet c = true) s -> encodeURI s = Ok s.
Proof.
  unfold encodeURI. induction 1 as [|c s Hc _ IH]; simpl; [reflexivity|].
  rewrite Hc, IH. reflexivity.
Qed.

Lemma reserved_unescaped :
  Forall (fun c => URI.unescapedSet c = true) (js ";/?:@&=+$,#").
Proof. repeat constructor. Qed.

Lemma escape_nonempty (cp : N) : URI.escape cp <> [].
Proof.
  unfold URI.escape, URI.utf8.
  repeat case_match; simpl; discriminate.
Qed.

(** [encodeURI] of a non-empty string is never the empty string. *)
Lemma encodeURI_nonempty (s r : jsstring) :
  s <> [] -> encodeURI s = Ok r -> r <> [].
Proof.
  unfold encodeURI. destruct s as [|c s]; [congruence|]. intros _. simpl.
  destruct (URI.unescapedSet c).
  { destruct (URI.Encode s); simpl; [|discriminate]. intros [= <-]. discriminate. }
  destruct (URI.is_trailing_surrogate c); [discriminate|].
  destruct (URI.is_leading_surrogate c).
  - destruct s as [|d s]; [discriminate|].
    destruct (URI.is_trailing_surrogate d); [|discriminate].
    destruct (URI.Encode s); simpl; [|discriminate]. intros [= <-].
    intros H. apply app_eq_nil in H as [H _]. by apply escape_nonempty in H.
  - destruct (URI.Encode s); simpl; [|discriminate]. intros [= <-].
    intros H. apply app_eq_nil in H as [H _]. by apply escape_nonempty in H.
Qed.

Lemma encode_or_null_nonempty (x : Nullable) (r : option jsstring) :
  encode_or_null x = Ok r -> r <> Some [].
Proof.
  unfold encode_or_null. destruct (truthy x) as [s|] eqn:Hx.
  - destruct (encodeURI s) as [t|] eqn:Hs; simpl; [|discriminate].
    intros [= <-] [= ->].
    eapply encodeURI_nonempty; eauto using truthy_nonempty.
  - intros [= <-]. discriminate.
Qed.

(** A code unit outside the unescaped set that is not a surrogate is
    written as "%" and the hexadecimal octets of its UTF-8 form. *)
Lemma encodeURI_escapes (c : N) :
  URI.unescapedSet c = false ->
  URI.is_leading_surrogate c = false -> URI.is_trailing_surrogate c = false ->
  encodeURI [c] = Ok (URI.escape c) /\ exists r, URI.escape c = 37 :: r.
Proof.
  intros Hu Hl Ht. unfold encodeURI. cbn [URI.Encode].
  rewrite Hu, Hl, Ht. cbn [bind]. rewrite app_nil_r. split; [reflexivity|].
  unfold URI.escape, URI.utf8. repeat case_match; cbn; eauto.
Qed.

Lemma is_uuid_v4_nonempty (s : jsstring) : is_uuid_v4 s = true -> s <> [].
Proof. destruct s; [discriminate | discriminate]. Qed.

(** ** C1: the end-to-end example *)

(** C1, counterexample.  For the input of the end-to-end example the
    stored [source] is "svc/orders": it is not the string "svc%2Forders"
    the claim gives, because [encodeURI] keeps the reserved character "/". *)
Lemma C1_source_keeps_slash :
  exists this, constructor sample_env order_created = Ok this /\
    source this = js "svc/orders" /\ source this <> js "svc%2Forders".
Proof. eexists. split; [reflexivity|]. split; [reflexivity | discriminate]. Qed.

(** C1, as amended.  In an environment whose identifier generator returns
    a non-empty string and whose time helper returns [now] for an absent
    time, the input [{type:"order.created", source:"svc/orders",
    subject:"order-42", data:{amount:10}}] is constructed into an event
    with specversion "1.0", the canonical datacontenttype, source
    "svc/orders" (unchanged), [to] and [redirectto] null, the generated
    non-empty id and time [now].  More generally the stored source is
    [encodeURI] of the given one: code units of the unescaped set, the
    reserved characters among them, are kept, and the others are
    percent-encoded ("%" and the octets of the UTF-8 form), as in
    "svc name/topic" stored as "svc%20name/topic". *)
Theorem C1_order_created (env : Env) (now : jsstring) :
  convertToISOString env None = Ok now ->
  uuidv4 env <> [] ->
  (exists this, constructor env order_created = Ok this /\
     specversion this = js "1.0" /\
     datacontenttype this = default_datacontenttype /\
     source this = js "svc/orders" /\
     to this = None /\ redirectto this = None /\
     id this = uuidv4 env /\ id this <> [] /\
     time this = now) /\
  (forall TData (event : Input.t TData) (this : XOrcaCloudEvent TData),
     constructor env event = Ok this ->
     encodeURI (Input.source event) = Ok (source this) /\
     (Forall (fun c => URI.unescapedSet c = true) (Input.source event) ->
      source this = Input.source event)) /\
  Forall (fun c => URI.unescapedSet c = true) (js ";/?:@&=+$,#") /\
  (forall c, URI.unescapedSet c = false ->
     URI.is_leading_surrogate c = false ->
     URI.is_trailing_surrogate c = false ->
     exists r, encodeURI [c] = Ok (37 :: r)) /\
  encodeURI (js "svc name/topic") = Ok (js "svc%20name/topic").
Proof.
  intros Hnow Hid. split; [|split; [|split; [|split]]].
  - unfold constructor. simpl. rewrite Hnow. simpl.
    eexists. split; [reflexivity|]. simpl. repeat split; assumption.
  - intros TData event this H.
    apply constructor_ok in H as (_ & _ & _ & Hs & _).
    split; [assumption|]. intros Hall.
    apply encodeURI_unescaped in Hall. congruence.
  - exact reserved_unescaped.
  - intros c Hu Hl Ht.
    destruct (encodeURI_escapes c Hu Hl Ht) as (He & r & Hr).
    exists r. by rewrite He, Hr.
  - reflexivity.
Qed.

Lemma C1_order_created_witness :
  convertToISOString sample_env None = Ok (js "2024-05-01T12:00:00.000Z") /\
  uuidv4 sample_env <> [] /\
  exists this, constructor sample_env order_created = Ok this /\
    source this = js "svc/orders" /\ time this = js "2024-05-01T12:00:00.000Z".
Proof.
  split; [reflexivity|]. split; [discriminate|].
  destruct (C1_order_created sample_env (js "2024-05-01T12:00:00.000Z"))
    as [(this & H & _ & _ & Hs & _ & _ & _ & _ & Ht) _];
    [reflexivity | discriminate |].
  exists this. repeat split; assumption.
Defined.

(** ** C2: specversion *)



(** ** C3: id *)

(** C3, counterexample.  The caller supplies the empty string as id; the
    event's id is the generated identifier, not the supplied string. *)
Lemma C3_empty_id_replaced :
  exists this, constructor sample_env order_blank = Ok this /\
    Input.id order_blank = Some [] /\
    id this = uuidv4 sample_env /\ id this <> [].
Proof.
  eexists. split; [reflexivity|]. repeat split. discriminate.
Qed.

(** C3, as amended.  With a generator that returns version-4 UUIDs: if the
    caller supplies a non-empty id the event's id is that string exactly;
    if the caller omits id or supplies the empty string, the event's id is
    the generated string, which is valid as a version-4 UUID.  In every
    case the id is non-empty. *)
Theorem C3_id {TData} (env : Env) (event : Input.t TData)
  (this : XOrcaCloudEvent TData) :
  is_uuid_v4 (uuidv4 env) = true ->
  constructor env event = Ok this ->
  (forall s, Input.id event = Some s -> s <> [] -> id this = s) /\
  (Input.id event = None \/ Input.id event = Some [] ->
   id this = uuidv4 env /\ is_uuid_v4 (id this) = true) /\
  id this <> [].
Proof.
  intros Hu H. apply constructor_ok in H as (Hid & _). rewrite Hid.
  split; [|split].
  - intros s -> Hs. by apply or_default_some.
  - intros [-> | ->]; simpl; by split.
  - destruct (Input.id event) as [[|c s]|]; simpl;
      auto using is_uuid_v4_nonempty.
Qed.

Lemma C3_id_witness :
  is_uuid_v4 (uuidv4 sample_env) = true /\
  (exists this, constructor sample_env order_full = Ok this /\
     id this = js "evt-1") /\
  (exists this, constructor sample_env order_created = Ok this /\
     id this = js "9b1deb4d-3b7d-4bad-9bdf-2b0d7b3dcb6d").
Proof.
  split; [reflexivity|]. split.
  - eexists. split; [reflexivity|].
    refine (proj1 (C3_id sample_env order_full _ _ _) (js "evt-1") _ _);
      [reflexivity | reflexivity | reflexivity | discriminate].
  - eexists. split; [reflexivity|].
    refine (proj1 (proj1 (proj2 (C3_id sample_env order_created _ _ _)) _));
      [reflexivity | reflexivity | left; reflexivity].
Defined.

(** ** C8: the tracing and metric fields *)

(** C8, counterexample.  The caller supplies a string value, the empty
    string, as traceparent; the event's traceparent is null, not that
    string. *)
Lemma C8_empty_string_becomes_null :
  exists this, constructor sample_env order_blank = Ok this /\
    Input.traceparent order_blank = Given [] /\
    traceparent this = None /\ traceparent this <> Some [].
Proof.
  eexists. split; [reflexivity|]. repeat split. discriminate.
Qed.

(** What [x || null] stores. *)
Lemma or_null_cases (x : Nullable) :
  (forall s, x = Given s -> s <> [] -> or_null x = Some s) /\
  (x = IsNull \/ x = Absent \/ x = Given [] -> or_null x = None).
Proof.
  split.
  - intros s -> Hs. by apply truthy_given.
  - intros [-> | [-> | ->]]; reflexivity.
Qed.

(** C8, as amended.  Each of traceparent, tracestate, elapsedtime and
    executionunits is passed through unmodified when the caller supplies a
    non-empty string, and is null when the caller supplies null, omits the
    field, or supplies the empty string. *)
Theorem C8_passthrough {TData} (env : Env) (event : Input.t TData)
  (this : XOrcaCloudEvent TData) :
  constructor env event = Ok this ->
  ((forall s, Input.traceparent event = Given s -> s <> [] ->
      traceparent this = Some s) /\
   (Input.traceparent event = IsNull \/ Input.traceparent event = Absent \/
    Input.traceparent event = Given [] -> traceparent this = None)) /\
  ((forall s, Input.tracestate event = Given s -> s <> [] ->
      tracestate this = Some s) /\
   (Input.tracestate event = IsNull \/ Input.tracestate event = Absent \/
    Input.tracestate event = Given [] -> tracestate this = None)) /\
  ((forall s, Input.elapsedtime event = Given s -> s <> [] ->
      elapsedtime this = Some s) /\
   (Input.elapsedtime event = IsNull \/ Input.elapsedtime event = Absent \/
    Input.elapsedtime event = Given [] -> elapsedtime this = None)) /\
  ((forall s, Input.executionunits event = Given s -> s <> [] ->
      executionunits this = Some s) /\
   (Input.executionunits event = IsNull \/ Input.executionunits event = Absent \/
    Input.executionunits event = Given [] -> executionunits this = None)).
Proof.
  intros H.
  apply constructor_ok in H
    as (_ & _ & _ & _ & _ & _ & _ & _ & _ & _ & H1 & H2 & H3 & H4).
  rewrite H1, H2, H3, H4. repeat split; apply or_null_cases.
Qed.

Lemma C8_passthrough_witness :
  exists this, constructor sample_env order_full = Ok this /\
    tracestate this = Some (js "vendor=1") /\
    elapsedtime this = Some (js "12").
Proof.
  eexists. split; [reflexivity|].
  destruct (C8_passthrough sample_env order_full _ eq_refl)
    as (_ & [Hts _] & [Hel _] & _).
  split; [apply Hts | apply Hel]; solve [reflexivity | discriminate].
Defined.

(** ** C9: the empty string counts as absent *)

Lemma or_default_blank (x : option jsstring) (d : jsstring) :
  or_default (blank_option x) d = or_default x d.
Proof. destruct x as [[|c s]|]; reflexivity. Qed.

Lemma truthy_blank (x : Nullable) : truthy (blank_nullable x) = truthy x.
Proof. destruct x as [| |[|c s]]; reflexivity. Qed.

(** Replacing the empty strings of an input by absent properties changes
    neither the event constructed nor the error thrown. *)
Lemma constructor_blank {TData} (env : Env) (event : Input.t TData) :
  constructor env (blank_to_absent event) = constructor env event.
Proof.
  unfold constructor, encode_or_null, or_null. simpl.
  rewrite !or_default_blank, !truthy_blank. reflexivity.
Qed.

(** C9.  The constructor treats an empty string like an absent property in
    every defaulted field: the input with its empty strings removed
    constructs the same event; an empty id gives the generated identifier,
    an empty datacontenttype the canonical default, an empty specversion
    "1.0", and an empty to, redirectto, traceparent, tracestate,
    elapsedtime or executionunits gives null.  None of these six fields
    ever holds the empty string. *)
Theorem C9_empty_as_absent {TData} (env : Env) (event : Input.t TData)
  (this : XOrcaCloudEvent TData) :
  constructor env event = Ok this ->
  constructor env (blank_to_absent event) = Ok this /\
  (Input.id event = Some [] -> id this = uuidv4 env) /\
  (Input.datacontenttype event = Some [] ->
   datacontenttype this = default_datacontenttype) /\
  (Input.specversion event = Some [] -> specversion this = js "1.0") /\
  (Input.to event = Given [] -> to this = None) /\
  (Input.redirectto event = Given [] -> redirectto this = None) /\
  (Input.traceparent event = Given [] -> traceparent this = None) /\
  (Input.tracestate event = Given [] -> tracestate this = None) /\
  (Input.elapsedtime event = Given [] -> elapsedtime this = None) /\
  (Input.executionunits event = Given [] -> executionunits this = None) /\
  to this <> Some [] /\ redirectto this <> Some [] /\
  traceparent this <> Some [] /\ tracestate this <> Some [] /\
  elapsedtime this <> Some [] /\ executionunits this <> Some [].
Proof.
  intros H. split; [by rewrite constructor_blank|].
  apply constructor_ok in H
    as (Hid & _ & _ & _ & Hct & _ & _ & Hv & Hto & Hre & H1 & H2 & H3 & H4).
  assert (Hnn : forall x, or_null x <> Some []).
  { intros x Hx. by apply truthy_nonempty in Hx. }
  rewrite Hid, Hct, Hv, H1, H2, H3, H4.
  repeat split; try (intros ->; reflexivity);
    eauto using encode_or_null_nonempty.
  - intros Hx. rewrite Hx in Hto. by injection Hto.
  - intros Hx. rewrite Hx in Hre. by injection Hre.
Qed.

Lemma C9_empty_as_absent_witness :
  exists this, constructor sample_env order_blank = Ok this /\
    id this = js "9b1deb4d-3b7d-4bad-9bdf-2b0d7b3dcb6d" /\
    traceparent this = None.
Proof.
  eexists. split; [reflexivity|].
  destruct (C9_empty_as_absent sample_env order_blank _ eq_refl)
    as (_ & Hid & _ & _ & _ & _ & Htp & _).
  split; [apply Hid | apply Htp]; reflexivity.
Defined.

(** ** C4: the partition of the fields *)

(** The keys of the views do not depend on the values stored. *)
Lemma extensionFields_eq {TData} (this : XOrcaCloudEvent TData) :
  extensionFields this =
  List.map js [ "to"; "redirectto"; "traceparent"; "tracestate";
                "executionunits"; "elapsedtime" ]%string.
Proof. reflexivity. Qed.

Lemma cloudevent_keys {TData} (this : XOrcaCloudEvent TData) :
  Object_keys (cloudevent this) =
  List.map js [ "id"; "time"; "type"; "source"; "datacontenttype";
                "subject"; "data"; "specversion" ]%string.
Proof. reflexivity. Qed.

(** C4.  For every constructed event the keys of the [cloudevent] view and
    [extensionFields] are disjoint, together they list each of the fourteen
    declared fields exactly once, and [extensionFields] is the list of the
    six extension-field names. *)
Theorem C4_partition {TData} (env : Env) (event : Input.t TData)
  (this : XOrcaCloudEvent TData) :
  constructor env event = Ok this ->
  (forall k, k ∈ Object_keys (cloudevent this) -> k ∉ extensionFields this) /\
  NoDup (Object_keys (cloudevent this) ++ extensionFields this) /\
  Object_keys (cloudevent this) ++ extensionFields this ≡ₚ declared_fields /\
  NoDup declared_fields /\ length declared_fields = 14%nat /\
  extensionFields this =
    List.map js [ "to"; "redirectto"; "traceparent"; "tracestate";
                  "executionunits"; "elapsedtime" ]%string.
Proof.
  intros _. rewrite cloudevent_keys, extensionFields_eq.
  assert (Hnd : NoDup
    (List.map js [ "id"; "time"; "type"; "source"; "datacontenttype";
                   "subject"; "data"; "specversion" ]%string ++
     List.map js [ "to"; "redirectto"; "traceparent"; "tracestate";
                   "executionunits"; "elapsedtime" ]%string)).
  { apply (bool_decide_unpack _). vm_compute. exact I. }
  split; [|split; [exact Hnd|split; [|split; [|split]]]].
  - intros k Hk Hk'. apply NoDup_app in Hnd as (_ & Hd & _). by apply (Hd k).
  - apply (bool_decide_unpack _). vm_compute. exact I.
  - apply (bool_decide_unpack _). vm_compute. exact I.
  - reflexivity.
  - reflexivity.
Qed.

Lemma C4_partition_witness :
  exists this, constructor sample_env order_full = Ok this /\
    Object_keys (cloudevent this) ++ extensionFields this ≡ₚ declared_fields.
Proof.
  eexists. split; [reflexivity|].
  exact (proj1 (proj2 (proj2 (C4_partition sample_env order_full _ eq_refl)))).
Defined.

(** ** C5: the telemetry attributes *)

(** C5.  For every constructed event [openTelemetryAttributes()] is the
    record of exactly nine keys, in this order, each mapped to its field,
    where a null redirectto, to, executionunits or elapsedtime gives the
    empty string and so never the string "null". *)
Theorem C5_openTelemetryAttributes {TData} (env : Env) (event : Input.t TData)
  (this : XOrcaCloudEvent TData) :
  constructor env event = Ok this ->
  openTelemetryAttributes this =
    [ (js "cloudevents.event_id", id this);
      (js "cloudevents.event_source", source this);
      (js "cloudevents.event_spec_version", specversion this);
      (js "cloudevents.event_subject", subject this);
      (js "cloudevents.event_type", type this);
      (js "cloudevents.xorca.event_redirectto", default [] (redirectto this));
      (js "cloudevents.xorca.event_to", default [] (to this));
      (js "cloudevents.xorca.event_executionunits",
        default [] (executionunits this));
      (js "cloudevents.xorca.event_elapsedtime",
        default [] (elapsedtime this)) ] /\
  NoDup (Object_keys (openTelemetryAttributes this)) /\
  (to this = None ->
   get_property (openTelemetryAttributes this)
     (js "cloudevents.xorca.event_to") = Some []) /\
  (redirectto this = None ->
   get_property (openTelemetryAttributes this)
     (js "cloudevents.xorca.event_redirectto") = Some []) /\
  (elapsedtime this = None ->
   get_property (openTelemetryAttributes this)
     (js "cloudevents.xorca.event_elapsedtime") = Some []) /\
  (executionunits this = None ->
   get_property (openTelemetryAttributes this)
     (js "cloudevents.xorca.event_executionunits") = Some []) /\
  [] <> js "null".
Proof.
  intros _. split; [|split].
  - unfold openTelemetryAttributes. rewrite !or_empty_string.
    assert (He : forall x, or_empty x = default [] x).
    { intros [[|c s]|]; reflexivity. }
    rewrite !He. reflexivity.
  - apply (bool_decide_unpack _). vm_compute. exact I.
  - repeat split; try (intros Hn; cbn; rewrite Hn; reflexivity).
    discriminate.
Qed.

Lemma C5_openTelemetryAttributes_witness :
  exists this, constructor sample_env order_created = Ok this /\
    get_property (openTelemetryAttributes this)
      (js "cloudevents.xorca.event_to") = Some [].
Proof.
  eexists. split; [reflexivity|].
  apply (C5_openTelemetryAttributes sample_env order_created _ eq_refl).
  reflexivity.
Defined.

(** ** Properties of plain objects *)

Lemma str_eqb_eq (a b : jsstring) : str_eqb a b = true <-> a = b.
Proof.
  revert b. induction a as [|x a IH]; intros [|y b]; simpl;
    try (split; discriminate); [tauto|].
  rewrite andb_true_iff, N.eqb_eq, IH.
  split; [intros [-> ->]; reflexivity | intros [= -> ->]; auto].
Qed.

Lemma str_eqb_refl (a : jsstring) : str_eqb a a = true.
Proof. by apply str_eqb_eq. Qed.

Lemma str_eqb_neq (a b : jsstring) : a <> b -> str_eqb a b = false.
Proof.
  intros Hne. destruct (str_eqb a b) eqn:E; [|reflexivity].
  by apply str_eqb_eq in E.
Qed.

Lemma get_set_property {V} (o : object V) (k : jsstring) (v : V) :
  get_property (set_property o k v) k = Some v.
Proof.
  induction o as [|[k' v'] o IH]; simpl.
  - by rewrite str_eqb_refl.
  - destruct (str_eqb k' k) eqn:E; simpl; rewrite E; [reflexivity | exact IH].
Qed.

Lemma get_set_property_ne {V} (o : object V) (k k' : jsstring) (v : V) :
  k <> k' -> get_property (set_property o k v) k' = get_property o k'.
Proof.
  intros Hne. induction o as [|[k0 v0] o IH]; simpl.
  - by rewrite str_eqb_neq.
  - destruct (str_eqb k0 k) eqn:E; simpl.
    + apply str_eqb_eq in E as ->. by rewrite str_eqb_neq.
    + by rewrite IH.
Qed.

(** ** The heap: construction, freezing and assignment *)

Section HeapFacts.
Import Heap.

Lemma assign_last (strict : bool) (h : heap) (o : Obj) (k : jsstring)
  (v : Value) :
  frozen o = false ->
  assign strict (length h) k v (h ++ [o]) =
  (h ++ [{| props := set_property (props o) k v; frozen := false |}], Ok ()).
Proof.
  intros Hf. unfold assign, OrdinarySet.
  rewrite list_lookup_middle by reflexivity. rewrite Hf.
  f_equal. rewrite insert_app_r_alt by lia. by rewrite Nat.sub_diag.
Qed.

Lemma freeze_last (h : heap) (o : Obj) :
  Object_freeze (length h) (h ++ [o]) =
  h ++ [{| props := props o; frozen := true |}].
Proof.
  unfold Object_freeze. rewrite list_lookup_middle by reflexivity.
  rewrite insert_app_r_alt by lia. by rewrite Nat.sub_diag.
Qed.

(** The fourteen assignments and the freeze, carried out. *)
Lemma new_XOrcaCloudEvent_eq (env : Env) (event : Input.t loc) (h : heap) :
  new_XOrcaCloudEvent env event h =
  let* fields := constructor env event in
  Ok (length h, h ++ [event_object fields]).
Proof.
  unfold new_XOrcaCloudEvent.
  destruct (constructor env event) as [fields|e]; [|reflexivity].
  cbn [bind]. cbv zeta. do 2 f_equal.
  unfold own_properties. cbn [fold_left fst snd].
  repeat (rewrite assign_last by reflexivity; cbn [fst props]).
  rewrite freeze_last. reflexivity.
Qed.

Lemma new_XOrcaCloudEvent_ok (env : Env) (event : Input.t loc) (h h' : heap)
  (this : loc) :
  new_XOrcaCloudEvent env event h = Ok (this, h') ->
  exists fields, constructor env event = Ok fields /\
    this = length h /\ h' = h ++ [event_object fields].
Proof.
  rewrite new_XOrcaCloudEvent_eq. intros H.
  apply bind_ok in H as (fields & Hc & H). exists fields.
  split; [exact Hc|]. split; congruence.
Qed.

(** Assignment to a frozen object leaves the heap as it is. *)
Lemma assign_frozen (strict : bool) (h : heap) (l : loc) (o : Obj)
  (k : jsstring) (v : Value) :
  h !! l = Some o -> frozen o = true ->
  assign strict l k v h = (h, if strict then Throw TypeError else Ok ()).
Proof.
  intros Hl Hf. unfold assign, OrdinarySet. rewrite Hl, Hf.
  destruct strict; reflexivity.
Qed.

(** C6.  After construction no field of the event can be mutated: an
    assignment to any property of the constructed event, in strict or in
    sloppy code, leaves the heap as it was, so that every later read of
    every field gives the value the constructor stored; this holds in
    particular for the fourteen declared fields. *)
Theorem C6_immutable (env : Env) (event : Input.t loc) (h h' : heap)
  (this : loc) :
  new_XOrcaCloudEvent env event h = Ok (this, h') ->
  exists fields, constructor env event = Ok fields /\
    (forall k, Get h' this k =
       default VUndefined (value_of <$> get_property (own_properties fields) k)) /\
    forall (strict : bool) (k : jsstring) (v : Value),
      fst (assign strict this k v h') = h' /\
      (forall k', Get (fst (assign strict this k v h')) this k' = Get h' this k').
Proof.
  intros H. apply new_XOrcaCloudEvent_ok in H as (fields & Hc & -> & ->).
  exists fields. split; [exact Hc|].
  assert (Hl : (h ++ [event_object fields]) !! length h = Some (event_object fields))
    by (by apply list_lookup_middle).
  split.
  - intros k. unfold Get. rewrite Hl. unfold event_object, props.
    generalize (own_properties fields). intros o.
    induction o as [|[k0 f0] o IH]; simpl; [reflexivity|].
    destruct (str_eqb k0 k); [reflexivity | exact IH].
  - intros strict k v.
    rewrite (assign_frozen strict _ _ _ k v Hl eq_refl). by split.
Qed.

Lemma C6_immutable_witness :
  exists this h',
    new_XOrcaCloudEvent sample_env order_by_reference (payload_heap false)
      = Ok (this, h') /\
    Get h' this (js "subject") = VStr (js "order-42") /\
    Get (fst (assign true this (js "subject") (VStr (js "changed")) h')) this
      (js "subject") = VStr (js "order-42").
Proof.
  eexists _, _. split; [vm_compute; reflexivity|].
  destruct (C6_immutable sample_env order_by_reference (payload_heap false)
              _ _ eq_refl) as (fields & Hc & Hget & Hset).
  split; [reflexivity|].
  rewrite (proj2 (Hset true (js "subject") (VStr (js "changed")))).
  reflexivity.
Defined.

End HeapFacts.

(** ** Ordinary objects: construction and assignment to the payload *)

Section ObjectsFacts.
Import Objects.

Lemma insert_last (h : heap) (o o' : Obj) :
  <[length h := o']> (h ++ [o]) = h ++ [o'].
Proof. rewrite insert_app_r_alt by lia. by rewrite Nat.sub_diag. Qed.

(** An assignment the constructor gets through has written to [this]. *)
Lemma put_last (h h1 : heap) (o : Obj) (k : jsstring) (v : Value) :
  put (length h) k v (h ++ [o]) = Ok h1 -> h1 = h ++ [write o k v].
Proof.
  unfold put, assign, OrdinarySet.
  rewrite list_lookup_middle by reflexivity.
  repeat case_match; simplify_eq; cbn [fst snd bind orb negb];
    try discriminate; intros [= <-]; by rewrite insert_last.
Qed.

Lemma freeze_object_last (h : heap) (o : Obj) :
  Object_freeze (length h) (h ++ [o]) =
  h ++ [{| props := List.map (fun kv => (fst kv, freeze_property (snd kv)))
                      (props o);
           extensible := false; prototype := prototype o |}].
Proof.
  unfold Object_freeze. rewrite list_lookup_middle by reflexivity.
  apply insert_last.
Qed.

(** A successful construction ran the pure constructor and added one
    object, the frozen event, after the objects that were there. *)
Lemma construction_ok (env : Env) (proto : loc) (event : Input.t loc)
  (h h' : heap) (this : loc) :
  new_XOrcaCloudEvent env proto event h = Ok (this, h') ->
  exists fields, constructor env event = Ok fields /\
    this = length h /\ h' = h ++ [event_object proto fields].
Proof.
  unfold new_XOrcaCloudEvent, constructor. intros H.
  repeat match type of H with
         | bind (put _ _ _ _) _ = _ =>
             let h1 := fresh "h" in let E := fresh "E" in
             apply bind_ok in H as (h1 & E & H);
             apply put_last in E; subst h1
         | bind _ _ = _ =>
             let x := fresh "x" in let E := fresh "E" in
             apply bind_ok in H as (x & E & H); rewrite E; cbn [bind]
         end.
  injection H as <- <-. eexists. split; [reflexivity|].
  split; [reflexivity|]. rewrite freeze_object_last. reflexivity.
Qed.

Lemma lookup_own (h : heap) (l : loc) (o : Obj) (k : jsstring) (p : Property) :
  h !! l = Some o -> get_property (props o) k = Some p ->
  lookup h l k = Some p.
Proof.
  intros Hl Hp. unfold lookup.
  destruct h as [|o0 h]; [by rewrite lookup_nil in Hl|].
  cbn [length find_property]. by rewrite Hl, Hp.
Qed.

(** A plain write stores the value in an own property of the object and
    touches no other object. *)
Lemma assign_plain_write (strict : bool) (h : heap) (l : loc) (o : Obj)
  (k : jsstring) (v : Value) :
  h !! l = Some o -> plain_write h l k = true ->
  assign strict l k v h = (<[l := write o k v]> h, Ok ()).
Proof.
  intros Hl. unfold plain_write, assign, OrdinarySet. rewrite Hl.
  destruct (get_property (props o) k) as [[x w|g s]|] eqn:Hown.
  - intros ->. by rewrite (lookup_own _ _ _ _ _ Hl Hown).
  - discriminate.
  - intros [-> Hchain]%andb_true_iff.
    by destruct (lookup h l k) as [[x []|g s]|].
Qed.

Lemma Get_write (h : heap) (l : loc) (o : Obj) (k : jsstring) (v : Value) :
  h !! l = Some o -> Get (<[l := write o k v]> h) l k = Ok v.
Proof.
  intros Hl. unfold Get.
  rewrite (lookup_own _ l (write o k v) k (Data v true)); [reflexivity | |].
  - apply list_lookup_insert_eq. by eapply lookup_lt_Some.
  - apply get_set_property.
Qed.

Lemma event_object_data (proto : loc) (fields : XOrcaCloudEvent loc) :
  get_property (props (event_object proto fields)) (js "data") =
  Some (Data (Heap.VRef (data fields)) false).
Proof. reflexivity. Qed.

Lemma event_object_frozen (proto : loc) (fields : XOrcaCloudEvent loc) :
  Forall (fun kv => exists v, snd kv = Data v false)
    (props (event_object proto fields)).
Proof.
  unfold event_object, props. apply Forall_fmap, Forall_forall.
  intros kv _. by eexists.
Qed.

(** What a payload may refuse: a read-only property and a property with
    a getter only refuse the assignment, a record that is not extensible
    refuses a new key, and an assignment to the inherited accessor
    [__proto__] calls its setter instead of storing the value. *)
Example assign_read_only_property :
  let h := payload_heap (Data (Heap.VNum (Int 10)) false) true in
  plain_write h 2%nat (js "amount") = false /\
  assign false 2%nat (js "amount") (Heap.VNum (Int 11)) h = (h, Ok ()) /\
  assign true 2%nat (js "amount") (Heap.VNum (Int 11)) h = (h, Throw TypeError).
Proof. by repeat split. Qed.

Example assign_getter_only :
  let h := payload_heap (Accessor true false) true in
  plain_write h 2%nat (js "amount") = false /\
  assign false 2%nat (js "amount") (Heap.VNum (Int 11)) h = (h, Ok ()) /\
  assign true 2%nat (js "amount") (Heap.VNum (Int 11)) h = (h, Throw TypeError).
Proof. by repeat split. Qed.

Example assign_sealed_record :
  let h := payload_heap (Data (Heap.VNum (Int 10)) true) false in
  plain_write h 2%nat (js "note") = false /\
  assign true 2%nat (js "note") (Heap.VStr (js "x")) h = (h, Throw TypeError) /\
  Get (fst (assign true 2%nat (js "amount") (Heap.VNum (Int 11)) h)) 2%nat
    (js "amount") = Ok (Heap.VNum (Int 11)).
Proof. by repeat split. Qed.

Example assign_inherited_setter :
  let h := payload_heap (Data (Heap.VNum (Int 10)) true) true in
  plain_write h 2%nat (js "__proto__") = false /\
  assign true 2%nat (js "__proto__") (Heap.VNum (Int 11)) h
  = (h, Throw NotModelled).
Proof. by split. Qed.

(** C10, counterexample.  The caller passes a payload it has frozen; after
    construction an assignment to a key of [event.data] does not change
    what is read from that key. *)
Lemma C10_frozen_payload_stays_frozen :
  exists this h',
    new_XOrcaCloudEvent sample_env 1%nat (order_at 2%nat)
      (payload_heap (Data (Heap.VNum (Int 10)) false) false) = Ok (this, h') /\
    Get h' this (js "data") = Ok (Heap.VRef 2%nat) /\
    Get h' 2%nat (js "amount") = Ok (Heap.VNum (Int 10)) /\
    Get (fst (assign false 2%nat (js "amount") (Heap.VNum (Int 11)) h')) 2%nat
      (js "amount") = Ok (Heap.VNum (Int 10)).
Proof.
  eexists _, _. split; [vm_compute; reflexivity|]. repeat split.
Qed.

(** C10, as amended.  The freeze is shallow: construction adds the event
    object, frozen and with [data] holding the caller's reference, and
    leaves every object that was there, the payload among them, exactly
    as it was.  So, the payload being an ordinary object, an assignment
    to a key of [event.data] does after construction what the attributes
    of the caller's record say: whenever it is a plain write (the key is
    an own writable data property of the record, or a new key of an
    extensible record that inherits no accessor and no read-only property
    of that name), it succeeds in strict and in sloppy code, the value is
    read back from that key, and the event object stays as it is. *)
Theorem C10_shallow_freeze (env : Env) (proto : loc) (event : Input.t loc)
  (h h' : heap) (this : loc) (payload : Obj) :
  new_XOrcaCloudEvent env proto event h = Ok (this, h') ->
  h !! Input.data event = Some payload ->
  (this = length h /\ length h' = S (length h) /\
   forall l o, h !! l = Some o -> h' !! l = Some o) /\
  (exists o, h' !! this = Some o /\ extensible o = false /\
     Forall (fun kv => exists v, snd kv = Data v false) (props o) /\
     get_property (props o) (js "data") =
       Some (Data (Heap.VRef (Input.data event)) false)) /\
  forall (strict : bool) (k : jsstring) (v : Value),
    plain_write h' (Input.data event) k = true ->
    snd (assign strict (Input.data event) k v h') = Ok () /\
    Get (fst (assign strict (Input.data event) k v h')) (Input.data event) k
      = Ok v /\
    fst (assign strict (Input.data event) k v h') !! this = h' !! this.
Proof.
  intros H Hp.
  apply construction_ok in H as (fields & Hc & -> & ->).
  apply constructor_ok in Hc as Hfields.
  destruct Hfields as (_ & _ & _ & _ & _ & _ & Hd & _).
  assert (Hlt : (Input.data event < length h)%nat) by (by eapply lookup_lt_Some).
  assert (Hp' : (h ++ [event_object proto fields]) !! Input.data event
                = Some payload) by (by rewrite lookup_app_l).
  split; [|split].
  - split; [reflexivity|]. split; [rewrite length_app; simpl; lia|].
    intros l o Hl. rewrite lookup_app_l; [exact Hl | by eapply lookup_lt_Some].
  - exists (event_object proto fields).
    split; [by apply list_lookup_middle|]. split; [reflexivity|].
    split; [apply event_object_frozen|]. by rewrite event_object_data, Hd.
  - intros strict k v Hw.
    rewrite (assign_plain_write strict _ _ _ k v Hp' Hw). cbn [fst snd].
    split; [reflexivity|]. split; [by apply Get_write|].
    apply list_lookup_insert_ne. lia.
Qed.

Lemma C10_shallow_freeze_witness :
  exists this h',
    new_XOrcaCloudEvent sample_env 1%nat (order_at 2%nat)
      (payload_heap (Data (Heap.VNum (Int 10)) true) true) = Ok (this, h') /\
    Get h' 2%nat (js "amount") = Ok (Heap.VNum (Int 10)) /\
    Get (fst (assign true 2%nat (js "amount") (Heap.VNum (Int 11)) h')) 2%nat
      (js "amount") = Ok (Heap.VNum (Int 11)).
Proof.
  pose (h := payload_heap (Data (Heap.VNum (Int 10)) true) true).
  assert (H : exists this h',
             new_XOrcaCloudEvent sample_env 1%nat (order_at 2%nat) h
             = Ok (this, h')) by (eexists _, _; vm_compute; reflexivity).
  destruct H as (this & h' & H). exists this, h'. split; [exact H|].
  destruct (C10_shallow_freeze sample_env 1%nat (order_at 2%nat) h h' this _
              H eq_refl) as ((_ & _ & Hframe) & _ & Hwrite).
  assert (Hp : h' !! 2%nat
               = Some (payload_object (Data (Heap.VNum (Int 10)) true) true))
    by (by apply Hframe).
  split.
  - unfold Get. by rewrite (lookup_own _ _ _ (js "amount") _ Hp eq_refl).
  - apply Hwrite. change (plain_write h' 2%nat (js "amount") = true).
    unfold plain_write. by rewrite Hp.
Defined.

End ObjectsFacts.

(** ** Numbers: rounding and the shortest decimal *)

(** Number::toString and the Number value of a decimal, on examples. *)
Example toString_samples :
  Number.toString (Int 10) = js "10" /\
  Number.toString (Frac false 21 1) = js "10.5" /\
  Number.toString (Frac false 3602879701896397 55) = js "0.1" /\
  Number.toString (Frac true 5 1) = js "-2.5" /\
  Number.toString (Frac false 2833419889721787 74) = js "1.5e-7" /\
  Number.toString (Frac false 1 1074) = js "5e-324" /\
  Number.toString (Int 100000000000000000000) = js "100000000000000000000" /\
  Number.toString (Int 1000000000000000000000) = js "1e+21" /\
  Number.toString (Int 123456789012345683968) = js "123456789012345680000" /\
  Number.toString (Int 99999999999999991611392) = js "1e+23" /\
  Number.toString (Int 9007199254740992) = js "9007199254740992".
Proof. repeat split; vm_compute; reflexivity. Qed.

Example round_samples :
  Number.round false (Number.decimal 105 (-1)) = Frac false 21 1 /\
  Number.round false (Number.decimal 1 (-1))
    = Frac false 3602879701896397 55 /\
  Number.round false (Number.decimal 9007199254740993 0)
    = Int 9007199254740992 /\
  Number.round false (Number.decimal 9007199254740995 0)
    = Int 9007199254740996 /\
  Number.round false (Number.decimal 1 23) = Int 99999999999999991611392 /\
  Number.round false (Number.decimal 3 (-324)) = Frac false 1 1074 /\
  Number.round true (Number.decimal 2 (-324)) = NegZero /\
  Number.round false (Number.decimal 17976931348623159 292) = Infinity false.
Proof. repeat split; vm_compute; reflexivity. Qed.


Section NumberFacts.
Local Open Scope Z_scope.

Lemma Qred_reduced (n : Z) (d : positive) :
  Z.gcd n (Zpos d) = 1 -> Qred (n # d) = n # d.
Proof.
  intros Hg. unfold Qred.
  pose proof (Z.ggcd_gcd n (Zpos d)) as H1.
  pose proof (Z.ggcd_correct_divisors n (Zpos d)) as H2.
  destruct (Z.ggcd n (Zpos d)) as [g [aa bb]]. cbn [fst snd] in *.
  rewrite Hg in H1. subst g. destruct H2 as [Ha Hb].
  rewrite Z.mul_1_l in Ha, Hb. subst aa bb. reflexivity.
Qed.

Lemma gcd_odd_pow2 (m e : Z) :
  Z.odd m = true -> 0 <= e -> Z.gcd m (2 ^ e) = 1.
Proof.
  intros Hodd He. apply Z.coprime_pow_r; [exact He|].
  symmetry. apply Z.coprime_prime_l; [apply Z.prime_2|].
  intros [c Hc]. rewrite Hc, Z.odd_mul, andb_false_r in Hodd. discriminate.
Qed.

Lemma pow2_even (e : positive) : exists p, (2 ^ e)%positive = xO p.
Proof.
  induction e as [|e IH] using Pos.peano_ind; [by exists 1%positive|].
  rewrite Pos.pow_succ_r. by eexists.
Qed.

Lemma round_Qeq (negative : bool) (x y : Q) :
  (x == y)%Q -> Number.round negative x = Number.round negative y.
Proof. intros H. unfold Number.round. by rewrite (Qred_complete x y H). Qed.

(** The Number nearest to a Number with a fractional part is that Number. *)
Lemma round_dyadic (negative : bool) (m e : positive) :
  Number.is_double (Frac negative m e) = true ->
  Number.round negative (Zpos m # 2 ^ e) = Frac negative m e.
Proof.
  unfold Number.is_double.
  intros [[Hodd Hm%Z.ltb_lt]%andb_true_iff He%Z.leb_le]%andb_true_iff.
  unfold Number.round.
  rewrite Qred_reduced
    by (rewrite Pos2Z.inj_pow; apply gcd_odd_pow2; [exact Hodd | lia]).
  cbn [Qnum Qden]. rewrite Pos2Z.inj_pow, Z.log2_pow2 by lia.
  set (p := Zpos m) in *. set (L := Z.log2 p).
  assert (HL : 0 <= L < 53).
  { split; [apply Z.log2_nonneg|]. apply Z.log2_lt_pow2; lia. }
  assert (Hp : 2 ^ L <= p) by (apply Z.log2_spec; lia).
  replace (p <=? 0) with false by (symmetry; apply Z.leb_gt; lia).
  set (E := Zpos e) in *.
  assert (Htest : 2 ^ E * 2 ^ Z.max 0 (L - E) <= p * 2 ^ Z.max 0 (- (L - E))).
  { destruct (Z.le_gt_cases E L).
    - rewrite Z.max_r, Z.max_l by lia.
      rewrite <- Z.pow_add_r by lia. replace (E + (L - E)) with L by lia. lia.
    - rewrite Z.max_l, Z.max_r by lia.
      replace (2 ^ E * 2 ^ 0) with (2 ^ L * 2 ^ (- (L - E))).
      + apply Z.mul_le_mono_nonneg_r; [apply Z.pow_nonneg; lia | exact Hp].
      + rewrite <- Z.pow_add_r by lia. rewrite Z.pow_0_r, Z.mul_1_r.
        f_equal. lia. }
  apply Z.leb_le in Htest. rewrite Htest. clear Htest.
  set (u := Z.max (L - E - 52) (-1074)).
  assert (Hu : -1074 <= u <= - E) by lia.
  rewrite (Z.max_r 0 (- u)), (Z.max_l 0 u) by lia.
  rewrite Z.pow_0_r, Z.mul_1_r.
  assert (Hnum : p * 2 ^ (- u) = p * 2 ^ (- u - E) * 2 ^ E).
  { rewrite <- Z.mul_assoc, <- Z.pow_add_r by lia. do 2 f_equal. lia. }
  assert (H2E : 0 < 2 ^ E) by (apply Z.pow_pos_nonneg; lia).
  rewrite Hnum, Z.div_mul, Z.mod_mul by lia.
  replace (2 ^ E <? 2 * 0) with false by (symmetry; apply Z.ltb_ge; lia).
  replace (2 ^ E =? 2 * 0) with false by (symmetry; apply Z.eqb_neq; lia).
  cbn [orb andb].
  set (m0 := p * 2 ^ (- u - E)).
  assert (Hm0 : 0 < m0)
    by (apply Z.mul_pos_pos; [lia | apply Z.pow_pos_nonneg; lia]).
  assert (Hover : m0 * 2 ^ (u + 1074) < 2 ^ 2098).
  { unfold m0. rewrite <- Z.mul_assoc, <- Z.pow_add_r by lia.
    apply Z.lt_le_trans with (2 ^ 53 * 2 ^ (- u - E + (u + 1074))).
    - apply Z.mul_lt_mono_pos_r; [apply Z.pow_pos_nonneg; lia | exact Hm].
    - rewrite <- Z.pow_add_r by lia. apply Z.pow_le_mono_r; lia. }
  replace (2 ^ 2098 <=? m0 * 2 ^ (u + 1074)) with false
    by (symmetry; apply Z.leb_gt; exact Hover).
  replace (m0 =? 0) with false by (symmetry; apply Z.eqb_neq; lia).
  unfold Number.scaled.
  replace (0 <=? u) with false by (symmetry; apply Z.leb_gt; lia).
  rewrite (Qred_complete _ (p # 2 ^ e)).
  2:{ unfold Qeq. cbn [Qnum Qden]. rewrite !Pos2Z.inj_pow.
      rewrite Z2Pos.id by lia. fold E. unfold m0.
      rewrite <- !Z.mul_assoc, <- Z.pow_add_r by lia. do 2 f_equal. lia. }
  rewrite Qred_reduced
    by (rewrite Pos2Z.inj_pow; apply gcd_odd_pow2; [exact Hodd | lia]).
  cbn [Qnum Qden]. destruct (pow2_even e) as [p' Hp'].
  rewrite Hp'. rewrite <- Hp', Pos2Z.inj_pow, Z.log2_pow2 by lia.
  reflexivity.
Qed.

(** The Number nearest to an integral Number is that Number. *)
Lemma round_integer (negative : bool) (p : Z) :
  0 < p -> p mod 2 ^ Z.max 0 (Z.log2 p - 52) = 0 -> p < 2 ^ 1024 ->
  Number.round negative (p # 1) = Int (Number.signed negative p).
Proof.
  intros Hpos Hmod Hlt. unfold Number.round.
  rewrite Qred_reduced by apply Z.gcd_1_r.
  cbn [Qnum Qden]. change (Z.log2 1) with 0. rewrite Z.sub_0_r.
  set (L := Z.log2 p) in *.
  assert (HL : 0 <= L) by apply Z.log2_nonneg.
  assert (Hp : 2 ^ L <= p) by (apply Z.log2_spec; lia).
  replace (p <=? 0) with false by (symmetry; apply Z.leb_gt; lia).
  rewrite (Z.max_r 0 L), (Z.max_l 0 (- L)) by lia.
  rewrite Z.pow_0_r, (Z.mul_1_l (2 ^ L)), (Z.mul_1_r p).
  apply Z.leb_le in Hp as Hp'. rewrite Hp'. clear Hp'.
  rewrite (Z.max_l (L - 52) (-1074)) by lia.
  set (u := L - 52) in *.
  assert (Hover : p * 2 ^ 1074 < 2 ^ 2098).
  { change 2098 with (1024 + 1074). rewrite Z.pow_add_r by lia.
    apply Z.mul_lt_mono_pos_r; [apply Z.pow_pos_nonneg; lia | exact Hlt]. }
  destruct (Z.le_gt_cases 0 u) as [Hu|Hu].
  - rewrite Z.max_r in Hmod by lia.
    rewrite (Z.max_l 0 (- u)), (Z.max_r 0 u) by lia.
    rewrite Z.pow_0_r, Z.mul_1_r, Z.mul_1_l, Hmod.
    assert (H2u : 0 < 2 ^ u) by (apply Z.pow_pos_nonneg; lia).
    replace (2 ^ u <? 2 * 0) with false by (symmetry; apply Z.ltb_ge; lia).
    replace (2 ^ u =? 2 * 0) with false by (symmetry; apply Z.eqb_neq; lia).
    cbn [orb andb].
    assert (Hdiv : p = p / 2 ^ u * 2 ^ u).
    { rewrite Z.mul_comm. apply Z.div_exact; lia. }
    set (m0 := p / 2 ^ u) in *.
    assert (Hm0 : 0 < m0) by nia.
    replace (m0 * 2 ^ (u + 1074)) with (p * 2 ^ 1074)
      by (rewrite Z.pow_add_r by lia; rewrite Hdiv at 1; ring).
    replace (2 ^ 2098 <=? p * 2 ^ 1074) with false
      by (symmetry; apply Z.leb_gt; exact Hover).
    replace (m0 =? 0) with false by (symmetry; apply Z.eqb_neq; lia).
    unfold Number.scaled.
    replace (0 <=? u) with true by (symmetry; apply Z.leb_le; lia).
    by rewrite <- Hdiv.
  - rewrite (Z.max_r 0 (- u)), (Z.max_l 0 u) by lia.
    rewrite Z.pow_0_r, Z.mul_1_l, Z.div_1_r, Z.mod_1_r.
    change (2 * 0) with 0. change (1 <? 0) with false.
    change (1 =? 0) with false. cbn [orb andb].
    set (m0 := p * 2 ^ (- u)).
    assert (Hm0 : 0 < m0)
      by (apply Z.mul_pos_pos; [lia | apply Z.pow_pos_nonneg; lia]).
    replace (m0 * 2 ^ (u + 1074)) with (p * 2 ^ 1074).
    2:{ unfold m0. rewrite <- Z.mul_assoc, <- Z.pow_add_r by lia.
        do 2 f_equal. lia. }
    replace (2 ^ 2098 <=? p * 2 ^ 1074) with false
      by (symmetry; apply Z.leb_gt; exact Hover).
    replace (m0 =? 0) with false by (symmetry; apply Z.eqb_neq; lia).
    unfold Number.scaled.
    replace (0 <=? u) with false by (symmetry; apply Z.leb_gt; lia).
    rewrite (Qred_complete _ (p # 1)).
    2:{ unfold Qeq. cbn [Qnum Qden]. rewrite Pos2Z.inj_pow.
        rewrite Z2Pos.id by lia. unfold m0. lia. }
    rewrite Qred_reduced by apply Z.gcd_1_r. reflexivity.
Qed.

Lemma same_eq (x y : JsNumber) : Number.same x y = true -> x = y.
Proof.
  destruct x, y; simpl; try discriminate; try reflexivity.
  - intros H. apply Bool.eqb_prop in H. by subst.
  - intros H%Z.eqb_eq. by subst.
  - intros [[H1 H2%Pos.eqb_eq]%andb_true_iff H3%Pos.eqb_eq]%andb_true_iff.
    apply Bool.eqb_prop in H1. by subst.
Qed.

Lemma same_refl (x : JsNumber) : Number.same x x = true.
Proof.
  destruct x as [|a| |z|a m e]; simpl; try reflexivity.
  - by destruct a.
  - apply Z.eqb_refl.
  - rewrite !Pos.eqb_refl. by destruct a.
Qed.

Lemma decimal_nonneg (s : N) (q : Z) :
  0 <= q -> Number.decimal s q = (Z.of_N s * 10 ^ q) # 1.
Proof.
  intros Hq. unfold Number.decimal.
  by replace (0 <=? q) with true by (symmetry; apply Z.leb_le; lia).
Qed.

Lemma decimal_neg (s : N) (q : Z) :
  q < 0 -> Number.decimal s q = Z.of_N s # Z.to_pos (10 ^ (- q)).
Proof.
  intros Hq. unfold Number.decimal.
  replace (0 <=? q) with false by (symmetry; apply Z.leb_gt; lia).
  f_equal. apply Pos2Z.inj. rewrite Pos2Z.inj_pow, !Z2Pos.id; [reflexivity| |lia].
  apply Z.pow_pos_nonneg; lia.
Qed.

(** Moving the decimal point. *)
Lemma decimal_scale (s : N) (q j : Z) :
  0 <= j ->
  (Number.decimal (s * 10 ^ Z.to_N j) q == Number.decimal s (q + j))%Q.
Proof.
  intros Hj.
  assert (Hs : Z.of_N (s * 10 ^ Z.to_N j) = Z.of_N s * 10 ^ j).
  { rewrite N2Z.inj_mul, N2Z.inj_pow, Z2N.id by lia. reflexivity. }
  assert (Hpos : forall a, 0 <= a -> 0 < 10 ^ a)
    by (intros a Ha; apply Z.pow_pos_nonneg; lia).
  destruct (Z.le_gt_cases 0 q) as [Hq|Hq].
  - rewrite !decimal_nonneg by lia. rewrite Hs.
    unfold Qeq. cbn [Qnum Qden]. rewrite Z.pow_add_r by lia. ring.
  - rewrite (decimal_neg _ q) by lia. rewrite Hs.
    destruct (Z.le_gt_cases 0 (q + j)) as [Hqj|Hqj].
    + rewrite decimal_nonneg by lia. unfold Qeq. cbn [Qnum Qden].
      rewrite Z2Pos.id by (apply Hpos; lia).
      rewrite Z.mul_1_r, <- Z.mul_assoc, <- Z.pow_add_r by lia.
      do 2 f_equal. lia.
    + rewrite decimal_neg by lia. unfold Qeq. cbn [Qnum Qden].
      rewrite !Z2Pos.id by (apply Hpos; lia).
      rewrite <- Z.mul_assoc, <- Z.pow_add_r by lia.
      do 2 f_equal. lia.
Qed.

Lemma strip_zeros_value (fuel : nat) (s : N) (q : Z) :
  (Number.decimal (fst (Number.strip_zeros fuel s q))
     (snd (Number.strip_zeros fuel s q)) == Number.decimal s q)%Q.
Proof.
  revert s q. induction fuel as [|fuel IH]; intros s q; cbn [Number.strip_zeros];
    [reflexivity|].
  destruct ((s =? 0)%N || negb (s mod 10 =? 0)%N) eqn:E; [reflexivity|].
  apply orb_false_iff in E as [_ E]. apply negb_false_iff, N.eqb_eq in E.
  rewrite IH. rewrite <- (decimal_scale (s / 10) q 1) by lia.
  replace (s / 10 * 10 ^ Z.to_N 1)%N with s; [reflexivity|].
  change (10 ^ Z.to_N 1)%N with 10%N.
  rewrite (N.div_mod s 10) at 1 by lia. lia.
Qed.

Lemma strip_zeros_nonzero (fuel : nat) (s : N) (q : Z) :
  s <> 0%N -> fst (Number.strip_zeros fuel s q) <> 0%N.
Proof.
  revert s q. induction fuel as [|fuel IH]; intros s q Hs; cbn [Number.strip_zeros];
    [exact Hs|].
  destruct ((s =? 0)%N || negb (s mod 10 =? 0)%N) eqn:E; [exact Hs|].
  apply orb_false_iff in E as [_ E]. apply negb_false_iff, N.eqb_eq in E.
  apply IH. intros H0.
  apply Hs. rewrite (N.div_mod s 10) by lia. lia.
Qed.

(** The Number nearest to the exact decimal expansion of a Number is that
    Number. *)
Lemma round_exact (x : JsNumber) :
  Number.regular x = true -> Number.is_zero x = false ->
  Number.round (Number.sign x)
    (Number.decimal (fst (Number.exact x)) (snd (Number.exact x))) = x.
Proof.
  destruct x as [| | |z|negative m e]; try done; cbn [Number.regular];
    intros Hd Hx.
  - cbn [Number.exact fst snd Number.sign].
    cbn [Number.is_double] in Hd.
    apply andb_true_iff in Hd as [Hmod%Z.eqb_eq Hlt%Z.ltb_lt].
    rewrite (round_Qeq _ _ (Z.abs z # 1)).
    2:{ rewrite decimal_nonneg by lia. rewrite N2Z.inj_abs_N.
        unfold Qeq. cbn [Qnum Qden]. rewrite Z.pow_0_r. ring. }
    rewrite round_integer; [|destruct z; [done|lia|lia]|exact Hmod|exact Hlt].
    f_equal. unfold Number.signed.
    destruct (Z.ltb_spec z 0); lia.
  - cbn [Number.exact fst snd Number.sign].
    rewrite (round_Qeq _ _ (Zpos m # 2 ^ e)); [by apply round_dyadic|].
    rewrite decimal_neg by lia. unfold Qeq. cbn [Qnum Qden].
    rewrite Z2Pos.id by (apply Z.pow_pos_nonneg; lia).
    rewrite Pos2Z.inj_pow, N2Z.inj_mul, N2Z.inj_pow. cbn [Z.of_N].
    rewrite Z.opp_involutive.
    change 10 with (5 * 2). rewrite Z.pow_mul_l. ring.
Qed.

Lemma candidate_valid (x : JsNumber) (n0 k : Z) (c : N * Z) :
  Number.candidate x n0 k = Some c ->
  Number.round (Number.sign x) (Number.decimal (fst c) (snd c)) = x.
Proof.
  unfold Number.candidate. intros H.
  repeat match type of H with
         | (if ?b then _ else _) = _ => destruct b eqn:?
         end; try discriminate; injection H as <-; cbn [fst snd].
  - apply andb_true_iff in Heqb as [Hv _]. by apply same_eq.
  - by apply same_eq.
Qed.

Lemma search_valid (fuel : nat) (x : JsNumber) (n0 k : Z) (c : N * Z) :
  Number.search fuel x n0 k = Some c ->
  Number.round (Number.sign x) (Number.decimal (fst c) (snd c)) = x.
Proof.
  revert k. induction fuel as [|fuel IH]; intros k; cbn [Number.search];
    [discriminate|].
  destruct (Number.candidate x n0 k) as [c'|] eqn:E.
  - intros [= <-]. by eapply candidate_valid.
  - apply IH.
Qed.

(** The digits Number::toString writes round to the Number. *)
Lemma shortest_round (x : JsNumber) :
  Number.regular x = true -> Number.is_zero x = false ->
  Number.round (Number.sign x)
    (Number.decimal (fst (Number.shortest x)) (snd (Number.shortest x))) = x /\
  fst (Number.shortest x) <> 0%N.
Proof.
  intros Hd Hx. unfold Number.shortest.
  set (c := match Number.search _ _ _ _ with Some c => c | None => Number.exact x end).
  assert (Hc : Number.round (Number.sign x) (Number.decimal (fst c) (snd c)) = x).
  { unfold c. destruct (Number.search _ _ _ _) as [c'|] eqn:E.
    - by eapply search_valid.
    - by apply round_exact. }
  unfold Number.normal. split.
  - rewrite (round_Qeq _ _ _ (strip_zeros_value _ _ _)). exact Hc.
  - apply strip_zeros_nonzero. intros H0. rewrite H0 in Hc.
    assert (Hz : Number.round (Number.sign x) (Number.decimal 0 (snd c))
                 = Number.zero (Number.sign x)).
    { unfold Number.round.
      rewrite (Qred_complete _ (0 # 1)); [reflexivity|].
      unfold Number.decimal. destruct (0 <=? snd c); reflexivity. }
    rewrite Hz in Hc. unfold Number.zero in Hc.
    destruct x as [| | |[|p|p]|negative m e];
      [discriminate Hd | discriminate Hd | discriminate Hd | discriminate Hx
      | | |]; destruct (Number.sign _); discriminate Hc.
Qed.

End NumberFacts.

(** ** JSON: what [JSON.stringify] writes, [JSON.parse] reads back *)

Section JSONFacts.
Import JSON.

Lemma hex_value_lower (d : N) : d < 16 -> hex_value (hex_lower d) = Some d.
Proof.
  intros Hd. unfold hex_value, hex_lower, URI.DecimalDigit, URI.between.
  destruct (N.ltb_spec d 10).
  - replace ((48 <=? 48 + d) && (48 + d <=? 57)) with true
      by (symmetry; apply andb_true_iff; split; apply N.leb_le; lia).
    f_equal. lia.
  - replace ((48 <=? 87 + d) && (87 + d <=? 57)) with false
      by (symmetry; apply andb_false_iff; right; apply N.leb_gt; lia).
    replace ((97 <=? 87 + d) && (87 + d <=? 102)) with true
      by (symmetry; apply andb_true_iff; split; apply N.leb_le; lia).
    f_equal. lia.
Qed.

Lemma hex4_UnicodeEscape (c : N) :
  c < 65536 ->
  hex4 (hex_lower (c / 4096)) (hex_lower ((c / 256) mod 16))
       (hex_lower ((c / 16) mod 16)) (hex_lower (c mod 16)) = Some c.
Proof.
  intros Hc. unfold hex4.
  rewrite !hex_value_lower.
  - f_equal. div_lia.
  - apply N.mod_lt; lia.
  - apply N.mod_lt; lia.
  - apply N.mod_lt; lia.
  - apply N.Div0.div_lt_upper_bound; lia.
Qed.

Lemma between_spec (lo hi c : N) :
  URI.between lo hi c = true <-> lo <= c <= hi.
Proof. unfold URI.between. rewrite andb_true_iff, !N.leb_le. tauto. Qed.

Lemma parse_chars_literal (c : N) (r : jsstring) :
  c <> 34 -> c <> 92 -> 32 <= c ->
  parse_chars (c :: r) = let* p := parse_chars r in Ok (c :: fst p, snd p).
Proof.
  intros H1 H2 H3. simpl.
  apply N.eqb_neq in H1, H2. rewrite H1, H2.
  by replace (c <? 32) with false by (symmetry; apply N.ltb_ge; lia).
Qed.

Lemma parse_chars_unicode (c : N) (r : jsstring) :
  c < 65536 ->
  parse_chars (UnicodeEscape c ++ r) =
  let* p := parse_chars r in Ok (c :: fst p, snd p).
Proof.
  intros Hc. unfold UnicodeEscape. cbn [app parse_chars].
  change (92 =? 34) with false. change (92 =? 92) with true.
  change (117 =? 117) with true. cbv iota.
  by rewrite hex4_UnicodeEscape.
Qed.

Lemma single_escape_some (c e : N) :
  single_escape c = Some e -> (e =? 117) = false /\ unescape e = Some c.
Proof.
  unfold single_escape.
  repeat match goal with
         | |- context [c =? ?k] =>
             destruct (N.eqb_spec c k) as [->|_];
             [intros [= <-]; split; reflexivity|]
         end.
  discriminate.
Qed.

Lemma single_escape_none (c : N) :
  single_escape c = None -> c <> 34 /\ c <> 92.
Proof.
  unfold single_escape. intros H.
  split; intros ->; vm_compute in H; discriminate.
Qed.

Lemma parse_chars_single (c e : N) (r : jsstring) :
  single_escape c = Some e ->
  parse_chars (92 :: e :: r) =
  let* p := parse_chars r in Ok (c :: fst p, snd p).
Proof.
  intros H. apply single_escape_some in H as [H1 H2].
  cbn [parse_chars]. change (92 =? 34) with false. change (92 =? 92) with true.
  cbv iota. by rewrite H1, H2.
Qed.

(** A quoted string is read back, whatever follows the closing quote. *)
Lemma parse_chars_quote (s rest : jsstring) :
  parse_chars (quote_units s ++ 34 :: rest) = Ok (s, rest).
Proof.
  remember (length s) as n eqn:Hn.
  assert (Hle : (length s <= n)%nat) by lia. clear Hn.
  revert s Hle. induction n as [|n IH]; intros [|c r] Hle; simpl in Hle;
    try lia; try reflexivity.
  assert (IHr : parse_chars (quote_units r ++ 34 :: rest) = Ok (r, rest))
    by (apply IH; lia).
  cbn [quote_units].
  destruct (single_escape c) as [e|] eqn:He.
  { cbn [app]. rewrite (parse_chars_single c e) by exact He.
    by rewrite IHr. }
  apply single_escape_none in He as [H34 H92].
  destruct (N.ltb_spec c 32) as [Hlt|Hge].
  { rewrite <- app_assoc, parse_chars_unicode by lia. by rewrite IHr. }
  destruct (URI.is_leading_surrogate c) eqn:Hlead.
  { apply between_spec in Hlead.
    destruct r as [|d r'].
    - rewrite parse_chars_unicode by lia. reflexivity.
    - destruct (URI.is_trailing_surrogate d) eqn:Htrail.
      + apply between_spec in Htrail. cbn [app].
        rewrite parse_chars_literal by lia.
        rewrite parse_chars_literal by lia.
        rewrite IH by (simpl in Hle; lia). reflexivity.
      + rewrite <- app_assoc, parse_chars_unicode by lia. by rewrite IHr. }
  destruct (URI.is_trailing_surrogate c) eqn:Htrail.
  { apply between_spec in Htrail.
    rewrite <- app_assoc, parse_chars_unicode by lia. by rewrite IHr. }
  cbn [app]. rewrite parse_chars_literal by lia. by rewrite IHr.
Qed.

(** ** Numbers *)

Lemma DecimalDigit_spec (c : N) : URI.DecimalDigit c = true <-> 48 <= c <= 57.
Proof. apply between_spec. Qed.

Lemma digits_value_snoc (ds : jsstring) (d : N) :
  digits_value (ds ++ [d]) = digits_value ds * 10 + (d - 48).
Proof. unfold digits_value. by rewrite fold_left_app. Qed.

Lemma digits_spec (fuel : nat) (n : N) :
  n < 2 ^ N.of_nat fuel ->
  Forall (fun c => URI.DecimalDigit c = true) (Number.decimal_digits fuel n) /\
  digits_value (Number.decimal_digits fuel n) = n /\
  exists d ds, Number.decimal_digits fuel n = d :: ds /\
    (d = 48 -> n = 0 /\ ds = []).
Proof.
  revert n. induction fuel as [|fuel IH]; intros n Hn.
  - simpl in Hn. assert (n = 0) as -> by lia. simpl.
    split; [by repeat constructor|]. split; [reflexivity|].
    exists 48, []. by repeat split.
  - cbn [Number.decimal_digits]. destruct (N.ltb_spec n 10) as [Hlt|Hge].
    + split; [constructor; [apply DecimalDigit_spec; lia | constructor]|].
      split; [unfold digits_value; simpl; lia|].
      exists (48 + n), []. split; [reflexivity|]. intros ?. split; [lia|reflexivity].
    + assert (Hdiv : n / 10 < 2 ^ N.of_nat fuel).
      { rewrite Nat2N.inj_succ, N.pow_succ_r' in Hn.
        apply N.Div0.div_lt_upper_bound.
        revert Hn. generalize (2 ^ N.of_nat fuel). intros X HX. lia. }
      destruct (IH _ Hdiv) as (Hall & Hval & d & ds & Heq & Hhead).
      split; [|split].
      * apply Forall_app. split; [exact Hall|].
        constructor; [|constructor]. apply DecimalDigit_spec.
        div_lia.
      * rewrite digits_value_snoc, Hval.
        div_lia.
      * rewrite Heq. exists d, (ds ++ [48 + n mod 10]). split; [reflexivity|].
        intros Hd. destruct (Hhead Hd) as [H0 _].
        div_lia.
Qed.

Lemma size_bound (n : N) : n < 2 ^ N.of_nat (N.to_nat (N.size n)).
Proof. rewrite N2Nat.id. apply N.size_gt. Qed.

Lemma scan_digits_app (ds rest : jsstring) :
  Forall (fun c => URI.DecimalDigit c = true) ds ->
  match rest with c :: _ => URI.DecimalDigit c = false | [] => True end ->
  scan_digits (ds ++ rest) = (ds, rest).
Proof.
  intros Hds Hrest. induction Hds as [|c ds Hc _ IH]; cbn [app scan_digits].
  - destruct rest as [|c r]; [reflexivity|]. cbn [scan_digits]. by rewrite Hrest.
  - by rewrite Hc, IH.
Qed.

Lemma digits_facts (n : N) :
  Forall (fun c => URI.DecimalDigit c = true) (Number.digits n) /\
  digits_value (Number.digits n) = n /\
  exists d ds, Number.digits n = d :: ds /\ (d = 48 -> n = 0 /\ ds = []).
Proof. apply digits_spec, size_bound. Qed.

Lemma digits_value_app (a b : jsstring) :
  digits_value (a ++ b) =
  digits_value a * 10 ^ N.of_nat (length b) + digits_value b.
Proof.
  induction b as [|c b IH] using rev_ind.
  - rewrite app_nil_r. simpl. unfold digits_value at 3. simpl. lia.
  - rewrite app_assoc, !digits_value_snoc, IH, length_app. cbn [length].
    rewrite Nat.add_1_r, Nat2N.inj_succ, N.pow_succ_r'. lia.
Qed.

Lemma digits_value_zeros (j : nat) : digits_value (repeat 48 j) = 0.
Proof.
  induction j as [|j IH]; [reflexivity|].
  change (repeat 48 (S j)) with ([48] ++ repeat 48 j).
  rewrite digits_value_app, IH. reflexivity.
Qed.

Lemma Forall_digit_zeros (j : nat) : Forall (fun c => URI.DecimalDigit c = true) (repeat 48 j).
Proof. induction j; constructor; [reflexivity | assumption]. Qed.

Lemma scan_fraction_none (r : jsstring) :
  match r with c :: _ => c <> 46 | [] => True end ->
  scan_fraction r = Some ([], r).
Proof.
  destruct r as [|c r]; [reflexivity|]. intros Hc. cbn.
  by apply N.eqb_neq in Hc as ->.
Qed.

Lemma scan_fraction_digits (f r : jsstring) :
  Forall (fun c => URI.DecimalDigit c = true) f -> f <> [] -> no_digit r ->
  scan_fraction (46 :: f ++ r) = Some (f, r).
Proof.
  intros Hf Hne Hr. unfold scan_fraction.
  change (46 =? 46) with true. cbv iota.
  rewrite scan_digits_app by assumption. cbn [fst].
  by destruct f.
Qed.

Lemma scan_exponent_none (r : jsstring) :
  match r with c :: _ => c <> 101 /\ c <> 69 | [] => True end ->
  scan_exponent r = Some (0%Z, r).
Proof.
  destruct r as [|c r]; [reflexivity|]. intros [H1 H2]. cbn.
  apply N.eqb_neq in H1 as ->. by apply N.eqb_neq in H2 as ->.
Qed.

Lemma scan_exponent_digits (e : Z) (r : jsstring) :
  no_digit r ->
  scan_exponent
    (101 :: (if (e <? 0)%Z then 45 else 43) :: Number.digits (Z.abs_N e) ++ r)
  = Some (e, r).
Proof.
  intros Hr. destruct (digits_facts (Z.abs_N e)) as (Hall & Hval & d & ds & Heq & _).
  unfold scan_exponent. change (101 =? 101) with true. cbn [orb].
  assert (Hsigned : ((if (e <? 0)%Z then 45 else 43) =? 45)
                    || ((if (e <? 0)%Z then 45 else 43) =? 43) = true)
    by (by destruct (e <? 0)%Z).
  rewrite Hsigned. cbn [tail].
  rewrite scan_digits_app by assumption. cbn [fst snd].
  rewrite Heq at 1. rewrite Hval. f_equal. f_equal.
  unfold Number.signed. destruct (Z.ltb_spec e 0); simpl; lia.
Qed.

Lemma parse_number_parts (negative : bool) (d : N)
  (ds frac r0 r1 rest : jsstring) (e : Z) :
  Forall (fun c => URI.DecimalDigit c = true) (d :: ds) ->
  (d = 48 -> ds = []) -> no_digit r0 ->
  scan_fraction r0 = Some (frac, r1) ->
  scan_exponent r1 = Some (e, rest) ->
  parse_number ((if negative then [45] else []) ++ (d :: ds) ++ r0) =
  Ok (JsNum (Number.round negative
               (Number.decimal (digits_value ((d :: ds) ++ frac))
                  (e - Z.of_nat (length frac)))), rest).
Proof.
  intros Hall Hhead Hr0 Hf He.
  pose proof (scan_digits_app _ r0 Hall Hr0) as Hscan.
  assert (Hd : 48 <= d <= 57).
  { apply DecimalDigit_spec. by inversion Hall. }
  assert (Hlead : (d =? 48) && negb match ds with [] => true | _ => false end = false).
  { destruct (N.eqb_spec d 48) as [H48|]; [|reflexivity].
    by rewrite (Hhead H48). }
  unfold parse_number. destruct negative; cbn [app tail].
  - change (45 =? 45) with true. cbv iota. cbn [tail].
    change (d :: ds ++ r0) with ((d :: ds) ++ r0).
    rewrite Hscan. cbn [fst snd]. rewrite Hlead, Hf, He. reflexivity.
  - replace (d =? 45) with false by (symmetry; apply N.eqb_neq; lia).
    change (d :: ds ++ r0) with ((d :: ds) ++ r0).
    rewrite Hscan. cbn [fst snd]. rewrite Hlead, Hf, He. reflexivity.
Qed.

Lemma delimited_facts (rest : jsstring) :
  delimited rest ->
  no_digit rest /\
  scan_fraction rest = Some ([], rest) /\
  scan_exponent rest = Some (0%Z, rest).
Proof. destruct rest as [|c r]; [done|]. by intros [-> | [-> | ->]]. Qed.

(** The text Number::toString writes for the digits [s] and the exponent
    [q] is read as the Number nearest to s * 10^q. *)
Lemma parse_number_format (negative : bool) (s : N) (q : Z) (rest : jsstring) :
  s <> 0 -> delimited rest ->
  parse_number
    ((if negative then [45] else []) ++ Number.format s q ++ rest) =
  Ok (JsNum (Number.round negative (Number.decimal s q)), rest).
Proof.
  intros Hs Hrest.
  destruct (delimited_facts _ Hrest) as (Hnd & Hnf & Hne).
  destruct (digits_facts s) as (Hall & Hval & d & ds & Heq & Hhead).
  assert (Hd48 : d <> 48) by (intros H; by destruct (Hhead H)).
  unfold Number.format. cbv zeta. rewrite Heq.
  set (k := Z.of_nat (length (d :: ds))).
  assert (Hk : (1 <= k)%Z) by (unfold k; simpl; lia).
  rewrite Heq in Hall, Hval.
  destruct ((0 <? k + q)%Z && (k + q <=? 21)%Z) eqn:Hfix.
  { apply andb_true_iff in Hfix as [Hn0%Z.ltb_lt Hn21%Z.leb_le].
    destruct (Z.leb_spec k (k + q)) as [Hkn|Hkn].
    - (* digits and zeros *)
      etrans.
      { apply (parse_number_parts negative d
                 (ds ++ repeat 48 (Z.to_nat (k + q - k))) [] rest rest rest 0%Z);
          [|by intros ?|exact Hnd|exact Hnf|exact Hne].
        change (d :: ds ++ repeat 48 (Z.to_nat (k + q - k)))
          with ((d :: ds) ++ repeat 48 (Z.to_nat (k + q - k))).
        apply Forall_app. split; [exact Hall | apply Forall_digit_zeros]. }
      apply f_equal, (f_equal (fun n => (JsNum n, rest))), round_Qeq.
      rewrite app_nil_r.
      change (d :: ds ++ repeat 48 (Z.to_nat (k + q - k)))
        with ((d :: ds) ++ repeat 48 (Z.to_nat (k + q - k))).
      rewrite digits_value_app, digits_value_zeros, Hval, repeat_length.
      rewrite N.add_0_r. cbn [length Z.of_nat Z.sub].
      replace (N.of_nat (Z.to_nat (k + q - k))) with (Z.to_N q) by lia.
      rewrite decimal_scale by lia. reflexivity.
    - (* a decimal point inside the digits *)
      destruct (Z.to_nat (k + q)) as [|j] eqn:Hj; [lia|].
      cbn [take drop]. rewrite <- app_assoc. cbn [app].
      assert (Hlen : (j < length ds)%nat) by (unfold k in *; simpl in *; lia).
      apply Forall_cons in Hall as [Hd Hds].
      etrans.
      { apply (parse_number_parts negative d (take j ds) (drop j ds)
                 (46 :: drop j ds ++ rest) rest rest 0%Z);
          [|by intros ?|reflexivity| |exact Hne].
        - constructor; [exact Hd | by apply Forall_take].
        - apply scan_fraction_digits; [by apply Forall_drop| |exact Hnd].
          intros H0. apply (f_equal length) in H0.
          rewrite length_drop in H0. simpl in H0. lia. }
      apply f_equal, (f_equal (fun n => (JsNum n, rest))).
      cbn [app]. rewrite take_drop, Hval. do 2 f_equal.
      rewrite length_drop. unfold k in *. simpl in *. lia. }
  destruct ((-6 <? k + q)%Z && (k + q <=? 0)%Z) eqn:Hsmall.
  { (* zeros after the decimal point *)
    apply andb_true_iff in Hsmall as [Hn6%Z.ltb_lt Hn0%Z.leb_le].
    cbn [app].
    etrans.
    { apply (parse_number_parts negative 48 []
               (repeat 48 (Z.to_nat (- (k + q))) ++ d :: ds)
               (46 :: (repeat 48 (Z.to_nat (- (k + q))) ++ d :: ds) ++ rest)
               rest rest 0%Z);
        [by repeat constructor|done|reflexivity| |exact Hne].
      apply scan_fraction_digits; [|by destruct (repeat _ _)|exact Hnd].
      apply Forall_app. split; [apply Forall_digit_zeros | exact Hall]. }
    apply f_equal, (f_equal (fun n => (JsNum n, rest))).
    rewrite !digits_value_app, digits_value_zeros, Hval.
    replace (digits_value [48]) with 0%N by reflexivity.
    rewrite N.mul_0_l, !N.add_0_l. do 2 f_equal.
    rewrite length_app, repeat_length. unfold k in *. simpl in *. lia. }
  (* exponent notation *)
  pose (ex := 101 :: (if (k + q - 1 <? 0)%Z then 45 else 43)
                  :: Number.digits (Z.abs_N (k + q - 1)) ++ rest).
  assert (Hex : scan_exponent ex = Some ((k + q - 1)%Z, rest))
    by (by apply scan_exponent_digits).
  destruct ds as [|d2 ds].
  - cbn [app].
    etrans.
    { apply (parse_number_parts negative d [] [] ex ex rest (k + q - 1)%Z);
        [exact Hall|done|reflexivity|reflexivity|exact Hex]. }
    apply f_equal, (f_equal (fun n => (JsNum n, rest))).
    rewrite app_nil_r, Hval. do 2 f_equal. unfold k. simpl. lia.
  - cbn [app]. rewrite <- app_assoc. cbn [app].
    apply Forall_cons in Hall as [Hd Hds].
    etrans.
    { apply (parse_number_parts negative d [] (d2 :: ds)
               (46 :: (d2 :: ds) ++ ex) ex rest (k + q - 1)%Z);
        [by repeat constructor|done|reflexivity| |exact Hex].
      by apply scan_fraction_digits. }
    apply f_equal, (f_equal (fun n => (JsNum n, rest))).
    change ([d] ++ d2 :: ds) with (d :: d2 :: ds). rewrite Hval.
    do 2 f_equal. unfold k. simpl. lia.
Qed.

(** The text of a finite Number is read back as that Number. *)
Lemma parse_number_toString (x : JsNumber) (rest : jsstring) :
  Number.regular x = true -> delimited rest ->
  parse_number (Number.toString x ++ rest) = Ok (JsNum x, rest).
Proof.
  intros Hx Hrest.
  destruct (delimited_facts _ Hrest) as (Hnd & Hnf & Hne).
  assert (Hz : parse_number (js "0" ++ rest) = Ok (JsNum (Int 0), rest)).
  { apply (parse_number_parts false 48 [] [] rest rest rest 0%Z);
      [by repeat constructor|done|exact Hnd|exact Hnf|exact Hne]. }
  assert (Hnz : Number.is_zero x = false ->
                parse_number
                  ((if Number.sign x then [45] else []) ++
                   Number.format (fst (Number.shortest x))
                     (snd (Number.shortest x)) ++ rest) = Ok (JsNum x, rest)).
  { intros Hx'. destruct (shortest_round x Hx Hx') as [Hr Hs].
    rewrite parse_number_format by assumption. by rewrite Hr. }
  destruct x as [| | |[|p|p]|negative m e];
    [discriminate Hx | discriminate Hx | discriminate Hx | exact Hz | | |];
    unfold Number.toString; cbv zeta; rewrite <- app_assoc; by apply Hnz.
Qed.

Lemma format_head (s : N) (q : Z) :
  exists c t, Number.format s q = c :: t /\ 48 <= c <= 57.
Proof.
  destruct (digits_facts s) as (Hall & _ & d & ds & Heq & _).
  rewrite Heq in Hall. apply Forall_cons in Hall as [Hd%DecimalDigit_spec _].
  unfold Number.format. cbv zeta. rewrite Heq.
  set (k := Z.of_nat (length (d :: ds))).
  destruct ((0 <? k + q)%Z && (k + q <=? 21)%Z) eqn:Hfix.
  { apply andb_true_iff in Hfix as [Hn0%Z.ltb_lt _].
    destruct (k <=? k + q)%Z; [by eexists _, _|].
    destruct (Z.to_nat (k + q)) as [|j] eqn:Hj; [lia|].
    by eexists _, _. }
  destruct ((-6 <? k + q)%Z && (k + q <=? 0)%Z);
    [eexists _, _; split; [reflexivity|lia]|].
  destruct ds; by eexists _, _.
Qed.

Lemma toString_head (x : JsNumber) :
  Number.regular x = true ->
  exists c t, Number.toString x = c :: t /\ (c = 45 \/ 48 <= c <= 57).
Proof.
  assert (H : forall y,
             exists c t,
               (if Number.sign y then [45] else []) ++
               Number.format (fst (Number.shortest y))
                 (snd (Number.shortest y))
               = c :: t /\ (c = 45 \/ 48 <= c <= 57)).
  { intros y.
    destruct (Number.sign y); [eexists _, _; split; [reflexivity|by left]|].
    destruct (format_head (fst (Number.shortest y)) (snd (Number.shortest y)))
      as (c & t & -> & Hc).
    exists c, t. split; [reflexivity | by right]. }
  destruct x as [| | |[|p|p]|negative m e]; try done; intros _;
    [exists 48, []; split; [reflexivity | right; lia] | apply H ..].
Qed.

(** ** Values *)

Lemma Serialize_array (l : list JsValue) :
  SerializeJSONProperty (JsArray l) =
  Some (91 :: join (List.map element_text l) ++ [93]).
Proof. reflexivity. Qed.

Lemma Serialize_object (l : list (jsstring * JsValue)) :
  SerializeJSONProperty (JsObject l) =
  Some (123 :: join (member_texts l) ++ [125]).
Proof. reflexivity. Qed.

Lemma JsValue_ind' (P : JsValue -> Prop) :
  P JsUndefined -> P JsNull -> (forall b, P (JsBool b)) ->
  (forall n, P (JsNum n)) -> (forall s, P (JsStr s)) ->
  (forall l, Forall P l -> P (JsArray l)) ->
  (forall l, Forall (fun kv => P (snd kv)) l -> P (JsObject l)) ->
  forall v, P v.
Proof.
  intros Hu Hn Hb Hnum Hs Ha Ho. fix IH 1. intros [| |b|n|s|l|l].
  - exact Hu.
  - exact Hn.
  - apply Hb.
  - apply Hnum.
  - apply Hs.
  - apply Ha. induction l as [|x l IHl]; constructor; [apply IH | exact IHl].
  - apply Ho. induction l as [|[k x] l IHl]; constructor; [apply IH | exact IHl].
Qed.

Lemma skip_ws_head (c : N) (r : jsstring) :
  is_ws c = false -> skip_ws (c :: r) = c :: r.
Proof. intros H. cbn [skip_ws]. by rewrite H. Qed.

Lemma opens_value_facts (c : N) :
  opens_value c -> is_ws c = false /\ c <> 93 /\ c <> 125.
Proof.
  unfold opens_value. intros H. repeat split.
  - unfold is_ws. rewrite !orb_false_iff, !N.eqb_neq. lia.
  - lia.
  - lia.
Qed.

Lemma parse_value_number (fuel : nat) (c : N) (r : jsstring) :
  c = 45 \/ 48 <= c <= 57 ->
  parse_value (S fuel) (c :: r) = parse_number (c :: r).
Proof.
  intros Hc. cbn [parse_value].
  rewrite skip_ws_head
    by (unfold is_ws; rewrite !orb_false_iff, !N.eqb_neq; lia).
  repeat match goal with
         | |- context [c =? ?k] =>
             destruct (N.eqb_spec c k) as [?|_]; [lia|]
         end.
  reflexivity.
Qed.

Lemma join_cons2 (a b : jsstring) (l : list jsstring) :
  join (a :: b :: l) = a ++ 44 :: join (b :: l).
Proof. reflexivity. Qed.

Lemma parse_elements_join (x : JsValue) (l : list JsValue) :
  Forall reads_back (x :: l) -> forallb representable (x :: l) = true ->
  (elements_weight (x :: l)
     <= S (length (join (List.map element_text (x :: l)))))%nat /\
  (exists c t', join (List.map element_text (x :: l)) = c :: t' /\
                opens_value c) /\
  forall fuel rest, (elements_weight (x :: l) <= fuel)%nat ->
    parse_elements fuel (join (List.map element_text (x :: l)) ++ 93 :: rest)
    = Ok (x :: l, rest).
Proof.
  revert x. induction l as [|y l IH]; intros x Hall Hrep.
  - apply Forall_cons in Hall as [Hx _].
    cbn [forallb] in Hrep. apply andb_true_iff in Hrep as [Hrx _].
    destruct (Hx Hrx) as (t & Hser & Hlen & Hhead & Hparse).
    cbn [List.map join]. unfold element_text. rewrite Hser.
    split; [cbn [elements_weight fold_right]; lia|]. split; [exact Hhead|].
    intros fuel rest Hfuel. cbn [elements_weight fold_right] in Hfuel.
    destruct fuel as [|fuel]; [lia|]. cbn [parse_elements].
    rewrite Hparse by (cbn [delimited]; first [lia | tauto]).
    reflexivity.
  - apply Forall_cons in Hall as [Hx Hall].
    cbn [forallb] in Hrep. apply andb_true_iff in Hrep as [Hrx Hrep].
    destruct (Hx Hrx) as (t & Hser & Hlen & Hhead & Hparse).
    destruct (IH y Hall Hrep) as (IHlen & _ & IHparse).
    cbn [List.map]. rewrite join_cons2.
    change (element_text y :: List.map element_text l)
      with (List.map element_text (y :: l)) in *.
    unfold element_text at 1 3 5. rewrite Hser.
    split; [|split].
    + change (elements_weight (x :: y :: l))
        with (S (weight x + elements_weight (y :: l))).
      rewrite length_app. cbn [length]. lia.
    + destruct Hhead as (c & t' & -> & Hc). by exists c, (t' ++ 44 :: join (List.map element_text (y :: l))).
    + intros fuel rest Hfuel.
      change (elements_weight (x :: y :: l))
        with (S (weight x + elements_weight (y :: l))) in Hfuel.
      destruct fuel as [|fuel]; [lia|]. cbn [parse_elements].
      rewrite <- app_assoc. cbn [app].
      rewrite Hparse by (cbn [delimited]; first [lia | tauto]).
      cbn [bind fst snd]. rewrite skip_ws_head by reflexivity.
      change (44 =? 44) with true. cbv iota.
      rewrite IHparse by lia. reflexivity.
Qed.

Lemma includes_elem (l : list jsstring) (k : jsstring) :
  includes l k = true <-> k ∈ l.
Proof.
  unfold includes. rewrite existsb_exists. split.
  - intros (x & Hx & E). apply str_eqb_eq in E as ->. by apply list_elem_of_In.
  - intros Hk. exists k. split; [by apply list_elem_of_In | apply str_eqb_refl].
Qed.

Lemma distinct_NoDup (l : list jsstring) : distinct l = true <-> NoDup l.
Proof.
  induction l as [|k l IH]; simpl.
  - split; [constructor | reflexivity].
  - rewrite andb_true_iff, negb_true_iff, IH, NoDup_cons.
    rewrite <- includes_elem. destruct (includes l k); intuition congruence.
Qed.

Lemma set_property_fresh {V} (o : object V) (k : jsstring) (v : V) :
  k ∉ List.map fst o -> set_property o k v = o ++ [(k, v)].
Proof.
  induction o as [|[k' v'] o IH]; simpl; [reflexivity|].
  intros Hk. apply not_elem_of_cons in Hk as [Hne Hk].
  rewrite str_eqb_neq by congruence. by rewrite IH.
Qed.

Lemma member_text_app (k t r : jsstring) :
  (QuoteJSONString k ++ 58 :: t) ++ r =
  34 :: quote_units k ++ 34 :: 58 :: t ++ r.
Proof.
  unfold QuoteJSONString. cbn [app]. by rewrite <- !app_assoc.
Qed.

Lemma parse_members_member (fuel : nat) (k r : jsstring)
  (acc : object JsValue) :
  parse_members (S fuel) (34 :: quote_units k ++ 34 :: 58 :: r) acc =
  let* v := parse_value fuel r in
  match skip_ws (snd v) with
  | [] => Throw SyntaxError
  | e :: r2 =>
      if e =? 44 then parse_members fuel r2 (set_property acc k (fst v))
      else if e =? 125 then Ok (set_property acc k (fst v), r2)
      else Throw SyntaxError
  end.
Proof.
  cbn [parse_members]. rewrite skip_ws_head by reflexivity.
  change (34 =? 34) with true. cbv iota.
  rewrite parse_chars_quote. cbn [bind fst snd].
  rewrite skip_ws_head by reflexivity. reflexivity.
Qed.

Lemma parse_members_join (kx : jsstring * JsValue)
  (l : list (jsstring * JsValue)) :
  Forall (fun kv => reads_back (snd kv)) (kx :: l) ->
  forallb (fun kv => representable (snd kv)) (kx :: l) = true ->
  (members_weight (kx :: l)
     <= S (length (join (member_texts (kx :: l)))))%nat /\
  (exists m ms, member_texts (kx :: l) = (34 :: m) :: ms) /\
  forall fuel rest acc, (members_weight (kx :: l) <= fuel)%nat ->
    NoDup (List.map fst (acc ++ kx :: l)) ->
    parse_members fuel (join (member_texts (kx :: l)) ++ 125 :: rest) acc
    = Ok (acc ++ kx :: l, rest).
Proof.
  revert kx. induction l as [|ky l IH]; intros [k x] Hall Hrep.
  - apply Forall_cons in Hall as [Hx _]. cbn [snd] in Hx.
    cbn [forallb snd] in Hrep. apply andb_true_iff in Hrep as [Hrx _].
    destruct (Hx Hrx) as (t & Hser & Hlen & Hhead & Hparse).
    cbn [member_texts]. rewrite Hser. cbn [join].
    split; [|split].
    + cbn [members_weight fold_right snd]. rewrite length_app. cbn [length]. lia.
    + by eexists _, _.
    + intros fuel rest acc Hfuel Hnd.
      cbn [members_weight fold_right snd] in Hfuel.
      destruct fuel as [|fuel]; [lia|].
      rewrite member_text_app, parse_members_member.
      rewrite Hparse by (cbn [delimited]; first [lia | tauto]).
      cbn [bind fst snd]. rewrite skip_ws_head by reflexivity.
      change (125 =? 44) with false. change (125 =? 125) with true. cbv iota.
      rewrite set_property_fresh; [reflexivity|].
      rewrite map_app in Hnd. apply NoDup_app in Hnd as (_ & Hd & _).
      intros Hin. apply (Hd k Hin). cbn. left.
  - apply Forall_cons in Hall as [Hx Hall]. cbn [snd] in Hx.
    cbn [forallb snd] in Hrep. apply andb_true_iff in Hrep as [Hrx Hrep].
    destruct (Hx Hrx) as (t & Hser & Hlen & Hhead & Hparse).
    destruct (IH ky Hall Hrep) as (IHlen & (m & ms & IHm) & IHparse).
    cbn [member_texts]. rewrite Hser.
    change (match ky with (k0, x0) => _ end) with (member_texts (ky :: l)) in *.
    split; [|split].
    + rewrite IHm, join_cons2, <- IHm.
      change (members_weight ((k, x) :: ky :: l))
        with (S (weight x + members_weight (ky :: l))).
      rewrite !length_app. cbn [length]. lia.
    + by eexists _, _.
    + intros fuel rest acc Hfuel Hnd.
      change (members_weight ((k, x) :: ky :: l))
        with (S (weight x + members_weight (ky :: l))) in Hfuel.
      destruct fuel as [|fuel]; [lia|].
      rewrite IHm, join_cons2, <- IHm.
      rewrite <- app_assoc. cbn [app].
      rewrite member_text_app, parse_members_member.
      rewrite Hparse by (cbn [delimited]; first [lia | tauto]).
      cbn [bind fst snd]. rewrite skip_ws_head by reflexivity.
      change (44 =? 44) with true. cbv iota.
      rewrite set_property_fresh.
      * rewrite IHparse; [by rewrite <- app_assoc | lia |].
        by rewrite <- app_assoc.
      * rewrite map_app in Hnd. apply NoDup_app in Hnd as (_ & Hd & _).
        intros Hin. apply (Hd k Hin). cbn. left.
Qed.

Lemma reads_back_all (v : JsValue) : reads_back v.
Proof.
  induction v as [| |b|n|s|l IH|l IH] using JsValue_ind'; intros Hrep.
  - discriminate.
  - exists (js "null"). split; [reflexivity|]. split; [simpl; lia|].
    split; [eexists _, _; split; [reflexivity | unfold opens_value; tauto]|].
    intros [|fuel] rest Hfuel _; [simpl in Hfuel; lia | reflexivity].
  - exists (if b then js "true" else js "false").
    split; [reflexivity|]. split; [destruct b; simpl; lia|].
    split; [destruct b; eexists _, _; (split; [reflexivity | unfold opens_value; tauto])|].
    intros [|fuel] rest Hfuel _; [simpl in Hfuel; lia |].
    destruct b; reflexivity.
  - cbn [representable] in Hrep.
    exists (Number.toString n).
    split; [by destruct n|].
    destruct (toString_head n Hrep) as (c & t & Heq & Hc).
    split; [rewrite Heq; simpl; lia|].
    split; [exists c, t; split; [exact Heq | unfold opens_value; tauto]|].
    intros [|fuel] rest Hfuel Hrest; [simpl in Hfuel; lia |].
    rewrite Heq. cbn [app]. rewrite parse_value_number by exact Hc.
    change (c :: t ++ rest) with ((c :: t) ++ rest). rewrite <- Heq.
    by apply parse_number_toString.
  - exists (QuoteJSONString s). split; [reflexivity|].
    split; [unfold QuoteJSONString; simpl; lia|].
    split; [eexists _, _; split; [reflexivity | unfold opens_value; tauto]|].
    intros [|fuel] rest Hfuel _; [simpl in Hfuel; lia |].
    unfold QuoteJSONString. cbn [app parse_value].
    rewrite skip_ws_head by reflexivity. change (34 =? 34) with true. cbv iota.
    rewrite <- app_assoc. cbn [app]. by rewrite parse_chars_quote.
  - rewrite Serialize_array. eexists. split; [reflexivity|].
    cbn [representable] in Hrep.
    split; [|split; [eexists _, _; split; [reflexivity | unfold opens_value; tauto]|]].
    + destruct l as [|x l]; [simpl; lia|].
      destruct (parse_elements_join x l IH Hrep) as (Hlen & _).
      change (weight (JsArray (x :: l))) with (S (elements_weight (x :: l))).
      cbn [length]. rewrite length_app. cbn [length]. lia.
    + intros [|fuel] rest Hfuel _; [simpl in Hfuel; lia |].
      cbn [app parse_value]. rewrite skip_ws_head by reflexivity.
      change (91 =? 34) with false. change (91 =? 91) with true. cbv iota.
      rewrite <- app_assoc. cbn [app].
      destruct l as [|x l]; [reflexivity|].
      destruct (parse_elements_join x l IH Hrep)
        as (_ & (c & t' & Hjoin & Hc) & Hparse).
      apply opens_value_facts in Hc as (Hws & H93 & _).
      rewrite Hjoin at 1. cbn [app]. rewrite skip_ws_head by exact Hws.
      apply N.eqb_neq in H93. rewrite H93.
      change (weight (JsArray (x :: l))) with (S (elements_weight (x :: l)))
        in Hfuel.
      rewrite Hparse by lia. reflexivity.
  - rewrite Serialize_object. eexists. split; [reflexivity|].
    cbn [representable] in Hrep. apply andb_true_iff in Hrep as [Hnd Hrep].
    apply distinct_NoDup in Hnd.
    split; [|split; [eexists _, _; split; [reflexivity | unfold opens_value; tauto]|]].
    + destruct l as [|kx l]; [simpl; lia|].
      destruct (parse_members_join kx l IH Hrep) as (Hlen & _).
      change (weight (JsObject (kx :: l))) with (S (members_weight (kx :: l))).
      cbn [length]. rewrite length_app. cbn [length]. lia.
    + intros [|fuel] rest Hfuel _; [simpl in Hfuel; lia |].
      cbn [app parse_value]. rewrite skip_ws_head by reflexivity.
      change (123 =? 34) with false. change (123 =? 91) with false.
      change (123 =? 123) with true. cbv iota.
      rewrite <- app_assoc. cbn [app].
      destruct l as [|kx l]; [reflexivity|].
      destruct (parse_members_join kx l IH Hrep)
        as (_ & (m & ms & Hm) & Hparse).
      assert (Hjoin : exists t', join (member_texts (kx :: l)) = 34 :: t').
      { rewrite Hm. destruct ms; [by eexists|]. rewrite join_cons2. by eexists. }
      destruct Hjoin as (t' & Hjoin).
      rewrite Hjoin at 1. cbn [app]. rewrite skip_ws_head by reflexivity.
      change (34 =? 125) with false. cbv iota.
      change (weight (JsObject (kx :: l))) with (S (members_weight (kx :: l)))
        in Hfuel.
      rewrite (Hparse fuel rest []) by (first [lia | exact Hnd]). reflexivity.
Qed.

(** [JSON.parse] reads back what [JSON.stringify] writes for a
    representable value. *)
Lemma parse_stringify (v : JsValue) :
  representable v = true ->
  exists text, stringify v = Some text /\ parse text = Ok v.
Proof.
  intros Hrep.
  destruct (reads_back_all v Hrep) as (t & Hser & Hlen & _ & Hparse).
  exists t. split; [exact Hser|]. unfold parse.
  rewrite <- (app_nil_r t) at 2. rewrite Hparse by (first [lia | exact I]).
  reflexivity.
Qed.

(** *** The fuel of the parser *)

Lemma skip_ws_length (s : jsstring) : (length (skip_ws s) <= length s)%nat.
Proof.
  induction s as [|c s IH]; cbn [skip_ws]; [lia|].
  destruct (is_ws c); simpl; lia.
Qed.

Lemma skip_ws_cons (s r : jsstring) (c : N) :
  skip_ws s = c :: r -> (length r < length s)%nat.
Proof. intros H. pose proof (skip_ws_length s) as Hl. rewrite H in Hl. simpl in Hl. lia. Qed.

Lemma parse_chars_length (s x r : jsstring) :
  parse_chars s = Ok (x, r) -> (length r < length s)%nat.
Proof.
  remember (length s) as n eqn:Hn.
  assert (Hle : (length s <= n)%nat) by lia. clear Hn.
  revert s x r Hle. induction n as [|n IH]; intros [|c s] x r Hle;
    cbn [parse_chars]; try discriminate; simpl in Hle; try lia.
  intros H.
  repeat match type of H with
         | (if ?b then _ else _) = _ => destruct b
         | match ?l with [] => _ | _ :: _ => _ end = _ =>
             destruct l; simpl in Hle
         | match ?o with Some _ => _ | None => _ end = _ => destruct o
         | Throw _ = Ok _ => discriminate H
         | Ok _ = Ok _ => injection H as <- <-
         end; simpl; try lia;
  match type of H with
  | bind (parse_chars ?t) _ = _ =>
      destruct (parse_chars t) as [[x' r']|] eqn:E; [|discriminate];
      apply IH in E; [|simpl; lia]; cbn in H; injection H as <- <-; simpl in *; lia
  end.
Qed.

Lemma parse_chars_fuel (s : jsstring) : parse_chars s <> Throw RangeError.
Proof.
  remember (length s) as n eqn:Hn.
  assert (Hle : (length s <= n)%nat) by lia. clear Hn.
  revert s Hle. induction n as [|n IH]; intros [|c s] Hle;
    cbn [parse_chars]; try discriminate; simpl in Hle; try lia.
  repeat match goal with
         | |- (if ?b then _ else _) <> _ => destruct b
         | |- match ?l with [] => _ | _ :: _ => _ end <> _ =>
             destruct l; simpl in Hle
         | |- match ?o with Some _ => _ | None => _ end <> _ => destruct o
         end; try discriminate;
  match goal with
  | |- bind (parse_chars ?t) _ <> _ =>
      let E := fresh in
      pose proof (IH t ltac:(simpl; lia)) as E;
      destruct (parse_chars t) as [[x' r']|[]]; simpl; congruence
  end.
Qed.

Lemma scan_digits_length (s : jsstring) :
  (length (fst (scan_digits s)) + length (snd (scan_digits s)) = length s)%nat.
Proof.
  induction s as [|c s IH]; cbn [scan_digits]; [reflexivity|].
  destruct (URI.DecimalDigit c); simpl; lia.
Qed.

Lemma scan_digits_suffix (s : jsstring) :
  (length (snd (scan_digits s)) <= length s)%nat.
Proof. pose proof (scan_digits_length s). lia. Qed.

Lemma scan_fraction_length (s f r : jsstring) :
  scan_fraction s = Some (f, r) -> (length r <= length s)%nat.
Proof.
  unfold scan_fraction. destruct s as [|c t]; [by intros [= <- <-]|].
  destruct (c =? 46); [|by intros [= <- <-]].
  pose proof (scan_digits_suffix t) as Hl.
  destruct (scan_digits t) as [ds rest]. cbn [fst snd] in *.
  destruct ds; [discriminate|]. intros [= <- <-]. simpl. lia.
Qed.

Lemma scan_exponent_length (s r : jsstring) (e : Z) :
  scan_exponent s = Some (e, r) -> (length r <= length s)%nat.
Proof.
  unfold scan_exponent. destruct s as [|c t]; [by intros [= <- <-]|].
  destruct ((c =? 101) || (c =? 69)); [|by intros [= <- <-]].
  match goal with |- context [scan_digits ?x] => set (t' := x) end.
  assert (Ht' : (length t' <= length t)%nat).
  { unfold t'. destruct t as [|x t0]; [simpl; lia|].
    destruct ((x =? 45) || (x =? 43)); simpl; lia. }
  pose proof (scan_digits_suffix t') as Hl.
  destruct (scan_digits t') as [ds rest]. cbn [fst snd] in *.
  destruct ds; [discriminate|]. intros [= <- <-]. simpl. lia.
Qed.

Lemma parse_number_length (s : jsstring) (v : JsValue) (r : jsstring) :
  parse_number s = Ok (v, r) -> (length r < length s)%nat.
Proof.
  unfold parse_number.
  set (negative := match s with c :: _ => c =? 45 | [] => false end).
  set (s' := if negative then tail s else s).
  assert (Hs' : (length s' <= length s)%nat).
  { unfold s'. destruct negative, s; simpl; lia. }
  pose proof (scan_digits_length s') as Hl.
  destruct (scan_digits s') as [ds rest]. cbn [fst snd] in *.
  destruct ds as [|d ds]; [discriminate|]. simpl in Hl.
  match goal with
  | |- (if ?b then _ else _) = _ -> _ => destruct b; [discriminate|]
  end.
  destruct (scan_fraction rest) as [[fraction r1]|] eqn:Hf; [|discriminate].
  destruct (scan_exponent r1) as [[exponent r2]|] eqn:He; [|discriminate].
  apply scan_fraction_length in Hf. apply scan_exponent_length in He.
  intros [= <- <-]. lia.
Qed.

Lemma parse_number_fuel (s : jsstring) : parse_number s <> Throw RangeError.
Proof.
  unfold parse_number. repeat case_match; discriminate.
Qed.

Lemma expect_length (name s r : jsstring) :
  expect name s = Some r -> (length r <= length s)%nat.
Proof.
  revert s. induction name as [|x name IH]; intros [|c s]; simpl;
    try discriminate; try (intros [= <-]; simpl; lia).
  destruct (x =? c); [|discriminate]. intros H. apply IH in H. lia.
Qed.

(** With twice the length of the text as fuel, [parse_value] does not run
    out of fuel, and it consumes what it reads. *)
Lemma parse_value_fuel (fuel : nat) :
  (forall s, (2 * length s + 1 <= fuel)%nat ->
     parse_value fuel s <> Throw RangeError /\
     forall v r, parse_value fuel s = Ok (v, r) -> (length r < length s)%nat) /\
  (forall s, (2 * length s + 2 <= fuel)%nat ->
     parse_elements fuel s <> Throw RangeError /\
     forall l r, parse_elements fuel s = Ok (l, r) ->
       (length r < length s)%nat) /\
  (forall s acc, (2 * length s + 2 <= fuel)%nat ->
     parse_members fuel s acc <> Throw RangeError /\
     forall o r, parse_members fuel s acc = Ok (o, r) ->
       (length r < length s)%nat).
Proof.
  induction fuel as [|fuel (IHv & IHe & IHm)].
  { repeat split; intros; lia. }
  split; [|split].
  - intros s Hfuel. cbn [parse_value].
    destruct (skip_ws s) as [|c r] eqn:Hskip; [by split|].
    apply skip_ws_cons in Hskip.
    destruct (c =? 34).
    { pose proof (parse_chars_fuel r) as Hf.
      destruct (parse_chars r) as [[x r']|e] eqn:E; cbn [bind fst snd].
      - apply parse_chars_length in E. split; [discriminate|].
        intros v r0 [= <- <-]. lia.
      - split; [congruence | discriminate]. }
    destruct (c =? 91).
    { destruct (skip_ws r) as [|d r'] eqn:Hskip'; [by split|].
      apply skip_ws_cons in Hskip'.
      destruct (d =? 93); [split; [discriminate|]; intros v r0 [= <- <-]; lia|].
      destruct (IHe r ltac:(lia)) as [Hf Hl].
      destruct (parse_elements fuel r) as [[l r0]|e] eqn:E; cbn [bind fst snd].
      - split; [discriminate|]. intros v r1 [= <- <-].
        specialize (Hl _ _ eq_refl). lia.
      - split; [congruence | discriminate]. }
    destruct (c =? 123).
    { destruct (skip_ws r) as [|d r'] eqn:Hskip'; [by split|].
      apply skip_ws_cons in Hskip'.
      destruct (d =? 125); [split; [discriminate|]; intros v r0 [= <- <-]; lia|].
      destruct (IHm r [] ltac:(lia)) as [Hf Hl].
      destruct (parse_members fuel r []) as [[l r0]|e] eqn:E; cbn [bind fst snd].
      - split; [discriminate|]. intros v r1 [= <- <-].
        specialize (Hl _ _ eq_refl). lia.
      - split; [congruence | discriminate]. }
    destruct (c =? 110).
    { destruct (expect _ r) as [r'|] eqn:E; [|by split].
      apply expect_length in E. split; [discriminate|]. intros v r0 [= <- <-]. lia. }
    destruct (c =? 116).
    { destruct (expect _ r) as [r'|] eqn:E; [|by split].
      apply expect_length in E. split; [discriminate|]. intros v r0 [= <- <-]. lia. }
    destruct (c =? 102).
    { destruct (expect _ r) as [r'|] eqn:E; [|by split].
      apply expect_length in E. split; [discriminate|]. intros v r0 [= <- <-]. lia. }
    split; [apply parse_number_fuel|].
    intros v r0 E. apply parse_number_length in E. simpl in E. lia.
  - intros s Hfuel. cbn [parse_elements].
    destruct (IHv s ltac:(lia)) as [Hf Hl].
    destruct (parse_value fuel s) as [[x r1]|e] eqn:E; cbn [bind fst snd];
      [|split; [congruence | discriminate]].
    specialize (Hl _ _ eq_refl).
    destruct (skip_ws r1) as [|c r] eqn:Hskip; [by split|].
    apply skip_ws_cons in Hskip.
    destruct (c =? 44).
    { destruct (IHe r ltac:(lia)) as [Hf' Hl'].
      destruct (parse_elements fuel r) as [[l r0]|e] eqn:E'; cbn [bind fst snd].
      - split; [discriminate|]. intros l0 r2 [= <- <-].
        specialize (Hl' _ _ eq_refl). lia.
      - split; [congruence | discriminate]. }
    destruct (c =? 93); [|by split].
    split; [discriminate|]. intros l0 r2 [= <- <-]. lia.
  - intros s acc Hfuel. cbn [parse_members].
    destruct (skip_ws s) as [|c r] eqn:Hskip; [by split|].
    apply skip_ws_cons in Hskip.
    destruct (c =? 34); [|by split].
    pose proof (parse_chars_fuel r) as Hfk.
    destruct (parse_chars r) as [[k rk]|e] eqn:Ek; cbn [bind fst snd];
      [|split; [congruence | discriminate]].
    apply parse_chars_length in Ek.
    destruct (skip_ws rk) as [|d r1] eqn:Hskip1; [by split|].
    apply skip_ws_cons in Hskip1.
    destruct (d =? 58); [|by split].
    destruct (IHv r1 ltac:(lia)) as [Hf Hl].
    destruct (parse_value fuel r1) as [[x r2]|e] eqn:E; cbn [bind fst snd];
      [|split; [congruence | discriminate]].
    specialize (Hl _ _ eq_refl).
    destruct (skip_ws r2) as [|e r3] eqn:Hskip2; [by split|].
    apply skip_ws_cons in Hskip2.
    destruct (e =? 44).
    { destruct (IHm r3 (set_property acc k x) ltac:(lia)) as [Hf' Hl'].
      split; [exact Hf'|]. intros o r0 E'. apply Hl' in E'. lia. }
    destruct (e =? 125); [|by split].
    split; [discriminate|]. intros o r0 [= <- <-]. lia.
Qed.

(** [JSON.parse] never fails for lack of fuel. *)
Lemma parse_fuel (text : jsstring) : parse text <> Throw RangeError.
Proof.
  unfold parse.
  destruct (parse_value_fuel (2 * length text + 1)) as (Hv & _).
  destruct (Hv text ltac:(lia)) as [Hf _].
  destruct (parse_value _ text) as [[v r]|e]; cbn [bind fst snd];
    [|congruence].
  destruct (skip_ws r); discriminate.
Qed.

(** *** Deep equality *)

Lemma get_property_NoDup {V} (o : object V) (k : jsstring) (v : V) :
  NoDup (List.map fst o) -> (k, v) ∈ o -> get_property o k = Some v.
Proof.
  induction o as [|[k' v'] o IH]; simpl; intros Hnd Hin.
  - by apply elem_of_nil in Hin.
  - apply NoDup_cons in Hnd as [Hk' Hnd].
    apply elem_of_cons in Hin as [[= <- <-] | Hin].
    + by rewrite str_eqb_refl.
    + rewrite str_eqb_neq; [by apply IH|].
      intros ->. apply Hk'. apply list_elem_of_fmap. by exists (k, v).
Qed.

(** The members of a record are found in a record that contains them. *)
Lemma deep_equal_members (ys xs : object JsValue) :
  NoDup (List.map fst ys) -> xs ⊆ ys ->
  Forall (fun kv => deep_equal (snd kv) (snd kv) = true) xs ->
  (fix all (xs : list (jsstring * JsValue)) : bool :=
     match xs with
     | [] => true
     | (k, x) :: xs' =>
         match get_property ys k with
         | Some y => deep_equal x y
         | None => false
         end && all xs'
     end) xs = true.
Proof.
  intros Hnd. induction xs as [|[k x] xs IH]; intros Hsub Hall; [reflexivity|].
  apply Forall_cons in Hall as [Hx Hall]. cbn [snd] in Hx.
  rewrite (get_property_NoDup ys k x Hnd) by (apply Hsub; left).
  rewrite Hx. cbn [andb]. apply IH; [|exact Hall].
  intros kx Hkx. apply Hsub. by right.
Qed.

Lemma deep_equal_refl (v : JsValue) :
  representable v = true -> deep_equal v v = true.
Proof.
  induction v as [| |b|n|s|l IH|l IH] using JsValue_ind'; intros Hrep.
  - discriminate.
  - reflexivity.
  - by destruct b.
  - apply same_refl.
  - simpl. apply str_eqb_refl.
  - cbn [representable] in Hrep. cbn [deep_equal].
    induction IH as [|x l Hx _ IHl]; [reflexivity|].
    cbn [forallb] in Hrep. apply andb_true_iff in Hrep as [Hrx Hrl].
    by rewrite (Hx Hrx), (IHl Hrl).
  - cbn [representable] in Hrep. apply andb_true_iff in Hrep as [Hnd Hrep].
    apply distinct_NoDup in Hnd. cbn [deep_equal].
    rewrite Nat.eqb_refl. cbn [andb].
    apply deep_equal_members; [exact Hnd | done |].
    apply Forall_forall. intros kx Hkx.
    rewrite Forall_forall in IH. apply (IH kx Hkx).
    rewrite forallb_forall in Hrep. apply Hrep. by apply list_elem_of_In.
Qed.

(** *** The event *)

(** The snapshot of an event is representable when its payload is. *)
Lemma toJSON_value_representable (this : XOrcaCloudEvent Payload) :
  representable (JsObject (data this)) = true ->
  representable (toJSON_value this) = true.
Proof.
  intros Hd. unfold toJSON_value, toJSON, own_properties.
  cbn [representable List.map fst snd forallb value_of_field].
  cbn [representable] in Hd. rewrite Hd.
  destruct (to this), (redirectto this), (traceparent this),
    (tracestate this), (elapsedtime this), (executionunits this);
    reflexivity.
Qed.

End JSONFacts.

(** ** C7: the serialisation round trip *)

Example parse_samples :
  JSON.parse (js "10.5") = Ok (JsNum (Frac false 21 1)) /\
  JSON.parse (js "-1.5e-7") = Ok (JsNum (Frac true 2833419889721787 74)) /\
  JSON.parse (js "1E400") = Ok (JsNum (Infinity false)) /\
  JSON.parse (js "-0") = Ok (JsNum NegZero) /\
  JSON.parse (js "[1e21, 2.50]")
    = Ok (JsArray [JsNum (Int 1000000000000000000000);
                   JsNum (Frac false 5 1)]) /\
  JSON.parse (js "01") = Throw SyntaxError /\
  JSON.parse (js "1.") = Throw SyntaxError /\
  JSON.parse (js "1e") = Throw SyntaxError.
Proof. repeat split; vm_compute; reflexivity. Qed.

(** C7, counterexample.  The payload [{amount: NaN}] is accepted by the
    constructor; [toString()] writes null for it, so parsing the text gives
    a record that is not deep-equal to [toJSON()].  The same happens for a
    property whose value is undefined, which [toString()] leaves out. *)
Lemma C7_payload_not_read_back :
  (exists this text v,
     constructor sample_env order_nan = Ok this /\
     toString this = Some text /\ JSON.parse text = Ok v /\
     JSON.deep_equal v (toJSON_value this) = false) /\
  (exists this text v,
     constructor sample_env order_undefined = Ok this /\
     toString this = Some text /\ JSON.parse text = Ok v /\
     JSON.deep_equal v (toJSON_value this) = false).
Proof.
  split; eexists _, _, _;
    (split; [vm_compute; reflexivity|]);
    (split; [vm_compute; reflexivity|]);
    (split; [vm_compute; reflexivity|]); vm_compute; reflexivity.
Qed.

(** C7, as amended.  For every constructed event whose payload is
    representable in JSON (a record, each key once, built from records,
    arrays without holes, strings, booleans, null and finite Numbers other
    than negative zero: integral or not, of any magnitude; no undefined,
    NaN or infinity), [toString()] returns a text, [JSON.parse] reads that
    text, and the value read is deep-equal to [toJSON()]. *)
Theorem C7_roundtrip (env : Env) (event : Input.t Payload)
  (this : XOrcaCloudEvent Payload) :
  constructor env event = Ok this ->
  JSON.representable (JsObject (Input.data event)) = true ->
  exists text v,
    toString this = Some text /\ JSON.parse text = Ok v /\
    JSON.deep_equal v (toJSON_value this) = true.
Proof.
  intros H Hd.
  apply constructor_ok in H as (_ & _ & _ & _ & _ & _ & Hdata & _).
  rewrite <- Hdata in Hd. apply toJSON_value_representable in Hd.
  destruct (parse_stringify _ Hd) as (text & Hs & Hp).
  exists text, (toJSON_value this). split; [exact Hs|]. split; [exact Hp|].
  by apply deep_equal_refl.
Qed.

Lemma C7_roundtrip_witness :
  JSON.representable (JsObject (Input.data order_decimal)) = true /\
  exists this text v,
    constructor sample_env order_decimal = Ok this /\
    toString this = Some text /\ JSON.parse text = Ok v /\
    JSON.deep_equal v (toJSON_value this) = true.
Proof.
  assert (Hrep : JSON.representable (JsObject (Input.data order_decimal))
                 = true) by (vm_compute; reflexivity).
  split; [exact Hrep|].
  destruct (C7_roundtrip sample_env order_decimal _ eq_refl Hrep)
    as (text & v & Hs & Hp & He).
  eexists _, text, v. split; [reflexivity|]. by repeat split.
Defined.

(** * Further properties of the code *)

(** ** [encodeURI]: errors, alphabet, encoding twice *)

Lemma unescapedSet_ascii (c : N) : URI.unescapedSet c = true -> 33 <= c < 127.
Proof.
  unfold URI.unescapedSet, URI.uriUnescaped, URI.uriAlpha, URI.DecimalDigit,
    URI.mem. cbn [existsb URI.uriReserved URI.uriMark js List.map
                  list_ascii_of_string N_of_ascii N_of_digits].
  rewrite !orb_true_iff, !between_spec, !N.eqb_eq. cbn. lia.
Qed.

Lemma surrogate_not_unescaped (c : N) :
  URI.unescapedSet c = true ->
  URI.is_leading_surrogate c = false /\ URI.is_trailing_surrogate c = false.
Proof.
  intros H. apply unescapedSet_ascii in H.
  unfold URI.is_leading_surrogate, URI.is_trailing_surrogate, URI.between.
  split; apply andb_false_iff; left; apply N.leb_gt; lia.
Qed.

(** [encodeURI] throws, and then [URIError], exactly on the strings that
    are not well formed. *)
Lemma Encode_isWellFormed (s : jsstring) :
  match URI.Encode s with
  | Ok _ => isWellFormed s = true
  | Throw e => e = URIError /\ isWellFormed s = false
  end.
Proof.
  remember (length s) as n eqn:Hn.
  assert (Hle : (length s <= n)%nat) by lia. clear Hn.
  revert s Hle. induction n as [|n IH]; intros [|c r] Hle; simpl in Hle;
    try lia; try reflexivity.
  cbn [URI.Encode isWellFormed].
  pose proof (IH r ltac:(lia)) as IHr.
  destruct (URI.unescapedSet c) eqn:Hu.
  { apply surrogate_not_unescaped in Hu as [-> ->].
    destruct (URI.Encode r); exact IHr. }
  destruct (URI.is_trailing_surrogate c); [by split|].
  destruct (URI.is_leading_surrogate c).
  - destruct r as [|d r']; [by split|].
    destruct (URI.is_trailing_surrogate d); [|by split].
    pose proof (IH r' ltac:(simpl in Hle; lia)) as IHr'.
    destruct (URI.Encode r'); exact IHr'.
  - destruct (URI.Encode r); exact IHr.
Qed.

Lemma lor_lt_256 (a b : N) : a < 256 -> b < 256 -> N.lor a b < 256.
Proof.
  intros Ha Hb. destruct (N.eq_dec (N.lor a b) 0) as [->|Hne]; [lia|].
  change 256 with (2 ^ 8). apply N.log2_lt_pow2; [lia|].
  rewrite N.log2_lor.
  destruct (N.eq_dec a 0) as [->|Ha0], (N.eq_dec b 0) as [->|Hb0];
    try (apply N.max_lub_lt);
    try (apply N.log2_lt_pow2; [lia | exact Ha]);
    try (apply N.log2_lt_pow2; [lia | exact Hb]);
    cbn; lia.
Qed.

Lemma continuation_lt_256 (x : N) : N.lor 128 (N.land x 63) < 256.
Proof.
  apply lor_lt_256; [lia|]. pose proof (N.land_le_r x 63). lia.
Qed.

Lemma utf8_octets (cp : N) :
  cp < 1114112 -> Forall (fun o => o < 256) (URI.utf8 cp).
Proof.
  intros Hcp. unfold URI.utf8.
  destruct (N.ltb_spec cp 128); [repeat constructor; lia|].
  destruct (N.ltb_spec cp 2048).
  { repeat constructor; [|apply continuation_lt_256].
    apply lor_lt_256; [lia|]. rewrite N.shiftr_div_pow2.
    apply N.Div0.div_lt_upper_bound. cbn. lia. }
  destruct (N.ltb_spec cp 65536).
  { repeat constructor; try apply continuation_lt_256.
    apply lor_lt_256; [lia|]. rewrite N.shiftr_div_pow2.
    apply N.Div0.div_lt_upper_bound. cbn. lia. }
  repeat constructor; try apply continuation_lt_256.
  apply lor_lt_256; [lia|]. rewrite N.shiftr_div_pow2.
  apply N.Div0.div_lt_upper_bound. cbn. lia.
Qed.

Lemma hex_upper_unescaped (d : N) :
  d < 16 -> URI.unescapedSet (URI.hex_upper d) = true.
Proof.
  intros Hd. unfold URI.hex_upper, URI.unescapedSet, URI.uriUnescaped.
  destruct (N.ltb_spec d 10).
  - replace (URI.DecimalDigit (48 + d)) with true
      by (symmetry; apply between_spec; lia).
    by rewrite !orb_true_r.
  - replace (URI.uriAlpha (55 + d)) with true
      by (symmetry; unfold URI.uriAlpha; apply orb_true_iff; right;
          apply between_spec; lia).
    by rewrite orb_true_r.
Qed.

Lemma escape_uri_chars (cp : N) :
  cp < 1114112 -> Forall (fun c => uri_char c = true) (URI.escape cp).
Proof.
  intros Hcp. unfold URI.escape. apply Forall_concat, Forall_forall.
  intros t Ht. apply list_elem_of_fmap in Ht as (o & -> & Ho).
  pose proof (proj1 (Forall_forall _ _) (utf8_octets cp Hcp) o Ho) as Hlt.
  cbv beta in Hlt. unfold URI.escape_octet.
  repeat constructor; unfold uri_char.
  - rewrite hex_upper_unescaped; [done|].
    apply N.Div0.div_lt_upper_bound. lia.
  - rewrite hex_upper_unescaped; [done|]. by apply N.mod_lt.
Qed.

(** On strings of 16-bit code units [encodeURI] writes URI characters
    only. *)
Lemma Encode_uri_chars (s r : jsstring) :
  wf_string s -> URI.Encode s = Ok r -> Forall (fun c => uri_char c = true) r.
Proof.
  remember (length s) as n eqn:Hn.
  assert (Hle : (length s <= n)%nat) by lia. clear Hn.
  revert s r Hle. induction n as [|n IH]; intros [|c t] r Hle Hwf;
    simpl in Hle; try lia; try (intros [= <-]; constructor).
  apply Forall_cons in Hwf as [Hc Hwf]. unfold code_unit in Hc.
  cbn [URI.Encode].
  destruct (URI.unescapedSet c) eqn:Hu.
  { destruct (URI.Encode t) as [r'|] eqn:E; [|discriminate]. intros [= <-].
    constructor; [unfold uri_char; by rewrite Hu | apply (IH t); [lia|done..]]. }
  destruct (URI.is_trailing_surrogate c); [discriminate|].
  destruct (URI.is_leading_surrogate c) eqn:Hlead.
  - destruct t as [|d t']; [discriminate|].
    destruct (URI.is_trailing_surrogate d) eqn:Htrail; [|discriminate].
    destruct (URI.Encode t') as [r'|] eqn:E; [|discriminate]. intros [= <-].
    apply Forall_cons in Hwf as [Hd Hwf].
    apply Forall_app. split; [|apply (IH t'); [simpl in Hle; lia|done..]].
    apply escape_uri_chars.
    apply between_spec in Hlead, Htrail.
    unfold URI.UTF16SurrogatePairToCodePoint. lia.
  - destruct (URI.Encode t) as [r'|] eqn:E; [|discriminate]. intros [= <-].
    apply Forall_app. split; [|apply (IH t); [lia|done..]].
    apply escape_uri_chars. lia.
Qed.

Lemma uri_char_ascii (c : N) : uri_char c = true -> 33 <= c < 127.
Proof.
  unfold uri_char. rewrite orb_true_iff, N.eqb_eq.
  intros [H | ->]; [by apply unescapedSet_ascii | lia].
Qed.

Lemma uri_chars_wellformed (r : jsstring) :
  Forall (fun c => uri_char c = true) r -> isWellFormed r = true /\ wf_string r.
Proof.
  induction 1 as [|c r Hc _ [IH1 IH2]]; [by split; [|constructor]|].
  apply uri_char_ascii in Hc. split.
  - cbn [isWellFormed].
    replace (URI.is_trailing_surrogate c) with false
      by (symmetry; apply andb_false_iff; left; apply N.leb_gt; lia).
    replace (URI.is_leading_surrogate c) with false
      by (symmetry; apply andb_false_iff; left; apply N.leb_gt; lia).
    exact IH1.
  - constructor; [unfold code_unit; lia | exact IH2].
Qed.

(** Encoding what [encodeURI] wrote: every "%" becomes "%25", the rest
    stays. *)
Lemma Encode_again (r : jsstring) :
  Forall (fun c => uri_char c = true) r ->
  exists r', URI.Encode r = Ok r' /\
    length r' = (length r + 2 * length (List.filter (N.eqb 37) r))%nat.
Proof.
  induction 1 as [|c r Hc _ (r' & IH & Hlen)]; [by exists []|].
  cbn [URI.Encode List.filter]. rewrite IH. cbn [bind].
  destruct (URI.unescapedSet c) eqn:Hu.
  - exists (c :: r'). split; [reflexivity|].
    replace (37 =? c) with false.
    + simpl. lia.
    + symmetry. apply N.eqb_neq. intros <-. vm_compute in Hu. discriminate.
  - unfold uri_char in Hc. rewrite Hu in Hc. apply N.eqb_eq in Hc as ->.
    eexists. split; [reflexivity|]. simpl. lia.
Qed.

Lemma filter_percent (r : jsstring) :
  37 ∈ r <-> List.filter (N.eqb 37) r <> [].
Proof.
  induction r as [|c r IH]; cbn [List.filter].
  - split; [by intros ?%elem_of_nil | done].
  - rewrite elem_of_cons. destruct (N.eqb_spec 37 c) as [E|Hne].
    + split; [by intros _ | by left].
    + rewrite <- IH. split; [intros [?|?]; [congruence | done] | by right].
Qed.

(** [encodeURI] leaves a string of URI characters as it is exactly when
    the string holds no "%". *)
Lemma Encode_fixed_point (r : jsstring) :
  Forall (fun c => uri_char c = true) r ->
  (URI.Encode r = Ok r <-> 37 ∉ r).
Proof.
  intros Hr. destruct (Encode_again r Hr) as (r' & He & Hlen).
  rewrite He, filter_percent. split.
  - intros [= ->] Hne. destruct (List.filter (N.eqb 37) r); [done|].
    simpl in Hlen. lia.
  - intros Hnot. destruct (List.filter (N.eqb 37) r) eqn:E; [|by destruct Hnot].
    clear Hlen. f_equal.
    assert (Hall : Forall (fun c => URI.unescapedSet c = true) r).
    { clear He. induction Hr as [|c r Hc Hr IH]; [constructor|].
      cbn [List.filter] in E. destruct (N.eqb_spec 37 c) as [<-|Hne]; [discriminate|].
      constructor; [|by apply IH].
      unfold uri_char in Hc. apply orb_true_iff in Hc as [Hc|Hc]; [done|].
      apply N.eqb_eq in Hc. congruence. }
    apply encodeURI_unescaped in Hall. unfold encodeURI in Hall. congruence.
Qed.

(** ** The constructor: success, errors and the stored fields *)

Lemma encodeURI_cases (s : jsstring) :
  (isWellFormed s = true /\ exists r, encodeURI s = Ok r) \/
  (isWellFormed s = false /\ encodeURI s = Throw URIError).
Proof.
  unfold encodeURI. pose proof (Encode_isWellFormed s) as H.
  destruct (URI.Encode s) as [r|e]; [left; eauto|].
  destruct H as [-> H]. by right.
Qed.

Lemma encode_or_null_cases (x : Nullable) :
  (well_formed_if_truthy x = true /\ exists r, encode_or_null x = Ok r) \/
  (well_formed_if_truthy x = false /\ encode_or_null x = Throw URIError).
Proof.
  unfold well_formed_if_truthy, encode_or_null.
  destruct (truthy x) as [s|]; [|left; eauto].
  destruct (encodeURI_cases s) as [[Hw [r Hr]] | [Hw He]].
  - left. rewrite Hr. eauto.
  - right. by rewrite He.
Qed.

(** X1. Construction succeeds exactly when the time helper accepts the
    given time and [source], and [to] and [redirectto] when they are
    truthy, hold no lone surrogate. *)
Theorem constructor_succeeds_iff {TData} (env : Env) (event : Input.t TData) :
  (exists this, constructor env event = Ok this) <->
  (exists t, convertToISOString env (Input.time event) = Ok t) /\
  isWellFormed (Input.source event) = true /\
  well_formed_if_truthy (Input.to event) = true /\
  well_formed_if_truthy (Input.redirectto event) = true.
Proof.
  split.
  - intros [this H].
    apply constructor_ok in H as (_ & Ht & _ & Hs & _ & _ & _ & _ & Hto & Hre & _).
    split; [eauto|].
    destruct (encodeURI_cases (Input.source event)) as [[Hw _] | [_ He]];
      [|congruence].
    destruct (encode_or_null_cases (Input.to event)) as [[Hw1 _] | [_ He]];
      [|congruence].
    destruct (encode_or_null_cases (Input.redirectto event))
      as [[Hw2 _] | [_ He]]; [|congruence].
    done.
  - intros ([t Ht] & Hs & Hto & Hre).
    destruct (encodeURI_cases (Input.source event)) as [[_ [r Hr]] | [Hw _]];
      [|congruence].
    destruct (encode_or_null_cases (Input.to event)) as [[_ [x Hx]] | [Hw _]];
      [|congruence].
    destruct (encode_or_null_cases (Input.redirectto event))
      as [[_ [y Hy]] | [Hw _]]; [|congruence].
    by eapply constructor_total.
Qed.

(** X2. The errors of the constructor, in the order of its statements: an
    error of the time helper is thrown as it is, whatever the other
    fields hold; when the time is accepted, a lone surrogate in [source],
    in a truthy [to] or in a truthy [redirectto] makes the constructor
    throw [URIError]; and it throws nothing else. *)
Theorem constructor_errors {TData} (env : Env) (event : Input.t TData) :
  (forall e, convertToISOString env (Input.time event) = Throw e ->
     constructor env event = Throw e) /\
  (forall t, convertToISOString env (Input.time event) = Ok t ->
     isWellFormed (Input.source event) = false \/
     well_formed_if_truthy (Input.to event) = false \/
     well_formed_if_truthy (Input.redirectto event) = false ->
     constructor env event = Throw URIError) /\
  (forall e, constructor env event = Throw e ->
     convertToISOString env (Input.time event) = Throw e \/ e = URIError).
Proof.
  unfold constructor. split; [|split].
  - intros e ->. reflexivity.
  - intros t -> H. cbn [bind].
    destruct (encodeURI_cases (Input.source event)) as [[Hs [r ->]] | [Hs ->]];
      [|reflexivity].
    cbn [bind].
    destruct (encode_or_null_cases (Input.to event)) as [[Hx [x ->]] | [Hx ->]];
      [|reflexivity].
    cbn [bind].
    destruct (encode_or_null_cases (Input.redirectto event))
      as [[Hy [y ->]] | [Hy ->]]; [|reflexivity].
    destruct H as [H | [H | H]]; congruence.
  - intros e.
    destruct (convertToISOString env (Input.time event)) as [t|e0];
      [|intros [= <-]; by left].
    cbn [bind].
    destruct (encodeURI_cases (Input.source event)) as [[Hs [r ->]] | [Hs ->]];
      [|intros [= <-]; by right].
    cbn [bind].
    destruct (encode_or_null_cases (Input.to event)) as [[Hx [x ->]] | [Hx ->]];
      [|intros [= <-]; by right].
    cbn [bind].
    destruct (encode_or_null_cases (Input.redirectto event))
      as [[Hy [y ->]] | [Hy ->]]; [|intros [= <-]; by right].
    discriminate.
Qed.

Example time_error_comes_first :
  constructor failing_env order_lone_surrogate = Throw RangeError.
Proof. reflexivity. Qed.

Example lone_surrogate_throws :
  constructor sample_env order_lone_surrogate = Throw URIError.
Proof. reflexivity. Qed.

Lemma truthy_some (x : Nullable) (s : jsstring) :
  truthy x = Some s -> x = Given s /\ s <> [].
Proof.
  destruct x as [| |[|c t]]; cbn [truthy truthy_string]; try discriminate.
  intros [= <-]. by split.
Qed.

Lemma encode_or_null_given (x : Nullable) (r : jsstring) :
  encode_or_null x = Ok (Some r) ->
  exists s, x = Given s /\ s <> [] /\ encodeURI s = Ok r.
Proof.
  unfold encode_or_null. destruct (truthy x) as [s|] eqn:Hx; [|discriminate].
  apply truthy_some in Hx as [-> Hs].
  destruct (encodeURI s) as [r'|] eqn:E; cbn [bind]; [|discriminate].
  intros [= <-]. by exists s.
Qed.

Lemma encode_or_null_none (x : Nullable) :
  encode_or_null x = Ok None -> x = Absent \/ x = IsNull \/ x = Given [].
Proof.
  unfold encode_or_null. destruct (truthy x) as [s|] eqn:Hx.
  - destruct (encodeURI s); cbn [bind]; discriminate.
  - intros _. destruct x as [| |[|c t]]; auto. discriminate.
Qed.

(** What the results of [encodeURI] in an event are made of. *)
Lemma encoded_fields_uri_chars {TData} (env : Env) (event : Input.t TData)
  (this : XOrcaCloudEvent TData) :
  wf_input event ->
  constructor env event = Ok this ->
  Forall (fun c => uri_char c = true /\ 33 <= c < 127) (source this) /\
  (forall s, to this = Some s ->
     Forall (fun c => uri_char c = true /\ 33 <= c < 127) s) /\
  (forall s, redirectto this = Some s ->
     Forall (fun c => uri_char c = true /\ 33 <= c < 127) s).
Proof.
  intros (Hws & Hwt & Hwr) H.
  apply constructor_ok in H
    as (_ & _ & _ & Hs & _ & _ & _ & _ & Hto & Hre & _).
  assert (Hchars : forall s r, wf_string s -> encodeURI s = Ok r ->
            Forall (fun c => uri_char c = true /\ 33 <= c < 127) r).
  { intros s r Hw He. eapply Forall_impl; [by eapply Encode_uri_chars|].
    intros c Hc. split; [exact Hc | by apply uri_char_ascii]. }
  split; [by eapply Hchars|]. split.
  - intros s Hs'. rewrite Hs' in Hto.
    apply encode_or_null_given in Hto as (s0 & Hx & _ & He).
    rewrite Hx in Hwt. by eapply Hchars.
  - intros s Hs'. rewrite Hs' in Hre.
    apply encode_or_null_given in Hre as (s0 & Hx & _ & He).
    rewrite Hx in Hwr. by eapply Hchars.
Qed.

(** X3. The URI fields of a constructed event hold URI characters only:
    [source], and [to] and [redirectto] when they are not null, consist of
    the characters [encodeURI] leaves alone and of "%", all of them
    printable ASCII. *)
Theorem constructor_uri_chars {TData} (env : Env) (event : Input.t TData)
  (this : XOrcaCloudEvent TData) :
  wf_input event ->
  constructor env event = Ok this ->
  Forall (fun c => uri_char c = true /\ 33 <= c < 127) (source this) /\
  (forall s, to this = Some s ->
     Forall (fun c => uri_char c = true /\ 33 <= c < 127) s) /\
  (forall s, redirectto this = Some s ->
     Forall (fun c => uri_char c = true /\ 33 <= c < 127) s).
Proof.
  apply encoded_fields_uri_chars.
Qed.

Lemma constructor_uri_chars_witness :
  wf_input order_full /\
  exists this, constructor sample_env order_full = Ok this /\
    Forall (fun c => uri_char c = true /\ 33 <= c < 127) (source this).
Proof.
  assert (Hwf : wf_input order_full).
  { repeat split; cbn; repeat constructor. }
  split; [exact Hwf|]. eexists. split; [reflexivity|].
  exact (proj1 (constructor_uri_chars sample_env order_full _ Hwf eq_refl)).
Defined.

(** X4. [to] and [redirectto]: a non-empty string given by the caller is
    stored as [encodeURI] of it, which is not null and not empty; null, an
    absent property and the empty string are stored as null; and a stored
    string always comes from a non-empty string of the caller. *)
Theorem constructor_to_redirectto {TData} (env : Env) (event : Input.t TData)
  (this : XOrcaCloudEvent TData) :
  constructor env event = Ok this ->
  ((forall s, Input.to event = Given s -> s <> [] ->
      exists r, encodeURI s = Ok r /\ to this = Some r /\ r <> []) /\
   (Input.to event = IsNull \/ Input.to event = Absent \/
    Input.to event = Given [] <-> to this = None)) /\
  ((forall s, Input.redirectto event = Given s -> s <> [] ->
      exists r, encodeURI s = Ok r /\ redirectto this = Some r /\ r <> []) /\
   (Input.redirectto event = IsNull \/ Input.redirectto event = Absent \/
    Input.redirectto event = Given [] <-> redirectto this = None)).
Proof.
  intros H.
  apply constructor_ok in H
    as (_ & _ & _ & _ & _ & _ & _ & _ & Hto & Hre & _).
  assert (Hgen : forall x o, encode_or_null x = Ok o ->
    (forall s, x = Given s -> s <> [] ->
       exists r, encodeURI s = Ok r /\ o = Some r /\ r <> []) /\
    (x = IsNull \/ x = Absent \/ x = Given [] <-> o = None)).
  { intros x o Hx. split.
    - intros s -> Hs. unfold encode_or_null in Hx.
      rewrite truthy_given in Hx by exact Hs.
      destruct (encodeURI s) as [r|] eqn:E; [|discriminate].
      injection Hx as <-. exists r. repeat split.
      by eapply encodeURI_nonempty.
    - split.
      + intros [-> | [-> | ->]]; cbn in Hx; congruence.
      + intros ->. apply encode_or_null_none in Hx. tauto. }
  split; by apply Hgen.
Qed.

Lemma constructor_to_redirectto_witness :
  exists this, constructor sample_env order_full = Ok this /\
    to this = Some (js "svc/billing") /\ redirectto this = None.
Proof.
  eexists. split; [reflexivity|].
  destruct (constructor_to_redirectto sample_env order_full _ eq_refl)
    as [[Hto _] [_ Hre]].
  split.
  - destruct (Hto (js "svc/billing") eq_refl ltac:(discriminate))
      as (r & He & Hr & _).
    injection He as <-. exact Hr.
  - apply Hre. by left.
Defined.

(** X5. [datacontenttype] and [specversion] of a constructed event are
    never empty; [datacontenttype] is the caller's value when that is a
    non-empty string and the canonical default otherwise. *)
Theorem constructor_datacontenttype {TData} (env : Env)
  (event : Input.t TData) (this : XOrcaCloudEvent TData) :
  constructor env event = Ok this ->
  datacontenttype this <> [] /\ specversion this <> [] /\
  (forall s, Input.datacontenttype event = Some s -> s <> [] ->
     datacontenttype this = s) /\
  (Input.datacontenttype event = None \/
   Input.datacontenttype event = Some [] ->
   datacontenttype this = default_datacontenttype).
Proof.
  intros H.
  apply constructor_ok in H as (_ & _ & _ & _ & Hct & _ & _ & Hv & _).
  rewrite Hct, Hv. repeat split.
  - by destruct (Input.datacontenttype event) as [[|c s]|].
  - by destruct (Input.specversion event) as [[|c s]|].
  - intros s -> Hs. by apply or_default_some.
  - intros [-> | ->]; reflexivity.
Qed.

Lemma constructor_datacontenttype_witness :
  exists this, constructor sample_env order_created = Ok this /\
    datacontenttype this = default_datacontenttype.
Proof.
  eexists. split; [reflexivity|].
  apply (constructor_datacontenttype sample_env order_created _ eq_refl).
  by left.
Defined.

Lemma cloudevent_eq {TData} (this : XOrcaCloudEvent TData) :
  cloudevent this =
  [ (js "id", FString (id this));
    (js "time", FString (time this));
    (js "type", FString (type this));
    (js "source", FString (source this));
    (js "datacontenttype", FString (datacontenttype this));
    (js "subject", FString (subject this));
    (js "data", FData (data this));
    (js "specversion", FString (specversion this)) ].
Proof. reflexivity. Qed.

(** X6. The two views split the snapshot by value, not only by key: for
    every key, [toJSON()] holds what [cloudevent] holds under it or, when
    [cloudevent] has no such key, what [xorcaExtensions] holds; no key is
    in both views; and the [cloudevent] view carries the stored, encoded
    [source] unchanged. *)
Theorem views_partition_values {TData} (this : XOrcaCloudEvent TData)
  (k : jsstring) :
  get_property (toJSON this) k =
    match get_property (cloudevent this) k with
    | Some v => Some v
    | None => get_property (xorcaExtensions this) k
    end /\
  (get_property (cloudevent this) k = None \/
   get_property (xorcaExtensions this) k = None) /\
  get_property (cloudevent this) (js "source") = Some (FString (source this)).
Proof.
  rewrite cloudevent_eq. unfold toJSON, own_properties, xorcaExtensions.
  cbn [get_property]. split; [|split; [|reflexivity]].
  - repeat match goal with
           | |- context [str_eqb ?key k] =>
               let E := fresh "E" in
               destruct (str_eqb key k) eqn:E;
               [apply str_eqb_eq in E; subst k; vm_compute; reflexivity|]
           end.
    reflexivity.
  - repeat match goal with
           | |- context [str_eqb ?key k] =>
               let E := fresh "E" in
               destruct (str_eqb key k) eqn:E;
               [apply str_eqb_eq in E; subst k; vm_compute; auto|]
           end.
    by left.
Qed.

Lemma or_empty_null (x : option jsstring) :
  x <> Some [] -> (or_empty x = [] <-> x = None).
Proof.
  destruct x as [[|c s]|]; cbn; intros H; split; try done.
Qed.

(** What a record with the nine attribute keys holds under each of them. *)
Lemma telemetry_lookup (a1 a2 a3 a4 a5 a6 a7 a8 a9 : jsstring) :
  let attributes :=
    [ (js "cloudevents.event_id", a1);
      (js "cloudevents.event_source", a2);
      (js "cloudevents.event_spec_version", a3);
      (js "cloudevents.event_subject", a4);
      (js "cloudevents.event_type", a5);
      (js "cloudevents.xorca.event_redirectto", a6);
      (js "cloudevents.xorca.event_to", a7);
      (js "cloudevents.xorca.event_executionunits", a8);
      (js "cloudevents.xorca.event_elapsedtime", a9) ] in
  get_property attributes (js "cloudevents.event_id") = Some a1 /\
  get_property attributes (js "cloudevents.event_source") = Some a2 /\
  get_property attributes (js "cloudevents.event_spec_version") = Some a3 /\
  get_property attributes (js "cloudevents.event_subject") = Some a4 /\
  get_property attributes (js "cloudevents.event_type") = Some a5 /\
  get_property attributes (js "cloudevents.xorca.event_redirectto") = Some a6 /\
  get_property attributes (js "cloudevents.xorca.event_to") = Some a7 /\
  get_property attributes (js "cloudevents.xorca.event_executionunits")
    = Some a8 /\
  get_property attributes (js "cloudevents.xorca.event_elapsedtime") = Some a9.
Proof. repeat split; vm_compute; reflexivity. Qed.

(** X7. The telemetry attributes of a constructed event: the type and
    subject attributes are the caller's strings, the source attribute is
    [encodeURI] of the caller's source, and each of the attributes for
    redirectto, to, executionunits and elapsedtime is the empty string
    exactly when the field is null. *)
Theorem openTelemetryAttributes_constructed {TData} (env : Env)
  (event : Input.t TData) (this : XOrcaCloudEvent TData) :
  constructor env event = Ok this ->
  get_property (openTelemetryAttributes this) (js "cloudevents.event_type")
    = Some (Input.type event) /\
  get_property (openTelemetryAttributes this) (js "cloudevents.event_subject")
    = Some (Input.subject event) /\
  (exists r, encodeURI (Input.source event) = Ok r /\
     get_property (openTelemetryAttributes this)
       (js "cloudevents.event_source") = Some r) /\
  (get_property (openTelemetryAttributes this)
     (js "cloudevents.xorca.event_redirectto") = Some [] <->
   redirectto this = None) /\
  (get_property (openTelemetryAttributes this)
     (js "cloudevents.xorca.event_to") = Some [] <-> to this = None) /\
  (get_property (openTelemetryAttributes this)
     (js "cloudevents.xorca.event_executionunits") = Some [] <->
   executionunits this = None) /\
  (get_property (openTelemetryAttributes this)
     (js "cloudevents.xorca.event_elapsedtime") = Some [] <->
   elapsedtime this = None).
Proof.
  intros H.
  apply constructor_ok in H
    as (_ & _ & Hty & Hs & _ & Hsub & _ & _ & Hto & Hre & _ & _ & Hel & Hex).
  assert (Hnn : forall x, or_null x <> Some []).
  { intros x Hx. by apply truthy_nonempty in Hx. }
  assert (Hiff : forall x : option jsstring, x <> Some [] ->
            (Some (or_empty x) = Some [] <-> x = None)).
  { intros x Hx. rewrite <- (or_empty_null x Hx).
    split; [by intros [= ->] | by intros ->]. }
  unfold openTelemetryAttributes.
  destruct (telemetry_lookup
              (or_empty (Some (id this))) (or_empty (Some (source this)))
              (or_empty (Some (specversion this)))
              (or_empty (Some (subject this))) (or_empty (Some (type this)))
              (or_empty (redirectto this)) (or_empty (to this))
              (or_empty (executionunits this)) (or_empty (elapsedtime this)))
    as (_ & -> & _ & -> & -> & -> & -> & -> & ->).
  rewrite !or_empty_string, Hty, Hsub.
  split; [reflexivity|]. split; [reflexivity|]. split; [eauto|].
  split; [apply Hiff; eauto using encode_or_null_nonempty|].
  split; [apply Hiff; eauto using encode_or_null_nonempty|].
  split; apply Hiff; rewrite ?Hex, ?Hel; apply Hnn.
Qed.

Lemma openTelemetryAttributes_constructed_witness :
  exists this, constructor sample_env order_full = Ok this /\
    get_property (openTelemetryAttributes this)
      (js "cloudevents.event_type") = Some (js "order.created") /\
    redirectto this = None.
Proof.
  eexists. split; [reflexivity|].
  destruct (openTelemetryAttributes_constructed sample_env order_full _ eq_refl)
    as (Hty & _ & _ & Hre & _).
  split; [exact Hty | by apply Hre].
Defined.

(** ** Constructing again from a snapshot *)

Lemma or_null_of_nullable (x : option jsstring) :
  x <> Some [] -> or_null (of_nullable x) = x.
Proof. destruct x as [[|c s]|]; cbn; done. Qed.

Lemma encode_or_null_of_nullable (x : option jsstring) :
  x <> Some [] ->
  (forall s, x = Some s -> Forall (fun c => uri_char c = true) s) ->
  exists y, encode_or_null (of_nullable x) = Ok y /\
    (y = x <-> forall s, x = Some s -> 37 ∉ s).
Proof.
  intros Hne Hch. destruct x as [s|]; cbn [of_nullable].
  - specialize (Hch s eq_refl).
    destruct (Encode_again s Hch) as (r & He & _).
    unfold encode_or_null. rewrite truthy_given by congruence.
    unfold encodeURI. rewrite He. cbn [bind]. exists (Some r).
    split; [reflexivity|].
    pose proof (Encode_fixed_point s Hch) as Hfix. rewrite He in Hfix.
    split.
    + intros [= ->] s' [= <-]. by apply Hfix.
    + intros Hs. f_equal. specialize (Hs s eq_refl).
      apply Hfix in Hs. congruence.
  - exists None. split; [reflexivity|]. split; [discriminate | done].
Qed.

(** X9. Constructing again from the snapshot of a constructed event, as
    [new XOrcaCloudEvent(e.toJSON())] does: whenever the time helper
    accepts the event's time the construction succeeds; it keeps id, type,
    subject, data, specversion, datacontenttype and the four tracing and
    metric fields; and it encodes [source], [to] and [redirectto] a second
    time, so that each of them is kept exactly when it holds no "%". *)
Theorem constructor_of_snapshot {TData} (env : Env) (event : Input.t TData)
  (e : XOrcaCloudEvent TData) (t : jsstring) :
  wf_input event ->
  uuidv4 env <> [] ->
  constructor env event = Ok e ->
  convertToISOString env (Some (TimeString (time e))) = Ok t ->
  exists e', constructor env (snapshot_input e) = Ok e' /\
    id e' = id e /\ type e' = type e /\ subject e' = subject e /\
    data e' = data e /\ specversion e' = specversion e /\
    datacontenttype e' = datacontenttype e /\
    traceparent e' = traceparent e /\ tracestate e' = tracestate e /\
    elapsedtime e' = elapsedtime e /\ executionunits e' = executionunits e /\
    time e' = t /\
    encodeURI (source e) = Ok (source e') /\
    (source e' = source e <-> 37 ∉ source e) /\
    (to e' = to e <-> forall s, to e = Some s -> 37 ∉ s) /\
    (redirectto e' = redirectto e <->
     forall s, redirectto e = Some s -> 37 ∉ s).
Proof.
  intros Hwf Hu He Ht.
  destruct (encoded_fields_uri_chars env event e Hwf He) as (Hs & Hto & Hre).
  apply constructor_ok in He
    as (Hid & _ & _ & _ & Hdct & _ & _ & Hspv & Heto & Here & H1 & H2 & H3 & H4).
  assert (Hct : datacontenttype e <> []).
  { rewrite Hdct. by destruct (Input.datacontenttype event) as [[|c s]|]. }
  assert (Hv : specversion e <> []).
  { rewrite Hspv. by destruct (Input.specversion event) as [[|c s]|]. }
  assert (Hide : id e <> []).
  { rewrite Hid. by destruct (Input.id event) as [[|c s]|]. }
  assert (Hnn : forall x, or_null x <> Some []).
  { intros x Hx. by apply truthy_nonempty in Hx. }
  assert (Hsrc : Forall (fun c => uri_char c = true) (source e)).
  { eapply Forall_impl; [exact Hs|]. by intros c [Hc _]. }
  destruct (Encode_again _ Hsrc) as (src' & Hsrc' & _).
  destruct (encode_or_null_of_nullable (to e)) as (x & Hx & Hxiff).
  { eauto using encode_or_null_nonempty. }
  { intros s Hs'. eapply Forall_impl; [by apply Hto|]. by intros c [Hc _]. }
  destruct (encode_or_null_of_nullable (redirectto e)) as (y & Hy & Hyiff).
  { eauto using encode_or_null_nonempty. }
  { intros s Hs'. eapply Forall_impl; [by apply Hre|]. by intros c [Hc _]. }
  eexists. split.
  { unfold constructor. cbn [snapshot_input Input.time Input.source Input.to
      Input.redirectto Input.id Input.type Input.datacontenttype Input.subject
      Input.data Input.specversion Input.traceparent Input.tracestate
      Input.elapsedtime Input.executionunits].
    rewrite Ht. unfold encodeURI. rewrite Hsrc', Hx, Hy. cbn [bind].
    reflexivity. }
  cbn [id type subject data specversion datacontenttype traceparent
       tracestate elapsedtime executionunits time source to redirectto].
  rewrite !or_default_some by assumption.
  rewrite !or_null_of_nullable by (rewrite ?H1, ?H2, ?H3, ?H4; apply Hnn).
  repeat split; try done.
  - intros ->. apply (Encode_fixed_point _ Hsrc). exact Hsrc'.
  - intros Hp. apply (Encode_fixed_point _ Hsrc) in Hp. congruence.
  - by apply Hxiff.
  - by apply Hxiff.
  - by apply Hyiff.
  - by apply Hyiff.
Qed.

Lemma constructor_of_snapshot_witness :
  wf_input order_full /\
  exists e e', constructor sample_env order_full = Ok e /\
    constructor sample_env (snapshot_input e) = Ok e' /\
    source e = js "svc%20name/topic" /\
    source e' = js "svc%2520name/topic" /\ to e' = to e.
Proof.
  assert (Hwf : wf_input order_full).
  { repeat split; cbn; repeat constructor. }
  split; [exact Hwf|].
  assert (He : exists e, constructor sample_env order_full = Ok e /\
            source e = js "svc%20name/topic" /\
            time e = js "2024-02-03T04:05:06.000Z" /\
            to e = Some (js "svc/billing")).
  { eexists. repeat split; reflexivity. }
  destruct He as (e & He & Hs & Ht & Hto).
  assert (Htime : convertToISOString sample_env (Some (TimeString (time e)))
                  = Ok (js "2024-02-03T04:05:06.000Z")).
  { rewrite Ht. reflexivity. }
  destruct (constructor_of_snapshot sample_env order_full e _ Hwf
              ltac:(discriminate) He Htime)
    as (e' & He' & _ & _ & _ & _ & _ & _ & _ & _ & _ & _ & _ & Hsrc & _
        & Hto' & _).
  exists e, e'. split; [exact He|]. split; [exact He'|].
  split; [exact Hs|]. split.
  - rewrite Hs in Hsrc.
    assert (Henc : encodeURI (js "svc%20name/topic")
                   = Ok (js "svc%2520name/topic")) by reflexivity.
    congruence.
  - apply Hto'. rewrite Hto. intros s [= <-]. vm_compute.
    intros H. repeat (apply elem_of_cons in H as [H|H]; [discriminate|]).
    by apply elem_of_nil in H.
Defined.

(** ** What JSON text keeps of a snapshot *)

Section ImageFacts.
Import JSON.

Lemma json_image_array (l : list JsValue) :
  json_image (JsArray l) = JsArray (List.map image_element l).
Proof. reflexivity. Qed.

Lemma json_image_object (l : list (jsstring * JsValue)) :
  json_image (JsObject l) = JsObject (image_members l).
Proof. reflexivity. Qed.

(** The image of a value has the text of the value. *)
Lemma Serialize_json_image (v : JsValue) :
  SerializeJSONProperty (json_image v) = SerializeJSONProperty v.
Proof.
  induction v as [| |b|n|s|l IH|l IH] using JsValue_ind'; try reflexivity.
  - destruct n as [|[|]| |z|a m e]; reflexivity.
  - rewrite json_image_array, !Serialize_array. do 4 f_equal.
    induction IH as [|x l Hx _ IHl]; [reflexivity|].
    cbn [List.map]. rewrite IHl. f_equal.
    unfold element_text, image_element.
    destruct x; try (by rewrite Hx); reflexivity.
  - rewrite json_image_object, !Serialize_object. do 4 f_equal.
    induction IH as [|[k x] l Hx _ IHl]; [reflexivity|].
    cbn [snd] in Hx. cbn [image_members member_texts].
    destruct x; cbn [member_texts]; rewrite ?Hx, ?IHl; try reflexivity.
Qed.

Lemma image_members_keys (l : list (jsstring * JsValue)) (k : jsstring) :
  k ∈ List.map fst (image_members l) -> k ∈ List.map fst l.
Proof.
  induction l as [|[k' x] l IH]; [done|].
  cbn [image_members]. destruct x; cbn [List.map fst];
    rewrite ?elem_of_cons; intuition.
Qed.

Lemma image_members_NoDup (l : list (jsstring * JsValue)) :
  NoDup (List.map fst l) -> NoDup (List.map fst (image_members l)).
Proof.
  induction l as [|[k x] l IH]; [done|].
  cbn [List.map fst]. intros [Hk Hnd]%NoDup_cons.
  cbn [image_members]. destruct x; cbn [List.map fst];
    try (apply NoDup_cons; split; [intros H; apply Hk; by apply image_members_keys|]);
    by apply IH.
Qed.

(** The image of a serialisable value other than undefined is
    representable. *)
Lemma json_image_representable (v : JsValue) :
  serialisable v = true -> v <> JsUndefined ->
  representable (json_image v) = true.
Proof.
  induction v as [| |b|n|s|l IH|l IH] using JsValue_ind'; intros Hs Hne;
    try done.
  - destruct n as [|[|]| |z|a m e]; first [exact Hs | reflexivity].
  - clear Hne. rewrite json_image_array. cbn [serialisable representable] in *.
    induction IH as [|x l Hx _ IHl]; [reflexivity|].
    cbn [forallb List.map] in *. apply andb_true_iff in Hs as [Hsx Hsl].
    rewrite (IHl Hsl), andb_true_r. unfold image_element.
    destruct x; try reflexivity; by apply Hx.
  - clear Hne. rewrite json_image_object. cbn [serialisable representable] in *.
    apply andb_true_iff in Hs as [Hnd Hs]. apply distinct_NoDup in Hnd.
    apply andb_true_iff. split.
    { apply distinct_NoDup. by apply image_members_NoDup. }
    clear Hnd. induction IH as [|[k x] l Hx _ IHl]; [reflexivity|].
    cbn [snd] in Hx. cbn [forallb snd] in Hs.
    apply andb_true_iff in Hs as [Hsx Hsl].
    cbn [image_members].
    destruct x; cbn [forallb snd]; rewrite ?(IHl Hsl), ?andb_true_r;
      try reflexivity; by apply Hx.
Qed.

(** [JSON.parse] reads the text of a serialisable value as its image. *)
Lemma parse_stringify_image (v : JsValue) :
  serialisable v = true -> v <> JsUndefined ->
  exists text, stringify v = Some text /\ parse text = Ok (json_image v) /\
    stringify (json_image v) = Some text.
Proof.
  intros Hs Hne.
  destruct (parse_stringify _ (json_image_representable v Hs Hne))
    as (text & Ht & Hp).
  exists text. unfold stringify in *. rewrite Serialize_json_image in Ht.
  by rewrite Serialize_json_image.
Qed.

Lemma toJSON_value_serialisable (this : XOrcaCloudEvent Payload) :
  serialisable (JsObject (data this)) = true ->
  serialisable (toJSON_value this) = true.
Proof.
  intros Hd. unfold toJSON_value, toJSON, own_properties.
  cbn [serialisable List.map fst snd forallb value_of_field].
  cbn [serialisable] in Hd. rewrite Hd.
  destruct (to this), (redirectto this), (traceparent this),
    (tracestate this), (elapsedtime this), (executionunits this);
    reflexivity.
Qed.

End ImageFacts.

(** X10. What [JSON.parse] reads from [toString()] when the payload
    holds values JSON has no text for.  For every constructed event whose
    payload is built from records (each key once), arrays, strings,
    booleans, null, undefined and Numbers, NaN, the infinities and
    negative zero among them, [toString()] returns a text; parsing it
    gives the snapshot with those values replaced as JSON does (null for
    NaN and the infinities and for an undefined element of an array, zero
    for negative zero, a property with an undefined value left out), and
    writing what was parsed gives the same text again. *)
Theorem toString_parse_image (env : Env) (event : Input.t Payload)
  (this : XOrcaCloudEvent Payload) :
  constructor env event = Ok this ->
  serialisable (JsObject (Input.data event)) = true ->
  exists text,
    toString this = Some text /\
    JSON.parse text = Ok (json_image (toJSON_value this)) /\
    JSON.stringify (json_image (toJSON_value this)) = Some text.
Proof.
  intros H Hd.
  apply constructor_ok in H as (_ & _ & _ & _ & _ & _ & Hdata & _).
  rewrite <- Hdata in Hd. apply toJSON_value_serialisable in Hd.
  by apply parse_stringify_image.
Qed.

Lemma toString_parse_image_witness :
  serialisable (JsObject (Input.data order_lossy)) = true /\
  exists this text,
    constructor sample_env order_lossy = Ok this /\
    toString this = Some text /\
    JSON.parse text = Ok (json_image (toJSON_value this)) /\
    get_property (image_members (data this)) (js "amount") = Some JsNull.
Proof.
  split; [reflexivity|].
  destruct (toString_parse_image sample_env order_lossy _ eq_refl eq_refl)
    as (text & Hs & Hp & _).
  eexists _, text. split; [reflexivity|]. split; [exact Hs|].
  split; [exact Hp | reflexivity].
Defined.

(** ** Sharing of the payload *)

Section SharingFacts.
Import Objects.

(** X11. Two events constructed from the same candidate record, each
    with what the generator and the time helper return at its turn, are
    two objects that hold the caller's payload by the same reference: the
    second construction leaves the first event and the payload as they
    were, and a plain write to a key of the payload is read back from the
    payload, which is the [data] of both events, while both events stay
    as they are. *)
Theorem constructed_events_share_payload (env1 env2 : Env) (proto : loc)
  (event : Input.t loc) (h h1 h2 : heap) (first second : loc) (payload : Obj) :
  new_XOrcaCloudEvent env1 proto event h = Ok (first, h1) ->
  new_XOrcaCloudEvent env2 proto event h1 = Ok (second, h2) ->
  h !! Input.data event = Some payload ->
  first <> second /\
  h2 !! first = h1 !! first /\
  h2 !! Input.data event = Some payload /\
  Get h2 first (js "data") = Ok (Heap.VRef (Input.data event)) /\
  Get h2 second (js "data") = Ok (Heap.VRef (Input.data event)) /\
  forall (strict : bool) (k : jsstring) (v : Value),
    plain_write h2 (Input.data event) k = true ->
    snd (assign strict (Input.data event) k v h2) = Ok () /\
    Get (fst (assign strict (Input.data event) k v h2)) (Input.data event) k
      = Ok v /\
    fst (assign strict (Input.data event) k v h2) !! first = h2 !! first /\
    fst (assign strict (Input.data event) k v h2) !! second = h2 !! second.
Proof.
  intros H1 H2 Hp.
  apply construction_ok in H1 as (f1 & Hc1 & -> & ->).
  apply construction_ok in H2 as (f2 & Hc2 & -> & ->).
  apply constructor_ok in Hc1 as (_ & _ & _ & _ & _ & _ & Hd1 & _).
  apply constructor_ok in Hc2 as (_ & _ & _ & _ & _ & _ & Hd2 & _).
  assert (Hlt : (Input.data event < length h)%nat) by (by eapply lookup_lt_Some).
  set (o1 := event_object proto f1). set (o2 := event_object proto f2).
  assert (Hl1 : ((h ++ [o1]) ++ [o2]) !! length h = Some o1).
  { rewrite lookup_app_l by (rewrite length_app; simpl; lia).
    by apply list_lookup_middle. }
  assert (Hl2 : ((h ++ [o1]) ++ [o2]) !! length (h ++ [o1]) = Some o2)
    by (by apply list_lookup_middle).
  assert (Hp2 : ((h ++ [o1]) ++ [o2]) !! Input.data event = Some payload).
  { rewrite <- app_assoc. by rewrite lookup_app_l. }
  rewrite length_app in *. cbn [length] in *.
  split; [lia|]. split.
  { rewrite Hl1. symmetry. by apply list_lookup_middle. }
  split; [exact Hp2|]. split.
  { unfold Get. rewrite (lookup_own _ _ _ _ _ Hl1 (event_object_data proto f1)).
    by rewrite Hd1. }
  split.
  { unfold Get. rewrite (lookup_own _ _ _ _ _ Hl2 (event_object_data proto f2)).
    by rewrite Hd2. }
  intros strict k v Hw.
  rewrite (assign_plain_write strict _ _ _ k v Hp2 Hw). cbn [fst snd].
  split; [reflexivity|]. split; [by apply Get_write|].
  split; apply list_lookup_insert_ne; lia.
Qed.

Lemma constructed_events_share_payload_witness :
  exists first second h1 h2,
    new_XOrcaCloudEvent sample_env 1%nat (order_at 2%nat)
      (payload_heap (Data (Heap.VNum (Int 10)) true) true) = Ok (first, h1) /\
    new_XOrcaCloudEvent second_env 1%nat (order_at 2%nat) h1
      = Ok (second, h2) /\
    first <> second /\
    Get h2 first (js "id") <> Get h2 second (js "id") /\
    Get h2 first (js "data") = Ok (Heap.VRef 2%nat) /\
    Get h2 second (js "data") = Ok (Heap.VRef 2%nat) /\
    Get (fst (assign true 2%nat (js "amount") (Heap.VNum (Int 11)) h2)) 2%nat
      (js "amount") = Ok (Heap.VNum (Int 11)).
Proof.
  pose (h := payload_heap (Data (Heap.VNum (Int 10)) true) true).
  let r1 := eval vm_compute in
    (new_XOrcaCloudEvent sample_env 1%nat (order_at 2%nat) h) in
  match r1 with
  | Ok (?first, ?h1) =>
      assert (H1 : new_XOrcaCloudEvent sample_env 1%nat (order_at 2%nat) h
                   = Ok (first, h1)) by (vm_compute; reflexivity);
      let r2 := eval vm_compute in
        (new_XOrcaCloudEvent second_env 1%nat (order_at 2%nat) h1) in
      match r2 with
      | Ok (?second, ?h2) =>
          assert (H2 : new_XOrcaCloudEvent second_env 1%nat (order_at 2%nat) h1
                       = Ok (second, h2)) by (vm_compute; reflexivity);
          exists first, second, h1, h2
      end
  end.
  split; [exact H1|]. split; [exact H2|].
  destruct (constructed_events_share_payload _ _ _ _ _ _ _ _ _ _ H1 H2 eq_refl)
    as (Hne & _ & _ & Hd1 & Hd2 & Hwrite).
  split; [exact Hne|]. split; [vm_compute; discriminate|].
  split; [exact Hd1|]. split; [exact Hd2|].
  by apply Hwrite.
Defined.

End SharingFacts.

(** X12. The constructor validates no required field: [type], [subject]
    and [data] are stored exactly as given, also when they are empty, and
    the stored [source] is empty exactly when the given one is. *)
Theorem constructor_required_fields {TData} (env : Env)
  (event : Input.t TData) (this : XOrcaCloudEvent TData) :
  constructor env event = Ok this ->
  type this = Input.type event /\ subject this = Input.subject event /\
  data this = Input.data event /\
  (source this = [] <-> Input.source event = []).
Proof.
  intros H.
  apply constructor_ok in H as (_ & _ & Hty & Hs & _ & Hsub & Hd & _).
  repeat split; try assumption.
  - intros He. destruct (Input.source event) as [|c s] eqn:E; [done|].
    exfalso. eapply (encodeURI_nonempty (c :: s)); [done | exact Hs | exact He].
  - intros He. rewrite He in Hs. cbn in Hs. congruence.
Qed.

Lemma constructor_required_fields_witness :
  exists this,
    constructor sample_env (minimal_input [] [] [] ([] : Payload)) = Ok this /\
    type this = [] /\ source this = [].
Proof.
  eexists. split; [reflexivity|].
  destruct (constructor_required_fields sample_env
              (minimal_input [] [] [] ([] : Payload)) _ eq_refl)
    as (Hty & _ & _ & Hs).
  split; [exact Hty | by apply Hs].
Defined.
